(** * TripIt client: authentication flow and payload shaping

    A shallow embedding of [src/auth.ts] (token cache, PKCE material, login
    form resolver, login submitter, code extractor, token exchanger and the
    [authenticate] orchestrator) and of [src/utils.ts] / [src/constants.ts]
    (payload cleaning and field ordering), followed by the properties the
    specification states about them.

    Line numbers in the comments are those of [src/tripit.ts] as it is
    laid out here: the client class first (lines 1-890), the module
    [auth.ts] last (lines 2128-2369).

    Conventions.
    - JavaScript strings are [string]s (byte strings, UTF-8).
    - JavaScript numbers that the code does arithmetic on (HTTP status,
      [expires_in], epoch milliseconds) are integers, modelled in [Z].
    - A JavaScript object used as a record of string keys is the
      association list of its own properties ([Js.obj]).  The records the
      client assembles have fixed, ordinary property names (no array index,
      no name that [Object.prototype] provides): they are built with
      [Js.set] and read with [Js.get] and [Js.has].  Where a name comes
      from outside (the inputs of the login form, an arbitrary object or
      order list) the code is modelled with [Js.assign] and [Js.has_in],
      which also say what the language does with an array index, with
      [__proto__] and with an inherited name.
    - [undefined] / [null] results of library calls are [None]. *)

From Stdlib Require Import List String Ascii ZArith NArith Lia Bool.
From Stdlib Require Import DecimalString.
Import ListNotations.

Local Open Scope string_scope.
Local Open Scope Z_scope.
Set Warnings "-register-all".

(* ================================================================== *)
(** * JavaScript objects as insertion-ordered records *)
(* ================================================================== *)

Module Js.

Definition obj (V : Type) : Type := list (string * V).

(** [obj[key]]: the value of an own property, [None] for [undefined]. *)
Fixpoint get {V} (o : obj V) (key : string) : option V :=
  match o with
  | [] => None
  | (k, v) :: rest => if String.eqb k key then Some v else get rest key
  end.

(** [key in obj] for an ordinary name: the object has it as an own
    property ([has_in] covers the inherited names). *)
Definition has {V} (o : obj V) (key : string) : bool :=
  match get o key with Some _ => true | None => false end.

(** [obj[key] = v] for an ordinary name: an existing property keeps its
    position, a new one is appended ([assign] covers the other names). *)
Fixpoint set {V} (o : obj V) (key : string) (v : V) : obj V :=
  match o with
  | [] => [(key, v)]
  | (k, w) :: rest =>
      if String.eqb k key then (k, v) :: rest else (k, w) :: set rest key v
  end.

(** [Object.keys(obj)]. *)
Definition keys {V} (o : obj V) : list string := map fst o.

(** [{...a, ...b}]: object spread, later properties win in place. *)
Definition spread {V} (a b : obj V) : obj V :=
  fold_left (fun acc kv => set acc (fst kv) (snd kv)) b a.

(** Membership of a key in a list of keys. *)
Definition mem (key : string) (l : list string) : bool :=
  existsb (String.eqb key) l.

(** The list without repetitions, each key at its first occurrence;
    [seen] holds the keys already met. *)
Fixpoint uniq_from (seen l : list string) : list string :=
  match l with
  | [] => []
  | x :: rest =>
      if mem x seen then uniq_from seen rest
      else x :: uniq_from (seen ++ [x]) rest
  end.

Definition first_occurrences (l : list string) : list string :=
  uniq_from [] l.

(** JavaScript truthiness of a possibly-undefined string: only a
    non-empty string is truthy. *)
Definition truthy (s : option string) : option string :=
  match s with
  | Some "" => None
  | other => other
  end.

(** ** Any property name

    The own properties of an object are enumerated with the array indices
    first, in ascending order, then the other names in the order they
    were created.  [Object.prototype] provides every object with a few
    names of its own, among them the accessor [__proto__], under which an
    assignment creates no own property. *)

(** The number a string of decimal digits denotes. *)
Fixpoint decimal_value (s : string) (acc : N) : option N :=
  match s with
  | EmptyString => Some acc
  | String c rest =>
      let n := N_of_ascii c in
      if ((48 <=? n) && (n <=? 57))%N
      then decimal_value rest (acc * 10 + (n - 48))%N
      else None
  end.

(** The array index a property name denotes: the name is the decimal
    numeral, without a leading zero, of an integer from 0 to 2^32 - 2. *)
Definition index_of (name : string) : option N :=
  match name with
  | EmptyString => None
  | String c rest =>
      if Ascii.eqb c "0" && negb (String.eqb rest "") then None
      else
        match decimal_value name 0 with
        | Some n => if (n <=? 4294967294)%N then Some n else None
        | None => None
        end
  end.

(** The names [Object.prototype] provides. *)
Definition inherited_names : list string :=
  [ "constructor"; "hasOwnProperty"; "isPrototypeOf";
    "propertyIsEnumerable"; "toLocaleString"; "toString"; "valueOf";
    "__proto__"; "__defineGetter__"; "__defineSetter__";
    "__lookupGetter__"; "__lookupSetter__" ].

(** [key in obj] for any name: an own property or an inherited one. *)
Definition has_in {V} (o : obj V) (key : string) : bool :=
  has o key || mem key inherited_names.

(** [obj[key]] where [key in obj] holds: the own property, else the
    inherited one; [inherited] gives the values of the inherited names. *)
Definition get_in {V} (inherited : string -> V) (o : obj V) (key : string)
  : V :=
  match get o key with
  | Some v => v
  | None => inherited key
  end.

(** A new property whose name is the array index [n] goes before the
    first property that is no array index or is a larger one. *)
Fixpoint insert_index {V} (n : N) (key : string) (v : V) (o : obj V)
  : obj V :=
  match o with
  | [] => [(key, v)]
  | (k, w) :: rest =>
      match index_of k with
      | Some m =>
          if (m <? n)%N then (k, w) :: insert_index n key v rest
          else (key, v) :: (k, w) :: rest
      | None => (key, v) :: (k, w) :: rest
      end
  end.

(** [obj[key] = v] for any name, on an object whose prototype is
    [Object.prototype]: an own property is updated in place; otherwise
    [__proto__] reaches the inherited accessor and no property is created,
    an array index is filed among the indices and any other name is
    appended. *)
Definition assign {V} (o : obj V) (key : string) (v : V) : obj V :=
  if has o key then set o key v
  else if String.eqb key "__proto__" then o
  else
    match index_of key with
    | Some n => insert_index n key v o
    | None => set o key v
    end.

(** The names a first assignment appends: neither an array index nor
    [__proto__]. *)
Definition appended (name : string) : bool :=
  negb (String.eqb name "__proto__")
  && match index_of name with Some _ => false | None => true end.

(** Ordinary property names: appended by a first assignment and not
    provided by [Object.prototype]. *)
Definition ordinary (name : string) : bool :=
  appended name && negb (mem name inherited_names).

End Js.

(* ================================================================== *)
(** * [src/utils.ts] and the field-order constants *)
(* ================================================================== *)

Module Utils.

(** Values that travel through the payload helpers. *)
Inductive value : Type :=
| VUndefined
| VNull
| VBool (b : bool)
| VNum (n : Z)
| VStr (s : string)
| VArr (items : list value)
| VObj (fields : list (string * value)).

(** [v !== undefined && v !== null] *)
Definition present (v : value) : bool :=
  match v with
  | VUndefined | VNull => false
  | _ => true
  end.

(** [clean]: drops [undefined]/[null] members of objects and arrays,
    recursively.  This is the function on records of ordinary names;
    [clean_any] below is the function on any names. *)
Fixpoint clean (o : value) : value :=
  match o with
  | VArr items => VArr (filter present (map clean items))
  | VObj fields =>
      VObj (fold_left
              (fun acc kv =>
                 if present (snd kv) then Js.set acc (fst kv) (clean (snd kv))
                 else acc)
              fields [])
  | other => other
  end.

(** [orderObjectByKeys(obj, orderArray)] on ordinary names;
    [orderObjectByKeys_any] below is the function on any names. *)
Definition orderObjectByKeys {V} (o : Js.obj V) (orderArray : list string)
  : Js.obj V :=
  fold_left
    (fun ordered key =>
       match Js.get o key with
       | Some v => Js.set ordered key v
       | None => ordered
       end)
    orderArray [].

(** [clean] on any object: [fields] are the own members in the order
    [Object.entries] lists them, and [acc[k] = clean(v)] is an assignment
    under any name. *)
Fixpoint clean_any (o : value) : value :=
  match o with
  | VArr items => VArr (filter present (map clean_any items))
  | VObj fields =>
      VObj (fold_left
              (fun acc kv =>
                 if present (snd kv)
                 then Js.assign acc (fst kv) (clean_any (snd kv))
                 else acc)
              fields [])
  | other => other
  end.

(** [orderObjectByKeys(obj, orderArray)] on any plain object and any list
    of names: [key in obj] also answers for the inherited names, whose
    values [inherited] gives, and [ordered[key] = obj[key]] is an
    assignment under any name. *)
Definition orderObjectByKeys_any {V} (inherited : string -> V)
  (o : Js.obj V) (orderArray : list string) : Js.obj V :=
  fold_left
    (fun ordered key =>
       if Js.has_in o key
       then Js.assign ordered key (Js.get_in inherited o key)
       else ordered)
    orderArray [].

(** ** [src/constants.ts]: the field orders of the replace endpoints *)

Definition TRIP_UPDATE_FIELD_ORDER : list string :=
  [ "primary_location"; "TripPurposes"; "is_private"; "start_date";
    "display_name"; "is_expensible"; "end_date"; "description" ].

Definition LODGING_FIELD_ORDER : list string :=
  [ "uuid"; "trip_uuid"; "trip_id"; "is_client_traveler"; "display_name";
    "Image"; "supplier_name"; "supplier_conf_num"; "booking_rate";
    "is_purchased"; "notes"; "total_cost"; "StartDateTime"; "EndDateTime";
    "Address" ].

Definition AIR_FIELD_ORDER : list string :=
  [ "uuid"; "trip_uuid"; "trip_id"; "is_client_traveler"; "display_name";
    "Image"; "supplier_name"; "supplier_conf_num"; "is_purchased"; "notes";
    "total_cost"; "Segment" ].

Definition AIR_SEGMENT_FIELD_ORDER : list string :=
  [ "uuid"; "StartDateTime"; "EndDateTime"; "start_city_name";
    "start_country_code"; "end_city_name"; "end_country_code";
    "marketing_airline"; "marketing_flight_number"; "aircraft";
    "service_class" ].

Definition TRANSPORT_FIELD_ORDER : list string :=
  [ "uuid"; "trip_uuid"; "trip_id"; "is_client_traveler"; "display_name";
    "Image"; "is_purchased"; "is_tripit_booking";
    "has_possible_cancellation"; "Segment" ].

Definition TRANSPORT_SEGMENT_FIELD_ORDER : list string :=
  [ "uuid"; "StartLocationAddress"; "StartDateTime"; "EndLocationAddress";
    "EndDateTime"; "vehicle_description"; "start_location_name";
    "end_location_name"; "confirmation_num"; "carrier_name" ].

Definition ACTIVITY_FIELD_ORDER : list string :=
  [ "uuid"; "trip_uuid"; "trip_id"; "is_client_traveler"; "display_name";
    "Image"; "is_purchased"; "notes"; "StartDateTime"; "EndDateTime";
    "Address"; "location_name" ].

Definition ADDRESS_FIELD_ORDER : list string :=
  [ "address"; "city"; "state"; "zip"; "country" ].

(** ** [src/tripit.ts]: the bodies the update operations post

    Each update operation assembles a record from its parameters and the
    record it fetched, and posts [orderObjectByKeys(clean(record), ORDER)]
    under the resource's name.  The assembled record is the argument here;
    the definitions are the payload expressions of [updateTrip]
    (lines 193-203), [updateHotel] (369-377), [updateFlight] (559-564),
    [updateTransport] (736-744) and [updateActivity] (880-888). *)

Definition fields_of (v : value) : Js.obj value :=
  match v with
  | VObj fields => fields
  | _ => []
  end.

Definition ordered_clean (record : Js.obj value) (order : list string)
  : value :=
  VObj (orderObjectByKeys (fields_of (clean (VObj record))) order).

(** The member names of the record posted under [resource]. *)
Definition payload_fields (payload : Js.obj value) (resource : string)
  : list string :=
  match Js.get payload resource with
  | Some record => Js.keys (fields_of record)
  | None => []
  end.

Definition updateTrip_payload (tripData : Js.obj value) : Js.obj value :=
  [("Trip", ordered_clean tripData TRIP_UPDATE_FIELD_ORDER)].

Definition updateHotel_payload (lodgingObject : Js.obj value)
  : Js.obj value :=
  [("LodgingObject", ordered_clean lodgingObject LODGING_FIELD_ORDER)].

Definition updateFlight_payload (airObject : Js.obj value)
  : Js.obj value :=
  [("AirObject", ordered_clean airObject AIR_FIELD_ORDER)].

Definition updateTransport_payload (transportObject : Js.obj value)
  : Js.obj value :=
  [("TransportObject", ordered_clean transportObject TRANSPORT_FIELD_ORDER)].

Definition updateActivity_payload (activityObject : Js.obj value)
  : Js.obj value :=
  [("ActivityObject", ordered_clean activityObject ACTIVITY_FIELD_ORDER)].

End Utils.

(* ================================================================== *)
(** * Text encodings used by the flow (Node [Buffer], WHATWG URL) *)
(* ================================================================== *)

Module Codec.

Definition bytes : Type := list Byte.byte.

Definition byteZ (b : Byte.byte) : Z := Z.of_N (Byte.to_N b).

Definition digit_of (alphabet : string) (i : Z) : ascii :=
  match String.get (Z.to_nat i) alphabet with
  | Some c => c
  | None => "?"%char
  end.

(** ** [buf.toString("hex")] *)

Definition hex_alphabet : string := "0123456789abcdef".

Definition hex_byte (b : Byte.byte) : string :=
  String (digit_of hex_alphabet (Z.shiftr (byteZ b) 4))
    (String (digit_of hex_alphabet (Z.land (byteZ b) 15)) "").

Fixpoint hex (buf : bytes) : string :=
  match buf with
  | [] => ""
  | b :: rest => hex_byte b ++ hex rest
  end.

(** Reading the hexadecimal text back (the inverse used to state that the
    text carries all the bytes). *)
Definition hex_value (c : ascii) : option Z :=
  let n := Z.of_N (N_of_ascii c) in
  if (48 <=? n) && (n <=? 57) then Some (n - 48)
  else if (97 <=? n) && (n <=? 102) then Some (n - 87)
  else None.

Fixpoint unhex (s : string) : option bytes :=
  match s with
  | "" => Some []
  | String hi (String lo rest) =>
      match hex_value hi, hex_value lo, unhex rest with
      | Some h, Some l, Some tl =>
          match Byte.of_N (Z.to_N (16 * h + l)) with
          | Some b => Some (b :: tl)
          | None => None
          end
      | _, _, _ => None
      end
  | String _ "" => None
  end.

(** ** [buf.toString("base64")] (RFC 4648 section 4, with padding) *)

Definition base64_alphabet : string :=
  "ABCDEFGHIJKLMNOPQRSTUVWXYZabcdefghijklmnopqrstuvwxyz0123456789+/".

(** The four 6-bit groups of a (possibly short) 3-byte block. *)
Definition sextet1 (a : Z) : Z := Z.shiftr a 2.
Definition sextet2 (a b : Z) : Z :=
  Z.lor (Z.shiftl (Z.land a 3) 4) (Z.shiftr b 4).
Definition sextet3 (b c : Z) : Z :=
  Z.lor (Z.shiftl (Z.land b 15) 2) (Z.shiftr c 6).
Definition sextet4 (c : Z) : Z := Z.land c 63.

Fixpoint base64_with (alphabet : string) (pad : string) (buf : bytes)
  : string :=
  let ch := digit_of alphabet in
  match buf with
  | [] => ""
  | [a] =>
      String (ch (sextet1 (byteZ a)))
        (String (ch (sextet2 (byteZ a) 0)) (pad ++ pad))
  | [a; b] =>
      String (ch (sextet1 (byteZ a)))
        (String (ch (sextet2 (byteZ a) (byteZ b)))
           (String (ch (sextet3 (byteZ b) 0)) pad))
  | a :: b :: c :: rest =>
      String (ch (sextet1 (byteZ a)))
        (String (ch (sextet2 (byteZ a) (byteZ b)))
           (String (ch (sextet3 (byteZ b) (byteZ c)))
              (String (ch (sextet4 (byteZ c)))
                 (base64_with alphabet pad rest))))
  end.

Definition base64 (buf : bytes) : string :=
  base64_with base64_alphabet "=" buf.

(** ** [s.replace(/c/g, d)] for a single character [c] *)
Fixpoint replace_all (c d : ascii) (s : string) : string :=
  match s with
  | "" => ""
  | String x rest =>
      String (if Ascii.eqb x c then d else x) (replace_all c d rest)
  end.

(** ** [s.replace(/=+$/, "")]: the trailing run of ['='] is removed.
    [strip_trailing] returns the text without its trailing run of [c]. *)
Fixpoint strip_trailing (c : ascii) (s : string) : string :=
  match s with
  | "" => ""
  | String x rest =>
      match strip_trailing c rest with
      | "" => if Ascii.eqb x c then "" else String x ""
      | kept => String x kept
      end
  end.

(** ** base64url without padding (RFC 4648 section 5), written directly;
    this is the encoding the specification names. *)

Definition base64url_alphabet : string :=
  "ABCDEFGHIJKLMNOPQRSTUVWXYZabcdefghijklmnopqrstuvwxyz0123456789-_".

Definition base64url_unpadded (buf : bytes) : string :=
  base64_with base64url_alphabet "" buf.

(** ** Percent-encoding *)

Definition upper_hex_alphabet : string := "0123456789ABCDEF".

Definition percent_byte (c : ascii) : string :=
  let n := Z.of_N (N_of_ascii c) in
  String "%"
    (String (digit_of upper_hex_alphabet (Z.shiftr n 4))
       (String (digit_of upper_hex_alphabet (Z.land n 15)) "")).

Definition is_alnum (c : ascii) : bool :=
  let n := Z.of_N (N_of_ascii c) in
  ((48 <=? n) && (n <=? 57)) || ((65 <=? n) && (n <=? 90))
  || ((97 <=? n) && (n <=? 122)).

Definition one_of (set : string) (c : ascii) : bool :=
  existsb (Ascii.eqb c) (list_ascii_of_string set).

(** [encodeURIComponent]: letters, digits and [-_.!~*'()] stay, every
    other byte of the UTF-8 text is percent-encoded. *)
Fixpoint encodeURIComponent (s : string) : string :=
  match s with
  | "" => ""
  | String c rest =>
      (if is_alnum c || one_of "-_.!~*'()" c then String c ""
       else percent_byte c) ++ encodeURIComponent rest
  end.

(** The [application/x-www-form-urlencoded] byte serializer behind
    [URLSearchParams.prototype.toString]: letters, digits and [*-._] stay,
    a space becomes [+], every other byte is percent-encoded. *)
Fixpoint form_encode (s : string) : string :=
  match s with
  | "" => ""
  | String c rest =>
      (if is_alnum c || one_of "*-._" c then String c ""
       else if Ascii.eqb c " " then "+"
       else percent_byte c) ++ form_encode rest
  end.

(** [new URLSearchParams(record).toString()] *)
Fixpoint urlencoded (pairs : Js.obj string) : string :=
  match pairs with
  | [] => ""
  | [(k, v)] => form_encode k ++ "=" ++ form_encode v
  | (k, v) :: rest =>
      form_encode k ++ "=" ++ form_encode v ++ "&" ++ urlencoded rest
  end.

(** [`${n}`] for an integer. *)
Definition decimal (n : Z) : string := NilZero.string_of_int (Z.to_int n).

End Codec.

(* ================================================================== *)
(** * SHA-256 (FIPS 180-4), as [crypto.createHash("sha256")] computes it *)
(* ================================================================== *)

Module Sha256.

Import Codec.

Definition w32 (x : Z) : Z := x mod 4294967296.

Definition add32 (x y : Z) : Z := w32 (x + y).

Definition rotr (n x : Z) : Z :=
  w32 (Z.lor (Z.shiftr x n) (Z.shiftl x (32 - n))).

Definition not32 (x : Z) : Z := Z.lxor x 4294967295.

Definition Ch (x y z : Z) : Z :=
  Z.lxor (Z.land x y) (Z.land (not32 x) z).

Definition Maj (x y z : Z) : Z :=
  Z.lxor (Z.lxor (Z.land x y) (Z.land x z)) (Z.land y z).

Definition Sigma0 (x : Z) : Z :=
  Z.lxor (Z.lxor (rotr 2 x) (rotr 13 x)) (rotr 22 x).
Definition Sigma1 (x : Z) : Z :=
  Z.lxor (Z.lxor (rotr 6 x) (rotr 11 x)) (rotr 25 x).
Definition sigma0 (x : Z) : Z :=
  Z.lxor (Z.lxor (rotr 7 x) (rotr 18 x)) (Z.shiftr x 3).
Definition sigma1 (x : Z) : Z :=
  Z.lxor (Z.lxor (rotr 17 x) (rotr 19 x)) (Z.shiftr x 10).

(** The constants are defined as the standard defines them: the first
    32 bits of the fractional parts of the cube roots (round constants)
    and of the square roots (initial hash value) of the first primes. *)

Definition is_prime (n : Z) : bool :=
  (2 <=? n)
  && forallb (fun d => negb (n mod d =? 0))
       (map Z.of_nat (seq 2 (Z.to_nat n - 2))).

Definition primes (count : nat) : list Z :=
  firstn count (filter is_prime (map Z.of_nat (seq 2 400))).

(** The largest [r] below [2 ^ bits] with [r ^ k <= n], found bit by bit. *)
Fixpoint root_from (k : Z) (bits : nat) (n r : Z) : Z :=
  match bits with
  | O => r
  | S bits' =>
      let candidate := r + 2 ^ Z.of_nat bits' in
      if candidate ^ k <=? n then root_from k bits' n candidate
      else root_from k bits' n r
  end.

Definition fraction_bits (k : Z) (p : Z) : Z :=
  w32 (root_from k 40 (p * 2 ^ (32 * k)) 0).

Definition K : list Z :=
  Eval vm_compute in map (fraction_bits 3) (primes 64).

Definition H0 : list Z :=
  Eval vm_compute in map (fraction_bits 2) (primes 8).

(** Big-endian bytes of an integer, [n] bytes wide. *)
Fixpoint be_bytes (n : nat) (x : Z) : list Z :=
  match n with
  | O => []
  | S n' => Z.land (Z.shiftr x (8 * Z.of_nat n')) 255 :: be_bytes n' x
  end.

(** Message padding: a [1] bit, zeros, then the bit length on 64 bits. *)
Definition pad (msg : list Z) : list Z :=
  let len := Z.of_nat (List.length msg) in
  (msg ++ [128] ++ repeat 0 (Z.to_nat ((55 - len) mod 64))
       ++ be_bytes 8 (8 * len))%list.

Fixpoint be_words (n : nat) (block : list Z) : list Z :=
  match n, block with
  | S n', a :: b :: c :: d :: rest =>
      (Z.shiftl a 24 + Z.shiftl b 16 + Z.shiftl c 8 + d) :: be_words n' rest
  | _, _ => []
  end.

(** The message schedule, kept newest-first while it grows. *)
Fixpoint extend (n : nat) (rw : list Z) : list Z :=
  match n with
  | O => rw
  | S n' =>
      let w :=
        add32 (add32 (sigma1 (nth 1 rw 0)) (nth 6 rw 0))
              (add32 (sigma0 (nth 14 rw 0)) (nth 15 rw 0)) in
      extend n' (w :: rw)
  end.

Definition schedule (block : list Z) : list Z :=
  rev (extend 48 (rev (be_words 16 block))).

Definition round (s : list Z) (kw : Z * Z) : list Z :=
  match s with
  | [a; b; c; d; e; f; g; h] =>
      let t1 :=
        add32 (add32 (add32 h (Sigma1 e)) (add32 (Ch e f g) (fst kw)))
              (snd kw) in
      let t2 := add32 (Sigma0 a) (Maj a b c) in
      [add32 t1 t2; a; b; c; add32 d t1; e; f; g]
  | _ => s
  end.

Fixpoint add_state (s t : list Z) : list Z :=
  match s, t with
  | x :: s', y :: t' => add32 x y :: add_state s' t'
  | _, _ => []
  end.

Definition compress (s : list Z) (block : list Z) : list Z :=
  add_state s (fold_left round (combine K (schedule block)) s).

Fixpoint blocks (n : nat) (s : list Z) (data : list Z) : list Z :=
  match n with
  | O => s
  | S n' => blocks n' (compress s (firstn 64 data)) (skipn 64 data)
  end.

Definition to_byte (x : Z) : Byte.byte :=
  match Byte.of_N (Z.to_N x) with
  | Some b => b
  | None => Byte.x00
  end.

Definition digest (msg : bytes) : bytes :=
  let data := pad (map byteZ msg) in
  map to_byte
    (flat_map (be_bytes 4) (blocks (Nat.div (List.length data) 64) H0 data)).

(** [createHash("sha256").update(text).digest()] *)
Definition sha256 (text : string) : bytes :=
  digest (list_byte_of_string text).

End Sha256.

(* ================================================================== *)
(** * [src/auth.ts]: data, platform and effects *)
(* ================================================================== *)

Module Auth.

Import Codec.

(** ** [src/constants.ts] *)

Definition BASE_URL : string := "https://www.tripit.com".
Definition API_BASE_URL : string := "https://api.tripit.com".
Definition REDIRECT_URI : string := "com.tripit://completeAuthorize".
Definition SCOPES : string := "offline_access email".

Definition BROWSER_HEADERS : Js.obj string :=
  [ ("User-Agent",
     "Mozilla/5.0 (Macintosh; Intel Mac OS X 10.15; rv:142.0) Gecko/20100101 Firefox/142.0");
    ("Accept",
     "text/html,application/xhtml+xml,application/xml;q=0.9,*/*;q=0.8");
    ("Accept-Language", "en-US,ja;q=0.7,en;q=0.3");
    ("Accept-Encoding", "gzip, deflate, br, zstd");
    ("DNT", "1");
    ("Sec-GPC", "1");
    ("Connection", "keep-alive");
    ("Upgrade-Insecure-Requests", "1");
    ("Sec-Fetch-Dest", "document");
    ("Sec-Fetch-Mode", "navigate");
    ("Sec-Fetch-Site", "cross-site");
    ("Priority", "u=0, i");
    ("Pragma", "no-cache");
    ("Cache-Control", "no-cache") ].

(** ** [src/types.ts] *)

Record TripItConfig : Type := {
  clientId : string;
  clientSecret : string;
  username : string;
  password : string
}.

(** The token endpoint's JSON, read as the code reads it; a member that is
    missing ([undefined]) is [None]. *)
Record TokenResponse : Type := {
  tr_access_token : option string;
  tr_expires_in : option Z;
  tr_token_type : option string;
  tr_scope : option string
}.

(** [CachedToken]; [expiresAt] is in epoch milliseconds, [None] stands for
    a missing member or [NaN]. *)
Record CachedToken : Type := {
  access_token : option string;
  expires_in : option Z;
  token_type : option string;
  scope : option string;
  expiresAt : option Z
}.

(** ** What the libraries hand back *)

(** The parts of a parsed page that the code selects with cheerio. *)
Record Input : Type := {
  input_name : option string;      (* attr("name") *)
  input_value : option string      (* attr("value") *)
}.

Record Form : Type := {
  form_action : option string;     (* attr("action") *)
  form_inputs : list Input         (* its input elements, document order *)
}.

Record Document : Type := {
  forms : list Form;               (* $("form") *)
  error_message_text : string;     (* $(".error-message").text() *)
  alert_error_text : string;       (* $(".alert-error").text() *)
  meta_refresh_content : option string;
                      (* $('meta[http-equiv="refresh"]').attr("content") *)
  script_text : string             (* $("script").text() *)
}.

(** A parsed URL: its serialisation and its decoded query pairs. *)
Record URL : Type := {
  href : string;
  searchParams : list (string * string)
}.

(** The library functions the module calls and does not define:
    [cheerio.load], [new URL(input, base)] ([None] when it throws) and
    [JSON.parse] of a token endpoint body ([None] when the body is not a
    JSON value whose members can be read). *)
Record Platform : Type := {
  cheerio_load : string -> Document;
  URL_new : string -> string -> option URL;
  JSON_parse : string -> option TokenResponse
}.

(** [params.get(name)]: the first pair with that name. *)
Fixpoint searchParams_get (params : list (string * string)) (name : string)
  : option string :=
  match params with
  | [] => None
  | (k, v) :: rest =>
      if String.eqb k name then Some v else searchParams_get rest name
  end.

(** ** Requests, responses and the world the flow runs in *)

Inductive Client : Type :=
| Session    (* fetchWithCookie: node-fetch bound to the attempt's jar *)
| Direct.    (* plain node-fetch *)

Inductive Method : Type := GET | POST.

Inductive RedirectMode : Type := Follow | Manual.

Record Request : Type := {
  req_client : Client;
  req_method : Method;
  req_url : string;
  req_headers : Js.obj string;
  req_body : option string;
  req_redirect : RedirectMode
}.

Record Response : Type := {
  status : Z;
  location : option string;        (* res.headers.get("location") *)
  body : string;                   (* await res.text() *)
  elapsed : Z                      (* milliseconds until it arrived *)
}.

(** The token cache file: missing, not parseable, or holding a token. *)
Inductive CacheFile : Type :=
| Absent
| Corrupt
| Stored (token : CachedToken).

Record World : Type := {
  cache_file : CacheFile;
  disk_writable : bool;            (* whether fs writes succeed *)
  now : Z;                         (* Date.now() *)
  inbox : list Response;           (* what the servers will answer, in order *)
  sent : list Request;             (* every request issued so far *)
  entropy : nat -> Byte.byte;      (* the system's random byte source *)
  drawn : nat                      (* how many random bytes were taken *)
}.

(** ** Exceptions and the effect monad *)

Inductive exn : Type :=
| Error (message : string)   (* throw new Error(message) in this module *)
| FetchError                 (* fetch rejected *)
| InvalidURL                 (* new URL(...) threw *)
| JsonError                  (* res.json() rejected or gave null *)
| FsError.                   (* mkdirSync / writeFileSync threw *)

Inductive Result (A : Type) : Type :=
| Ok (a : A)
| Threw (e : exn).

Arguments Ok {A} a.
Arguments Threw {A} e.

Definition M (A : Type) : Type := World -> Result A * World.

Definition ret {A} (a : A) : M A := fun w => (Ok a, w).

Definition throw {A} (e : exn) : M A := fun w => (Threw e, w).

Definition bind {A B} (c : M A) (k : A -> M B) : M B :=
  fun w =>
    match c w with
    | (Ok a, w') => k a w'
    | (Threw e, w') => (Threw e, w')
    end.

Notation "x <- c ;; k" := (bind c (fun x => k))
  (at level 61, c at next level, right associativity).
Notation "c ;;; k" := (bind c (fun _ => k))
  (at level 61, right associativity).

(** [Date.now()] *)
Definition Date_now : M Z := fun w => (Ok (now w), w).

(** [crypto.randomBytes(n)] *)
Definition randomBytes (n : nat) : M bytes :=
  fun w =>
    (Ok (map (entropy w) (seq (drawn w) n)),
     {| cache_file := cache_file w; disk_writable := disk_writable w;
        now := now w; inbox := inbox w; sent := sent w;
        entropy := entropy w; drawn := (drawn w + n)%nat |}).

(** One [await fetch(...)]: the request is recorded; the next answer, if
    any, is delivered and the clock moves by its latency. *)
Definition fetch (req : Request) : M Response :=
  fun w =>
    match inbox w with
    | [] =>
        (Threw FetchError,
         {| cache_file := cache_file w; disk_writable := disk_writable w;
            now := now w; inbox := []; sent := (sent w ++ [req])%list;
            entropy := entropy w; drawn := drawn w |})
    | res :: rest =>
        (Ok res,
         {| cache_file := cache_file w; disk_writable := disk_writable w;
            now := now w + elapsed res; inbox := rest;
            sent := (sent w ++ [req])%list;
            entropy := entropy w; drawn := drawn w |})
    end.

(** [fs.mkdirSync(CACHE_DIR, ...); fs.writeFileSync(TOKEN_CACHE_FILE, ...)] *)
Definition writeTokenFile (cached : CachedToken) : M unit :=
  fun w =>
    if disk_writable w then
      (Ok tt,
       {| cache_file := Stored cached; disk_writable := disk_writable w;
          now := now w; inbox := inbox w; sent := sent w;
          entropy := entropy w; drawn := drawn w |})
    else (Threw FsError, w).

(** ** The two patterns [submitLogin] matches against the login answer *)

Definition code (c : ascii) : Z := Z.of_N (N_of_ascii c).

Definition double_quote : ascii := "034"%char.
Definition single_quote : ascii := "039"%char.

Fixpoint strip_prefix (p s : string) : option string :=
  match p, s with
  | "", _ => Some s
  | String a p', String b s' =>
      if Ascii.eqb a b then strip_prefix p' s' else None
  | String _ _, "" => None
  end.

(** Whether the text holds a line terminator of the pattern language:
    LF, CR, U+2028 or U+2029 (the latter two in UTF-8). *)
Fixpoint has_line_terminator (s : string) : bool :=
  match s with
  | "" => false
  | String a rest =>
      if (code a =? 10) || (code a =? 13) then true
      else
        match rest with
        | String b (String c _) =>
            if (code a =? 226) && (code b =? 128)
               && ((code c =? 168) || (code c =? 169))
            then true
            else has_line_terminator rest
        | _ => has_line_terminator rest
        end
  end.

(** [meta.match(/URL=(.+)$/)?.[1]]: the leftmost ["URL="] whose remainder,
    up to the end of the text, is non-empty and on one line. *)
Fixpoint match_meta_url (s : string) : option string :=
  match s with
  | "" => None
  | String _ rest =>
      match strip_prefix "URL=" s with
      | Some target =>
          if negb (String.eqb target "") && negb (has_line_terminator target)
          then Some target
          else match_meta_url rest
      | None => match_meta_url rest
      end
  end.

(** The three-byte white-space characters of the pattern language: U+1680, U+2000-200A,
    U+2028, U+2029, U+202F, U+205F, U+3000, U+FEFF. *)
Definition wide_space (a b c : Z) : bool :=
  ((a =? 225) && (b =? 154) && (c =? 128))
  || ((a =? 226) && (b =? 128)
      && (((128 <=? c) && (c <=? 138)) || (c =? 168) || (c =? 169)
          || (c =? 175)))
  || ((a =? 226) && (b =? 129) && (c =? 159))
  || ((a =? 227) && (b =? 128) && (c =? 128))
  || ((a =? 239) && (b =? 187) && (c =? 191)).

(** One white-space character at the head of the text, removed. *)
Definition strip_space (s : string) : option string :=
  match s with
  | "" => None
  | String a r1 =>
      if ((9 <=? code a) && (code a <=? 13)) || (code a =? 32) then Some r1
      else
        match r1 with
        | "" => None
        | String b r2 =>
            if (code a =? 194) && (code b =? 160) then Some r2
            else
              match r2 with
              | "" => None
              | String c r3 =>
                  if wide_space (code a) (code b) (code c) then Some r3
                  else None
              end
        end
  end.

Fixpoint skip_spaces_upto (fuel : nat) (s : string) : string :=
  match fuel with
  | O => s
  | S fuel' =>
      match strip_space s with
      | Some rest => skip_spaces_upto fuel' rest
      | None => s
      end
  end.

(** Leading white space removed. *)
Definition skip_spaces (s : string) : string :=
  skip_spaces_upto (String.length s) s.

Definition is_quote (c : ascii) : bool :=
  Ascii.eqb c double_quote || Ascii.eqb c single_quote.

(** The longest run without a quote at the head of the text, and what
    follows it. *)
Fixpoint take_unquoted (s : string) : string * string :=
  match s with
  | "" => ("", "")
  | String c rest =>
      if is_quote c then ("", s)
      else let (run, after) := take_unquoted rest in (String c run, after)
  end.

(** The tail of the script pattern at the head of the text: white space,
    an equals sign, white space, a quote (single or double), a non-empty
    run of characters that are not quotes (the captured group), a quote. *)
Definition assignment_target (s : string) : option string :=
  match skip_spaces s with
  | String eq s1 =>
      if Ascii.eqb eq "=" then
        match skip_spaces s1 with
        | String q s2 =>
            if is_quote q then
              match take_unquoted s2 with
              | (String c run, String _ _) => Some (String c run)
              | _ => None
              end
            else None
        | "" => None
        end
      else None
  | "" => None
  end.

(** The script pattern of [submitLogin], leftmost match, first group:
    [window.location] or [window.location.href] followed by the tail
    above. *)
Fixpoint match_js_redirect (s : string) : option string :=
  match s with
  | "" => None
  | String _ rest =>
      match strip_prefix "window.location" s with
      | Some tail =>
          match assignment_target tail with
          | Some target => Some target
          | None =>
              match strip_prefix ".href" tail with
              | Some tail' =>
                  match assignment_target tail' with
                  | Some target => Some target
                  | None => match_js_redirect rest
                  end
              | None => match_js_redirect rest
              end
          end
      | None => match_js_redirect rest
      end
  end.

(** ** The token cache *)

(** [loadCachedToken]: the stored token, [None] when the file is missing
    or its content cannot be parsed. *)
Definition loadCachedToken : M (option CachedToken) :=
  fun w =>
    match cache_file w with
    | Stored token => (Ok (Some token), w)
    | Absent | Corrupt => (Ok None, w)
    end.

(** [cacheToken] *)
Definition cacheToken (tokenResponse : TokenResponse) : M unit :=
  t <- Date_now ;;
  let cached :=
    {| access_token := tr_access_token tokenResponse;
       expires_in := tr_expires_in tokenResponse;
       token_type := tr_token_type tokenResponse;
       scope := tr_scope tokenResponse;
       expiresAt :=
         match tr_expires_in tokenResponse with
         | Some seconds => Some (t + (seconds - 30) * 1000)
         | None => None
         end |} in
  writeTokenFile cached.

(** ** The login form resolver *)

(** [$('form input[name="..."]').length] *)
Definition count_inputs_named (doc : Document) (name : string) : nat :=
  List.length
    (filter
       (fun i =>
          match input_name i with
          | Some n => String.eqb n name
          | None => false
          end)
       (flat_map form_inputs (forms doc))).

(** The request each iteration of [followRedirects] issues. *)
Definition page_request (currentUrl : string) : Request :=
  {| req_client := Session; req_method := GET; req_url := currentUrl;
     req_headers := BROWSER_HEADERS; req_body := None;
     req_redirect := Manual |}.

(** The loop of [followRedirects]; [remaining] counts the iterations the
    [for] statement still allows, [5 - i]. *)
Fixpoint followRedirects_loop (P : Platform) (remaining : nat)
  (currentUrl : string) : M (string * string) :=
  match remaining with
  | O => throw (Error "Too many redirects while getting login form")
  | S remaining' =>
      res <- fetch (page_request currentUrl) ;;
      if (status res =? 302) || (status res =? 303) then
        match Js.truthy (location res) with
        | None => throw (Error "Redirect without location header")
        | Some loc =>
            match URL_new P loc currentUrl with
            | None => throw InvalidURL
            | Some next => followRedirects_loop P remaining' (href next)
            end
        end
      else
        let doc := cheerio_load P (body res) in
        if (count_inputs_named doc "username" =? 0)%nat
           || (count_inputs_named doc "password" =? 0)%nat
        then throw (Error "Login form not found")
        else ret (body res, currentUrl)
  end.

(** [followRedirects(fetchFn, url)], with [fetchFn] the session client;
    the result is [(html, formAction)]. *)
Definition followRedirects (P : Platform) (url : string)
  : M (string * string) :=
  followRedirects_loop P 5 url.

(** ** The login submitter *)

(** [$(el).attr("value") || ""] *)
Definition field_value (el : Input) : string :=
  match Js.truthy (input_value el) with
  | Some v => v
  | None => ""
  end.

(** One turn of the [each] loop of [submitLogin]. *)
Definition collectField (submitData : Js.obj string) (el : Input)
  : Js.obj string :=
  match Js.truthy (input_name el) with
  | Some name => Js.assign submitData name (field_value el)
  | None => submitData
  end.

(** The [each] loop of [submitLogin] over [$("form input")]. *)
Definition collectFields (inputs : list Input) : Js.obj string :=
  fold_left collectField inputs [].

(** [submitData] as it is posted. *)
Definition submitData_of (config : TripItConfig) (doc : Document)
  : Js.obj string :=
  Js.assign
    (Js.assign (collectFields (flat_map form_inputs (forms doc)))
       "username" (username config))
    "password" (password config).

(** [$("form").attr("action")]: the attribute of the first form. *)
Definition first_form_action (doc : Document) : option string :=
  match forms doc with
  | [] => None
  | f :: _ => form_action f
  end.

(** The part of [submitLogin] that reads a 200 answer. *)
Definition redirect_in_page (doc : Document) : M string :=
  let errorMsg :=
    if String.eqb (error_message_text doc) "" then alert_error_text doc
    else error_message_text doc in
  if negb (String.eqb errorMsg "") then
    throw (Error ("Login failed: " ++ errorMsg))
  else
    match
      match Js.truthy (meta_refresh_content doc) with
      | Some meta => match_meta_url meta
      | None => None
      end
    with
    | Some target => ret target
    | None =>
        match match_js_redirect (script_text doc) with
        | Some target => ret target
        | None =>
            throw (Error "Could not find redirect URL in login response")
        end
    end.

(** The request [submitLogin] posts. *)
Definition login_request (finalUrl formAction : string)
  (submitData : Js.obj string) : Request :=
  {| req_client := Session; req_method := POST; req_url := finalUrl;
     req_headers :=
       Js.spread BROWSER_HEADERS
         [ ("Content-Type", "application/x-www-form-urlencoded");
           ("Sec-Fetch-Site", "same-origin");
           ("Sec-Fetch-User", "?1");
           ("Origin", BASE_URL);
           ("Referer", formAction) ];
     req_body := Some (urlencoded submitData);
     req_redirect := Manual |}.

(** [submitLogin(fetchFn, config, formHtml, formAction)] *)
Definition submitLogin (P : Platform) (config : TripItConfig)
  (formHtml formAction : string) : M string :=
  let doc := cheerio_load P formHtml in
  let submitData := submitData_of config doc in
  match Js.truthy (first_form_action doc) with
  | None => throw (Error "No form action URL found")
  | Some formActionUrl =>
      match URL_new P formActionUrl formAction with
      | None => throw InvalidURL
      | Some finalUrl =>
          res <- fetch (login_request (href finalUrl) formAction
                          submitData) ;;
          if status res =? 403 then throw (Error "Login failed (403)")
          else if (status res =? 302) || (status res =? 303) then
            match Js.truthy (location res) with
            | None => throw (Error "No redirect location after login")
            | Some loc => ret loc
            end
          else if status res =? 200 then
            redirect_in_page (cheerio_load P (body res))
          else
            throw (Error ("Unexpected login response status: "
                          ++ decimal (status res)))
      end
  end.

(** ** The token exchanger *)

(** [res.ok] *)
Definition ok (res : Response) : bool :=
  (200 <=? status res) && (status res <=? 299).

(** The request [exchangeCodeForToken] posts. *)
Definition token_request (config : TripItConfig)
  (code codeVerifier : string) : Request :=
  let params :=
    [ ("grant_type", "authorization_code");
      ("code", code);
      ("redirect_uri", REDIRECT_URI);
      ("client_id", clientId config);
      ("code_verifier", codeVerifier) ] in
  {| req_client := Direct; req_method := POST;
     req_url := API_BASE_URL ++ "/oauth2/token";
     req_headers := [("Content-Type", "application/x-www-form-urlencoded")];
     req_body := Some (urlencoded params);
     req_redirect := Follow |}.

(** [exchangeCodeForToken(config, code, codeVerifier)] *)
Definition exchangeCodeForToken (P : Platform) (config : TripItConfig)
  (code codeVerifier : string) : M TokenResponse :=
  res <- fetch (token_request config code codeVerifier) ;;
  if negb (ok res) then
    throw (Error ("Token exchange failed (" ++ decimal (status res)
                  ++ "): " ++ body res))
  else
    match JSON_parse P (body res) with
    | Some tokenResponse => ret tokenResponse
    | None => throw JsonError
    end.

(** ** The orchestrator *)

(** The code challenge expression of [authenticate] (lines 2315-2322). *)
Definition codeChallenge_of (codeVerifier : string) : string :=
  strip_trailing "="
    (replace_all "/" "_"
       (replace_all "+" "-" (base64 (Sha256.sha256 codeVerifier)))).

(** The authorize URL of [authenticate] (lines 2325-2335). *)
Definition authUrl_of (config : TripItConfig) (state codeChallenge : string)
  : string :=
  BASE_URL ++ "/auth/oauth2/authorize?"
  ++ "client_id=" ++ encodeURIComponent (clientId config)
  ++ "&response_type=code"
  ++ "&redirect_uri=" ++ encodeURIComponent REDIRECT_URI
  ++ "&scope=" ++ encodeURIComponent SCOPES
  ++ "&state=" ++ encodeURIComponent state
  ++ "&code_challenge=" ++ encodeURIComponent codeChallenge
  ++ "&code_challenge_method=S256"
  ++ "&response_mode=query"
  ++ "&action=sign_in".

(** The request that opens the session. *)
Definition home_request : Request :=
  {| req_client := Session; req_method := GET;
     req_url := BASE_URL ++ "/home";
     req_headers := BROWSER_HEADERS;
     req_body := None; req_redirect := Follow |}.

(** What the first half of the full flow hands to the second. *)
Record Pending : Type := {
  codeVerifier : string;
  state : string;
  redirectUrl : string
}.

(** [authenticate], lines 2306-2346: the session is opened, the PKCE
    material drawn, the login form found and submitted. *)
Definition authenticate_login (P : Platform) (config : TripItConfig)
  : M Pending :=
  fetch home_request ;;;
  verifierBytes <- randomBytes 32 ;;
  let codeVerifier := hex verifierBytes in
  let codeChallenge := codeChallenge_of codeVerifier in
  stateBytes <- randomBytes 16 ;;
  let state := hex stateBytes in
  let authUrl := authUrl_of config state codeChallenge in
  form <- followRedirects P authUrl ;;
  redirectUrl <- submitLogin P config (fst form) (snd form) ;;
  ret {| codeVerifier := codeVerifier; state := state;
         redirectUrl := redirectUrl |}.

(** [authenticate], lines 2348-2368: the returned state is checked, the
    code extracted and exchanged, the token cached. *)
Definition authenticate_redeem (P : Platform) (config : TripItConfig)
  (p : Pending) : M (option string) :=
  match URL_new P (redirectUrl p) "http://localhost" with
  | None => throw InvalidURL
  | Some parsedUrl =>
      let returnedState :=
        searchParams_get (searchParams parsedUrl) "state" in
      if negb
           (match returnedState with
            | Some s => String.eqb s (state p)
            | None => false
            end)
      then throw (Error "OAuth state mismatch")
      else
        match Js.truthy (searchParams_get (searchParams parsedUrl) "code")
        with
        | None => throw (Error "Authorization code not found in redirect")
        | Some code =>
            tokenResponse <-
              exchangeCodeForToken P config code (codeVerifier p) ;;
            match Js.truthy (tr_access_token tokenResponse) with
            | None => throw (Error "No access_token in response")
            | Some _ =>
                cacheToken tokenResponse ;;;
                ret (tr_access_token tokenResponse)
            end
        end
  end.

(** The full flow: both halves in sequence. *)
Definition full_flow (P : Platform) (config : TripItConfig)
  : M (option string) :=
  p <- authenticate_login P config ;;
  authenticate_redeem P config p.

(** [cached && cached.expiresAt > Date.now()] *)
Definition still_valid (cached : option CachedToken) : M bool :=
  match cached with
  | None => ret false
  | Some token =>
      t <- Date_now ;;
      ret (match expiresAt token with
           | Some e => e >? t
           | None => false
           end)
  end.

(** [authenticate(config)] *)
Definition authenticate (P : Platform) (config : TripItConfig)
  : M (option string) :=
  cached <- loadCachedToken ;;
  valid <- still_valid cached ;;
  match cached, valid with
  | Some token, true => ret (access_token token)
  | _, _ => full_flow P config
  end.

End Auth.

(* ================================================================== *)
(** * Sample pages, answers and a table-driven platform

    Concrete data on which the statements below are exercised.  The
    platform answers from tables: one entry per text that the samples
    use, each giving what the library returns for that text. *)
(* ================================================================== *)

Module Sample.

Import Auth.

Definition config : TripItConfig :=
  {| clientId := "client-1"; clientSecret := "unused";
     username := "user1"; password := "pass1" |}.

(** A login page whose form carries a hidden field. *)
Definition login_html : string :=
  "<form action='https://www.tripit.com/account/login'>"
  ++ "<input type='hidden' name='csrf_token' value='abc123'>"
  ++ "<input name='username' value=''>"
  ++ "<input type='password' name='password' value=''></form>".

Definition login_doc : Document :=
  {| forms :=
       [ {| form_action := Some "https://www.tripit.com/account/login";
            form_inputs :=
              [ {| input_name := Some "csrf_token";
                   input_value := Some "abc123" |};
                {| input_name := Some "username"; input_value := Some "" |};
                {| input_name := Some "password"; input_value := Some "" |} ]
         |} ];
     error_message_text := ""; alert_error_text := "";
     meta_refresh_content := None; script_text := "" |}.

(** The same form without an [action] attribute. *)
Definition bare_html : string :=
  "<form><input name='username'><input name='password'></form>".

Definition bare_doc : Document :=
  {| forms :=
       [ {| form_action := None;
            form_inputs :=
              [ {| input_name := Some "username"; input_value := None |};
                {| input_name := Some "password"; input_value := None |} ]
         |} ];
     error_message_text := ""; alert_error_text := "";
     meta_refresh_content := None; script_text := "" |}.

Definition empty_doc : Document :=
  {| forms := []; error_message_text := ""; alert_error_text := "";
     meta_refresh_content := None; script_text := "" |}.

Definition sample_cheerio (html : string) : Document :=
  if String.eqb html login_html then login_doc
  else if String.eqb html bare_html then bare_doc
  else empty_doc.

(** The 16 state bytes drawn from an all-zero random source, in hex. *)
Definition zero_state : string := "00000000000000000000000000000000".

(** Absolute URLs: the result does not depend on the base. *)
Definition sample_urls : list (string * list (string * string)) :=
  [ ("https://www.tripit.com/account/login", []);
    ("https://www.tripit.com/a", []);
    ("https://www.tripit.com/b", []);
    ("https://www.tripit.com/c", []);
    ("https://www.tripit.com/d", []);
    ("https://www.tripit.com/e", []);
    ("com.tripit://completeAuthorize?code=XYZ&state=" ++ zero_state,
     [("code", "XYZ"); ("state", zero_state)]);
    ("com.tripit://completeAuthorize?code=XYZ&state=S1",
     [("code", "XYZ"); ("state", "S1")]);
    ("com.tripit://completeAuthorize?code=XYZ", [("code", "XYZ")]);
    ("com.tripit://completeAuthorize?code=XYZ&state="
       ++ "ABABABABABABABABABABABABABABABAB",
     [("code", "XYZ"); ("state", "ABABABABABABABABABABABABABABABAB")]) ].

Definition sample_URL (input base : string) : option URL :=
  match Js.get sample_urls input with
  | Some query => Some {| href := input; searchParams := query |}
  | None => None
  end.

Definition quoted (s : string) : string :=
  String double_quote (s ++ String double_quote "").

(** A successful token answer and an OAuth error answer. *)
Definition token_json : string :=
  "{" ++ quoted "access_token" ++ ":" ++ quoted "tok-1" ++ ","
  ++ quoted "expires_in" ++ ":3600,"
  ++ quoted "token_type" ++ ":" ++ quoted "Bearer" ++ ","
  ++ quoted "scope" ++ ":" ++ quoted "offline_access email" ++ "}".

Definition token_value : TokenResponse :=
  {| tr_access_token := Some "tok-1"; tr_expires_in := Some 3600;
     tr_token_type := Some "Bearer";
     tr_scope := Some "offline_access email" |}.

Definition invalid_grant_json : string :=
  "{" ++ quoted "error" ++ ":" ++ quoted "invalid_grant" ++ "}".

Definition invalid_grant_value : TokenResponse :=
  {| tr_access_token := None; tr_expires_in := None;
     tr_token_type := None; tr_scope := None |}.

Definition sample_JSON (text : string) : option TokenResponse :=
  if String.eqb text token_json then Some token_value
  else if String.eqb text invalid_grant_json then Some invalid_grant_value
  else None.

Definition platform : Platform :=
  {| cheerio_load := sample_cheerio;
     URL_new := sample_URL;
     JSON_parse := sample_JSON |}.

Definition answer (code : Z) (loc : option string) (text : string)
  : Response :=
  {| status := code; location := loc; body := text; elapsed := 100 |}.

(** A machine with no cache file, a writable disk, an all-zero random
    source and the given answers queued. *)
Definition world_with (file : CacheFile) (answers : list Response) : World :=
  {| cache_file := file; disk_writable := true; now := 1700000000000;
     inbox := answers; sent := [];
     entropy := fun _ => Byte.x00; drawn := 0 |}.

(** Home page, one redirect to the login page, the login page, then the
    answer to the posted form and the token endpoint's answer. *)
Definition login_answers (after_post : Response) (token : Response)
  : list Response :=
  [ answer 200 None "<html>home</html>";
    answer 302 (Some "https://www.tripit.com/account/login") "";
    answer 200 None login_html;
    after_post;
    token ].

Definition callback (st : string) : Response :=
  answer 302 (Some ("com.tripit://completeAuthorize?code=XYZ&state=" ++ st))
    "".

(** A page that has moved permanently, and the login page behind it. *)
Definition moved_world : World :=
  world_with Absent
    [ answer 301 (Some "https://www.tripit.com/account/login") "";
      answer 200 None login_html ].

(** Five redirects in a row, then the login page. *)
Definition looping_world : World :=
  world_with Absent
    [ answer 302 (Some "https://www.tripit.com/b") "";
      answer 303 (Some "https://www.tripit.com/c") "";
      answer 302 (Some "https://www.tripit.com/d") "";
      answer 302 (Some "https://www.tripit.com/e") "";
      answer 303 (Some "https://www.tripit.com/account/login") "";
      answer 200 None login_html ].

(** The server ready to accept a posted form. *)
Definition posting_world : World :=
  world_with Absent [ callback zero_state ].

Definition stored_token (expiry : Z) : CachedToken :=
  {| access_token := Some "tok-0"; expires_in := Some 3600;
     token_type := Some "Bearer"; scope := Some "offline_access email";
     expiresAt := Some expiry |}.

(** A login whose final redirect carries another state than the one
    generated, and the world the login step leaves behind. *)
Definition mismatch_world : World :=
  world_with Absent
    (login_answers (callback "S1") (answer 200 None token_json)).

Definition mismatch_pending : Pending :=
  {| codeVerifier :=
       "0000000000000000000000000000000000000000000000000000000000000000";
     state := zero_state;
     redirectUrl := "com.tripit://completeAuthorize?code=XYZ&state=S1" |}.

Definition mismatch_after : World :=
  Eval vm_compute in
    snd (authenticate_login platform config mismatch_world).

Definition mismatch_parsed : URL :=
  {| href := "com.tripit://completeAuthorize?code=XYZ&state=S1";
     searchParams := [("code", "XYZ"); ("state", "S1")] |}.

(** The same login when the redirect carries no state at all. *)
Definition stateless_world : World :=
  world_with Absent
    (login_answers
       (answer 302 (Some "com.tripit://completeAuthorize?code=XYZ") "")
       (answer 200 None token_json)).

Definition stateless_pending : Pending :=
  {| codeVerifier := codeVerifier mismatch_pending;
     state := zero_state;
     redirectUrl := "com.tripit://completeAuthorize?code=XYZ" |}.

Definition stateless_after : World :=
  Eval vm_compute in
    snd (authenticate_login platform config stateless_world).

Definition stateless_parsed : URL :=
  {| href := "com.tripit://completeAuthorize?code=XYZ";
     searchParams := [("code", "XYZ")] |}.

(** A redirect that returns the generated state in another letter case:
    the random source yields the byte [ab] throughout. *)
Definition upper_state : string := "ABABABABABABABABABABABABABABABAB".
Definition lower_state : string := "abababababababababababababababab".

Definition shouting_world : World :=
  {| cache_file := Absent; disk_writable := true; now := 1700000000000;
     inbox := login_answers (callback upper_state)
                (answer 200 None token_json);
     sent := [];
     entropy := fun _ => Byte.xab; drawn := 0 |}.

Definition shouting_pending : Pending :=
  {| codeVerifier := lower_state ++ lower_state;
     state := lower_state;
     redirectUrl :=
       "com.tripit://completeAuthorize?code=XYZ&state=" ++ upper_state |}.

Definition shouting_after : World :=
  Eval vm_compute in
    snd (authenticate_login platform config shouting_world).

Definition shouting_parsed : URL :=
  {| href := "com.tripit://completeAuthorize?code=XYZ&state=" ++ upper_state;
     searchParams := [("code", "XYZ"); ("state", upper_state)] |}.

(** A login whose redirect is in order, about to exchange the code. *)
Definition good_pending : Pending :=
  {| codeVerifier :=
       "0000000000000000000000000000000000000000000000000000000000000000";
     state := zero_state;
     redirectUrl :=
       "com.tripit://completeAuthorize?code=XYZ&state=" ++ zero_state |}.

Definition good_parsed : URL :=
  {| href := "com.tripit://completeAuthorize?code=XYZ&state=" ++ zero_state;
     searchParams := [("code", "XYZ"); ("state", zero_state)] |}.

(** The token endpoint about to refuse, and about to answer 200 with an
    error object. *)
Definition refusing_world : World :=
  world_with Absent [ answer 400 None invalid_grant_json ].

Definition evasive_world : World :=
  world_with Absent [ answer 200 None invalid_grant_json ].

(** A whole login with a stale token in the cache. *)
Definition stale_world : World :=
  world_with (Stored (stored_token 1700000000000))
    (login_answers (callback zero_state) (answer 200 None token_json)).

Definition fresh_world : World :=
  world_with (Stored (stored_token 1700000000001)) [].

Definition first_world : World :=
  world_with Absent
    (login_answers (callback zero_state) (answer 200 None token_json)).

(** A login page whose form has one more hidden field, named
    [__proto__]. *)
Definition crafted_html : string :=
  "<form action='https://www.tripit.com/account/login'>"
  ++ "<input type='hidden' name='csrf_token' value='abc123'>"
  ++ "<input type='hidden' name='__proto__' value='x1'>"
  ++ "<input name='username' value=''>"
  ++ "<input type='password' name='password' value=''></form>".

Definition crafted_doc : Document :=
  {| forms :=
       [ {| form_action := Some "https://www.tripit.com/account/login";
            form_inputs :=
              [ {| input_name := Some "csrf_token";
                   input_value := Some "abc123" |};
                {| input_name := Some "__proto__";
                   input_value := Some "x1" |};
                {| input_name := Some "username"; input_value := Some "" |};
                {| input_name := Some "password"; input_value := Some "" |} ]
         |} ];
     error_message_text := ""; alert_error_text := "";
     meta_refresh_content := None; script_text := "" |}.

Definition crafted_platform : Platform :=
  {| cheerio_load :=
       fun html =>
         if String.eqb html crafted_html then crafted_doc
         else sample_cheerio html;
     URL_new := sample_URL;
     JSON_parse := sample_JSON |}.

(** Five redirects in a row of the kinds the resolver does not follow
    (301, 307, 308), each to a new location, then the login page. *)
Definition relocated_world : World :=
  world_with Absent
    [ answer 301 (Some "https://www.tripit.com/b") "";
      answer 307 (Some "https://www.tripit.com/c") "";
      answer 308 (Some "https://www.tripit.com/d") "";
      answer 301 (Some "https://www.tripit.com/e") "";
      answer 307 (Some "https://www.tripit.com/account/login") "";
      answer 200 None login_html ].

End Sample.

(* ================================================================== *)
(** * JavaScript operators on payload values *)
(* ================================================================== *)

Module Values.

Import Utils.

(** Truthiness of a value: what [if (v)], [!v], [a || b] test. *)
Definition truthy (v : value) : bool :=
  match v with
  | VUndefined | VNull => false
  | VBool b => b
  | VNum n => negb (n =? 0)
  | VStr s => negb (String.eqb s "")
  | VArr _ | VObj _ => true
  end.

(** [a || b] *)
Definition or_else (a b : value) : value := if truthy a then a else b.

(** [a ?? b] *)
Definition coalesce (a b : value) : value := if present a then a else b.

(** [v.name] on a value that is not null or undefined, and [v?.name] on
    any value: the member of an object, [undefined] otherwise (the names
    read in this program are not built-in properties of strings, numbers
    or arrays). *)
Definition member (v : value) (name : string) : value :=
  match v with
  | VObj fields =>
      match Js.get fields name with
      | Some x => x
      | None => VUndefined
      end
  | _ => VUndefined
  end.

(** An optional string parameter as a value. *)
Definition of_string (s : option string) : value :=
  match s with
  | Some text => VStr text
  | None => VUndefined
  end.

(** An optional boolean parameter as a value. *)
Definition of_bool (b : option bool) : value :=
  match b with
  | Some flag => VBool flag
  | None => VUndefined
  end.

(** [s.includes(needle)] on strings. *)
Fixpoint includes (needle s : string) : bool :=
  match Auth.strip_prefix needle s with
  | Some _ => true
  | None =>
      match s with
      | "" => false
      | String _ rest => includes needle rest
      end
  end.

(** [`${v}`]: the text of a value in a template. *)
Fixpoint to_text (v : value) : string :=
  match v with
  | VUndefined => "undefined"
  | VNull => "null"
  | VBool b => if b then "true" else "false"
  | VNum n => Codec.decimal n
  | VStr s => s
  | VArr items =>
      String.concat ","
        (map (fun x => if present x then to_text x else "") items)
  | VObj _ => "[object Object]"
  end.

(** [s.replace(needle, replacement)] with a text pattern: the first
    occurrence is replaced (the replacement holds no [$] pattern). *)
Fixpoint replace_first (needle replacement s : string) : string :=
  match Auth.strip_prefix needle s with
  | Some rest => replacement ++ rest
  | None =>
      match s with
      | "" => ""
      | String c rest => String c (replace_first needle replacement rest)
      end
  end.

(** One character of a JSON string literal. *)
Definition json_escape (c : ascii) : string :=
  let n := Auth.code c in
  if n =? 34 then String "\" (String Auth.double_quote "")
  else if n =? 92 then "\\"
  else if n =? 8 then "\b"
  else if n =? 9 then "\t"
  else if n =? 10 then "\n"
  else if n =? 12 then "\f"
  else if n =? 13 then "\r"
  else if n <? 32 then
    "\u00"
    ++ String (Codec.digit_of Codec.hex_alphabet (Z.shiftr n 4))
         (String (Codec.digit_of Codec.hex_alphabet (Z.land n 15)) "")
  else String c "".

Fixpoint json_escape_all (s : string) : string :=
  match s with
  | "" => ""
  | String c rest => json_escape c ++ json_escape_all rest
  end.

Definition json_quote (s : string) : string :=
  String Auth.double_quote
    (json_escape_all s ++ String Auth.double_quote "").

(** [JSON.stringify(v)], [None] when the result is [undefined]: a member
    whose value has no JSON text is left out of an object and written
    [null] in an array. *)
Fixpoint stringify (v : value) : option string :=
  match v with
  | VUndefined => None
  | VNull => Some "null"
  | VBool b => Some (if b then "true" else "false")
  | VNum n => Some (Codec.decimal n)
  | VStr s => Some (json_quote s)
  | VArr items =>
      Some ("["
            ++ String.concat ","
                 (map (fun x =>
                         match stringify x with
                         | Some text => text
                         | None => "null"
                         end) items)
            ++ "]")
  | VObj fields =>
      Some ("{"
            ++ String.concat ","
                 (flat_map
                    (fun kv =>
                       match stringify (snd kv) with
                       | Some text => [json_quote (fst kv) ++ ":" ++ text]
                       | None => []
                       end) fields)
            ++ "}")
  end.

(** [delete obj[name]] *)
Fixpoint remove {V} (o : Js.obj V) (name : string) : Js.obj V :=
  match o with
  | [] => []
  | (k, v) :: rest =>
      if String.eqb k name then remove rest name
      else (k, v) :: remove rest name
  end.

End Values.

(* ================================================================== *)
(** * [src/utils.ts]: the remaining helpers *)
(* ================================================================== *)

Module Helpers.

Import Utils.
Import Values.

(** The number of [":"] in a text: [time.split(":").length - 1]. *)
Fixpoint colons (s : string) : nat :=
  match s with
  | "" => O
  | String c rest =>
      if Ascii.eqb c ":" then S (colons rest) else colons rest
  end.

(** [normalizeTime(time)], [None] for [undefined]. *)
Definition normalizeTime (time : string) : option string :=
  if String.eqb time "" then None
  else if (colons time + 1 =? 2)%nat then Some (time ++ ":00")
  else Some time.

(** [normalizeArray(node)] *)
Definition normalizeArray (node : value) : list value :=
  if negb (truthy node) then []
  else
    match node with
    | VArr items => items
    | other => [other]
    end.

(** [toBoolean(value)] *)
Definition toBoolean (v : value) : value :=
  match v with
  | VUndefined | VNull => VUndefined
  | VBool b => VBool b
  | VStr s => VBool (String.eqb s "true")
  | other => VBool (truthy other)
  end.

End Helpers.

(* ================================================================== *)
(** * [src/tripit.ts]: the API client (trips and hotels) *)
(* ================================================================== *)

Module Client.

Import Utils.
Import Values.
Import Helpers.
Import Auth.

(** ** Failures and effects of the client *)

(** What an operation may end with besides its result: an exception of
    the kinds of [src/auth.ts] ([JsonError] is the [SyntaxError] of
    [JSON.parse] here), or the [TypeError] of reading a member of [null]
    or calling a method a value does not have. *)
Inductive failure : Type :=
| Raised (e : exn)
| TypeError.

Inductive Outcome (A : Type) : Type :=
| Returned (a : A)
| Failed (f : failure).

Arguments Returned {A} a.
Arguments Failed {A} f.

Definition Op (A : Type) : Type := World -> Outcome A * World.

Definition done {A} (a : A) : Op A := fun w => (Returned a, w).

Definition fail {A} (f : failure) : Op A := fun w => (Failed f, w).

Definition raise {A} (message : string) : Op A :=
  fail (Raised (Error message)).

Definition andThen {A B} (c : Op A) (k : A -> Op B) : Op B :=
  fun w =>
    match c w with
    | (Returned a, w') => k a w'
    | (Failed f, w') => (Failed f, w')
    end.

(** A computation of [src/auth.ts] run by the client. *)
Definition lift {A} (c : M A) : Op A :=
  fun w =>
    match c w with
    | (Ok a, w') => (Returned a, w')
    | (Threw e, w') => (Failed (Raised e), w')
    end.

Notation "x <~ c ;; k" := (andThen c (fun x => k))
  (at level 61, c at next level, right associativity).

(** [JSON.parse(text)] of an API answer, [None] when it throws. *)
Record Runtime : Type := {
  JSON_parse_value : string -> option value
}.

(** ** The client object *)

Record TripIt : Type := {
  config : TripItConfig;
  accessToken : option string
}.

(** [new TripIt(config)] *)
Definition new_client (cfg : TripItConfig) : TripIt :=
  {| config := cfg; accessToken := None |}.

(** [client.authenticate()]: the token and the client holding it. *)
Definition client_authenticate (P : Platform) (c : TripIt)
  : Op (option string * TripIt) :=
  token <~ lift (authenticate P (config c)) ;;
  done (token, {| config := config c; accessToken := token |}).

(** [getAccessToken()] *)
Definition getAccessToken (c : TripIt) : Op string :=
  match Js.truthy (accessToken c) with
  | None => raise "Not authenticated. Call authenticate() first."
  | Some token => done token
  end.

(** [endpoint(version, path)] *)
Definition endpoint (version path : string) : string :=
  "https://api.tripit.com/" ++ version ++ "/" ++ path ++ "/format/json".

(** [identifierEndpoint(action, resource, id)] *)
Definition identifierEndpoint (action resource id : string) : string :=
  if includes "-" id
  then endpoint "v2" (action ++ "/" ++ resource ++ "/uuid/" ++ id)
  else endpoint "v1" (action ++ "/" ++ resource ++ "/id/" ++ id).

(** The request of [apiGet]. *)
Definition get_request (token path : string) : Request :=
  {| req_client := Direct; req_method := GET; req_url := path;
     req_headers := [("Authorization", "Bearer " ++ token)];
     req_body := None; req_redirect := Follow |}.

(** What [apiGet] and [apiPost] make of an answer. *)
Definition read_answer (R : Runtime) (res : Response) : Op value :=
  if negb (ok res) then
    raise ("API error (" ++ Codec.decimal (status res) ++ "): " ++ body res)
  else
    match JSON_parse_value R (body res) with
    | Some data => done data
    | None => fail (Raised JsonError)
    end.

(** [apiGet(path)] *)
Definition apiGet (R : Runtime) (c : TripIt) (path : string) : Op value :=
  token <~ getAccessToken c ;;
  res <~ lift (fetch (get_request token path)) ;;
  read_answer R res.

(** The text [URLSearchParams] is given for the [json] field. *)
Definition json_text (payload : value) : string :=
  match stringify payload with
  | Some text => text
  | None => "undefined"
  end.

(** The request of [apiPost]. *)
Definition post_request (token path : string) (payload : value) : Request :=
  {| req_client := Direct; req_method := POST; req_url := path;
     req_headers :=
       [ ("Authorization", "Bearer " ++ token);
         ("Content-Type", "application/x-www-form-urlencoded") ];
     req_body := Some (Codec.urlencoded [("json", json_text payload)]);
     req_redirect := Follow |}.

(** [apiPost(path, payload)] *)
Definition apiPost (R : Runtime) (c : TripIt) (path : string)
  (payload : value) : Op value :=
  token <~ getAccessToken c ;;
  res <~ lift (fetch (post_request token path payload)) ;;
  read_answer R res.

(** [response.Member] where [response] came from [apiGet]: reading a
    member of [null] throws. *)
Definition read_member (response : value) (name : string) : Op value :=
  match response with
  | VNull | VUndefined => fail TypeError
  | other => done (member other name)
  end.

(** ** Trips *)

(** [listTrips(pageSize, pageNum, past)] *)
Definition listTrips (R : Runtime) (c : TripIt) (pageSize pageNum : Z)
  (past : bool) : Op value :=
  let past_ := if past then "&past=true" else "" in
  apiGet R c
    ("https://api.tripit.com/v2/list/trip?format=json&page_size="
     ++ Codec.decimal pageSize ++ "&page_num=" ++ Codec.decimal pageNum
     ++ past_).

(** The URL [getTrip] asks. *)
Definition getTrip_url (id : string) : string :=
  replace_first "/format/json" "/include_objects/true/format/json"
    (identifierEndpoint "get" "trip" id).

(** [if (data.Profile) delete data.Profile] *)
Definition drop_profile (data : value) : value :=
  if truthy (member data "Profile") then
    match data with
    | VObj fields => VObj (remove fields "Profile")
    | other => other
    end
  else data.

(** [getTrip(id)] *)
Definition getTrip (R : Runtime) (c : TripIt) (id : string) : Op value :=
  data <~ apiGet R c (getTrip_url id) ;;
  profile <~ read_member data "Profile" ;;
  done (drop_profile data).

Record CreateTripParams : Type := {
  ct_displayName : string;
  ct_startDate : string;
  ct_endDate : string;
  ct_primaryLocation : option string
}.

(** The body of [createTrip]. *)
Definition createTrip_payload (params : CreateTripParams) : value :=
  VObj
    [ ("Trip",
       clean
         (VObj
            [ ("display_name", VStr (ct_displayName params));
              ("start_date", VStr (ct_startDate params));
              ("end_date", VStr (ct_endDate params));
              ("primary_location",
               of_string (ct_primaryLocation params)) ])) ].

(** [createTrip(params)] *)
Definition createTrip (R : Runtime) (c : TripIt) (params : CreateTripParams)
  : Op value :=
  apiPost R c (endpoint "v2" "create/trip") (createTrip_payload params).

Record UpdateTripParams : Type := {
  ut_id : option string;
  ut_uuid : option string;
  ut_displayName : option string;
  ut_startDate : option string;
  ut_endDate : option string;
  ut_primaryLocation : option string;
  ut_description : option string;
  ut_isPrivate : option bool;
  ut_isExpensible : option bool;
  ut_tripPurpose : option string
}.

(** [params.uuid || params.id]: the first when it is a non-empty text,
    the second otherwise. *)
Definition identifier_of (uuid id : option string) : option string :=
  match Js.truthy uuid with
  | Some u => Some u
  | None => id
  end.

(** [tripData] of [updateTrip] (lines 167-191), from the parameters and
    the trip on record. *)
Definition tripData_of (params : UpdateTripParams) (existingTrip : value)
  : Js.obj value :=
  let tripData :=
    [ ("primary_location",
       coalesce (of_string (ut_primaryLocation params))
         (member existingTrip "primary_location"));
      ("is_private",
       match ut_isPrivate params with
       | Some flag => VBool flag
       | None => toBoolean (member existingTrip "is_private")
       end);
      ("start_date",
       coalesce (of_string (ut_startDate params))
         (member existingTrip "start_date"));
      ("display_name",
       coalesce (of_string (ut_displayName params))
         (member existingTrip "display_name"));
      ("is_expensible",
       match ut_isExpensible params with
       | Some flag => VBool flag
       | None => toBoolean (member existingTrip "is_expensible")
       end);
      ("end_date",
       coalesce (of_string (ut_endDate params))
         (member existingTrip "end_date")) ] in
  let purposeTypeCode :=
    coalesce (of_string (ut_tripPurpose params))
      (member (member existingTrip "TripPurposes") "purpose_type_code") in
  let tripData :=
    if truthy purposeTypeCode
    then Js.set tripData "TripPurposes"
           (VObj [("purpose_type_code", purposeTypeCode)])
    else tripData in
  let description :=
    coalesce (of_string (ut_description params))
      (member existingTrip "description") in
  if truthy description then Js.set tripData "description" description
  else tripData.

(** [updateTrip(params)] *)
Definition updateTrip (R : Runtime) (c : TripIt) (params : UpdateTripParams)
  : Op value :=
  match Js.truthy
          (identifier_of (ut_uuid params) (ut_id params)) with
  | None => raise "Either uuid or id parameter is required"
  | Some identifier =>
      existingTripResponse <~
        apiGet R c (identifierEndpoint "get" "trip" identifier) ;;
      existingTrip <~ read_member existingTripResponse "Trip" ;;
      if negb (truthy (member existingTrip "uuid")) then
        raise ("Trip with identifier " ++ identifier ++ " not found")
      else
        apiPost R c
          (endpoint "v2"
             ("replace/trip/uuid/"
              ++ to_text (member existingTrip "uuid")))
          (VObj (updateTrip_payload (tripData_of params existingTrip)))
  end.

(** [deleteTrip(id)] *)
Definition deleteTrip (R : Runtime) (c : TripIt) (id : string) : Op value :=
  apiGet R c (identifierEndpoint "delete" "trip" id).

(** ** Hotels *)

(** [getHotel(id)] *)
Definition getHotel (R : Runtime) (c : TripIt) (id : string) : Op value :=
  apiGet R c (identifierEndpoint "get" "lodging" id).

(** [deleteHotel(id)] *)
Definition deleteHotel (R : Runtime) (c : TripIt) (id : string) : Op value :=
  apiGet R c (identifierEndpoint "delete" "lodging" id).

Record CreateHotelParams : Type := {
  ch_tripId : string;
  ch_hotelName : string;
  ch_checkInDate : string;
  ch_checkInTime : string;
  ch_checkOutDate : string;
  ch_checkOutTime : string;
  ch_timezone : string;
  ch_street : string;
  ch_city : string;
  ch_country : string;
  ch_state : option string;
  ch_zip : option string;
  ch_supplierConfNum : option string;
  ch_bookingRate : option string;
  ch_notes : option string;
  ch_totalCost : option string
}.

(** The body of [createHotel]. *)
Definition createHotel_payload (params : CreateHotelParams) : value :=
  let tripKey :=
    if includes "-" (ch_tripId params) then "trip_uuid" else "trip_id" in
  VObj
    [ ("LodgingObject",
       clean
         (VObj
            [ (tripKey, VStr (ch_tripId params));
              ("supplier_name", VStr (ch_hotelName params));
              ("supplier_conf_num",
               of_string (ch_supplierConfNum params));
              ("booking_rate", of_string (ch_bookingRate params));
              ("notes", of_string (ch_notes params));
              ("total_cost", of_string (ch_totalCost params));
              ("StartDateTime",
               VObj
                 [ ("date", VStr (ch_checkInDate params));
                   ("time",
                    of_string (normalizeTime (ch_checkInTime params)));
                   ("timezone", VStr (ch_timezone params)) ]);
              ("EndDateTime",
               VObj
                 [ ("date", VStr (ch_checkOutDate params));
                   ("time",
                    of_string (normalizeTime (ch_checkOutTime params)));
                   ("timezone", VStr (ch_timezone params)) ]);
              ("Address",
               clean
                 (VObj
                    [ ("address", VStr (ch_street params));
                      ("city", VStr (ch_city params));
                      ("state", of_string (ch_state params));
                      ("zip", of_string (ch_zip params));
                      ("country", VStr (ch_country params)) ])) ])) ].

(** [createHotel(params)] *)
Definition createHotel (R : Runtime) (c : TripIt)
  (params : CreateHotelParams) : Op value :=
  apiPost R c (endpoint "v2" "create/lodging") (createHotel_payload params).

Record UpdateHotelParams : Type := {
  uh_id : option string;
  uh_uuid : option string;
  uh_tripId : option string;
  uh_hotelName : option string;
  uh_checkInDate : option string;
  uh_checkInTime : option string;
  uh_checkOutDate : option string;
  uh_checkOutTime : option string;
  uh_timezone : option string;
  uh_street : option string;
  uh_city : option string;
  uh_state : option string;
  uh_zip : option string;
  uh_country : option string;
  uh_supplierConfNum : option string;
  uh_bookingRate : option string;
  uh_notes : option string;
  uh_totalCost : option string
}.

(** [tripId ? (tripId.includes("-") ? "trip_uuid" : "trip_id") : undefined]:
    the key inside, if any; [None] outside when the value on record has
    no [includes] method (a [TypeError]). *)
Definition tripKey_for (tripId : value) : option (option string) :=
  if negb (truthy tripId) then Some None
  else
    match tripId with
    | VStr s =>
        Some (Some (if includes "-" s then "trip_uuid" else "trip_id"))
    | VArr items =>
        Some (Some (if existsb
                         (fun x =>
                            match x with
                            | VStr "-" => true
                            | _ => false
                            end) items
                    then "trip_uuid" else "trip_id"))
    | _ => None
    end.

Definition tripKey_of (tripId : value) : Op (option string) :=
  match tripKey_for tripId with
  | Some key => done key
  | None => fail TypeError
  end.

(** [normalizeTime(time || "") ?? onRecord] *)
Definition time_or (time : option string) (onRecord : value) : value :=
  coalesce
    (of_string
       (normalizeTime
          (match Js.truthy time with
           | Some t => t
           | None => ""
           end)))
    onRecord.

(** [lodgingObject] of [updateHotel] (lines 308-367), from the
    parameters, the hotel on record and the trip key. *)
Definition lodgingObject_of (params : UpdateHotelParams)
  (existingHotel : value) (tripId : value) (tripKey : option string)
  : Js.obj value :=
  let start := member existingHotel "StartDateTime" in
  let finish := member existingHotel "EndDateTime" in
  let address := member existingHotel "Address" in
  let startTimezone :=
    or_else (or_else (of_string (uh_timezone params))
               (member start "timezone"))
      (member finish "timezone") in
  let endTimezone :=
    or_else (or_else (of_string (uh_timezone params))
               (member finish "timezone"))
      (member start "timezone") in
  let lodgingObject :=
    [ ("uuid", member existingHotel "uuid");
      ("is_client_traveler",
       toBoolean (member existingHotel "is_client_traveler"));
      ("display_name", member existingHotel "display_name");
      ("supplier_name",
       coalesce
         (coalesce (of_string (uh_hotelName params))
            (member existingHotel "supplier_name"))
         (member existingHotel "display_name"));
      ("supplier_conf_num",
       coalesce (of_string (uh_supplierConfNum params))
         (member existingHotel "supplier_conf_num"));
      ("booking_rate",
       coalesce (of_string (uh_bookingRate params))
         (member existingHotel "booking_rate"));
      ("is_purchased", toBoolean (member existingHotel "is_purchased"));
      ("notes",
       coalesce (of_string (uh_notes params))
         (member existingHotel "notes"));
      ("total_cost",
       coalesce (of_string (uh_totalCost params))
         (member existingHotel "total_cost"));
      ("StartDateTime",
       VObj
         [ ("date",
            coalesce (of_string (uh_checkInDate params))
              (member start "date"));
           ("time", time_or (uh_checkInTime params) (member start "time"));
           ("timezone", startTimezone) ]);
      ("EndDateTime",
       VObj
         [ ("date",
            coalesce (of_string (uh_checkOutDate params))
              (member finish "date"));
           ("time",
            time_or (uh_checkOutTime params) (member finish "time"));
           ("timezone", endTimezone) ]);
      ("Address",
       ordered_clean
         [ ("address",
            coalesce (of_string (uh_street params))
              (member address "address"));
           ("city",
            coalesce (of_string (uh_city params)) (member address "city"));
           ("state",
            coalesce (of_string (uh_state params))
              (member address "state"));
           ("zip",
            coalesce (of_string (uh_zip params)) (member address "zip"));
           ("country",
            coalesce (of_string (uh_country params))
              (member address "country")) ]
         ADDRESS_FIELD_ORDER) ] in
  match tripKey with
  | Some key => Js.set lodgingObject key tripId
  | None => lodgingObject
  end.

(** [updateHotel(params)] *)
Definition updateHotel (R : Runtime) (c : TripIt)
  (params : UpdateHotelParams) : Op value :=
  match Js.truthy
          (identifier_of (uh_uuid params) (uh_id params)) with
  | None => raise "Either uuid or id parameter is required"
  | Some identifier =>
      existingHotelResponse <~ getHotel R c identifier ;;
      existingHotel <~ read_member existingHotelResponse "LodgingObject" ;;
      if negb (truthy (member existingHotel "uuid")) then
        raise ("Hotel with identifier " ++ identifier ++ " not found")
      else
        let tripId :=
          or_else
            (or_else (of_string (uh_tripId params))
               (member existingHotel "trip_uuid"))
            (member existingHotel "trip_id") in
        tripKey <~ tripKey_of tripId ;;
        apiPost R c
          (endpoint "v2"
             ("replace/lodging/uuid/"
              ++ to_text (member existingHotel "uuid")))
          (VObj (updateHotel_payload
                   (lodgingObject_of params existingHotel tripId tripKey)))
  end.

(** ** Flights, transport, activities: reading and deleting *)

Definition getFlight (R : Runtime) (c : TripIt) (id : string) : Op value :=
  apiGet R c (identifierEndpoint "get" "air" id).

Definition deleteFlight (R : Runtime) (c : TripIt) (id : string)
  : Op value :=
  apiGet R c (identifierEndpoint "delete" "air" id).

Definition getTransport (R : Runtime) (c : TripIt) (id : string)
  : Op value :=
  apiGet R c (identifierEndpoint "get" "transport" id).

Definition deleteTransport (R : Runtime) (c : TripIt) (id : string)
  : Op value :=
  apiGet R c (identifierEndpoint "delete" "transport" id).

Definition getActivity (R : Runtime) (c : TripIt) (id : string)
  : Op value :=
  apiGet R c (identifierEndpoint "get" "activity" id).

Definition deleteActivity (R : Runtime) (c : TripIt) (id : string)
  : Op value :=
  apiGet R c (identifierEndpoint "delete" "activity" id).

(** ** Flights: creating and updating *)

Record CreateFlightSegment : Type := {
  fs_startDate : string;
  fs_startTime : string;
  fs_startTimezone : string;
  fs_endDate : string;
  fs_endTime : string;
  fs_endTimezone : string;
  fs_startCityName : string;
  fs_startCountryCode : string;
  fs_endCityName : string;
  fs_endCountryCode : string;
  fs_marketingAirline : string;
  fs_marketingFlightNumber : string;
  fs_aircraft : option string;
  fs_serviceClass : option string
}.

Record CreateFlightParams : Type := {
  cf_tripId : string;
  cf_displayName : string;
  cf_supplierName : string;
  cf_segments : list CreateFlightSegment;
  cf_supplierConfNum : option string;
  cf_notes : option string;
  cf_totalCost : option string
}.

(** One turn of [params.segments.map] in [createFlight]. *)
Definition createFlight_segment (s : CreateFlightSegment) : value :=
  clean
    (VObj
       [ ("StartDateTime",
          VObj
            [ ("date", VStr (fs_startDate s));
              ("time", of_string (normalizeTime (fs_startTime s)));
              ("timezone", VStr (fs_startTimezone s)) ]);
         ("EndDateTime",
          VObj
            [ ("date", VStr (fs_endDate s));
              ("time", of_string (normalizeTime (fs_endTime s)));
              ("timezone", VStr (fs_endTimezone s)) ]);
         ("start_city_name", VStr (fs_startCityName s));
         ("start_country_code", VStr (fs_startCountryCode s));
         ("end_city_name", VStr (fs_endCityName s));
         ("end_country_code", VStr (fs_endCountryCode s));
         ("marketing_airline", VStr (fs_marketingAirline s));
         ("marketing_flight_number", VStr (fs_marketingFlightNumber s));
         ("aircraft", of_string (fs_aircraft s));
         ("service_class", of_string (fs_serviceClass s)) ]).

(** The body of [createFlight]. *)
Definition createFlight_payload (params : CreateFlightParams) : value :=
  let segments := map createFlight_segment (cf_segments params) in
  VObj
    [ ("AirObject",
       clean
         (VObj
            [ ("trip_uuid", VStr (cf_tripId params));
              ("display_name", VStr (cf_displayName params));
              ("supplier_name", VStr (cf_supplierName params));
              ("supplier_conf_num", of_string (cf_supplierConfNum params));
              ("notes", of_string (cf_notes params));
              ("total_cost", of_string (cf_totalCost params));
              ("Segment", VArr segments) ])) ].

(** [createFlight(params)] *)
Definition createFlight (R : Runtime) (c : TripIt)
  (params : CreateFlightParams) : Op value :=
  apiPost R c (endpoint "v2" "create/air") (createFlight_payload params).

Record UpdateFlightSegment : Type := {
  us_startDate : option string;
  us_startTime : option string;
  us_startTimezone : option string;
  us_endDate : option string;
  us_endTime : option string;
  us_endTimezone : option string;
  us_startCityName : option string;
  us_startCountryCode : option string;
  us_endCityName : option string;
  us_endCountryCode : option string;
  us_marketingAirline : option string;
  us_marketingFlightNumber : option string;
  us_aircraft : option string;
  us_serviceClass : option string
}.

Record UpdateFlightParams : Type := {
  uf_id : option string;
  uf_uuid : option string;
  uf_tripId : option string;
  uf_displayName : option string;
  uf_supplierName : option string;
  uf_supplierConfNum : option string;
  uf_notes : option string;
  uf_totalCost : option string;
  uf_segment : option UpdateFlightSegment
}.

(** [params.segment?.field] *)
Definition segment_param (params : UpdateFlightParams)
  (field : UpdateFlightSegment -> option string) : option string :=
  match uf_segment params with
  | Some s => field s
  | None => None
  end.

(** [normalizeArray(node)[0]] *)
Definition first_segment (node : value) : value :=
  match normalizeArray node with
  | x :: _ => x
  | [] => VUndefined
  end.

(** [segment] of [updateFlight] (lines 503-540). *)
Definition flight_segment_of (params : UpdateFlightParams)
  (existingSegment : value) : Js.obj value :=
  let start := member existingSegment "StartDateTime" in
  let finish := member existingSegment "EndDateTime" in
  [ ("uuid", member existingSegment "uuid");
    ("StartDateTime",
     VObj
       [ ("date",
          coalesce (of_string (segment_param params us_startDate))
            (member start "date"));
         ("time",
          time_or (segment_param params us_startTime) (member start "time"));
         ("timezone",
          coalesce (of_string (segment_param params us_startTimezone))
            (member start "timezone")) ]);
    ("EndDateTime",
     VObj
       [ ("date",
          coalesce (of_string (segment_param params us_endDate))
            (member finish "date"));
         ("time",
          time_or (segment_param params us_endTime) (member finish "time"));
         ("timezone",
          coalesce (of_string (segment_param params us_endTimezone))
            (member finish "timezone")) ]);
    ("start_city_name",
     coalesce (of_string (segment_param params us_startCityName))
       (member existingSegment "start_city_name"));
    ("start_country_code",
     coalesce (of_string (segment_param params us_startCountryCode))
       (member existingSegment "start_country_code"));
    ("end_city_name",
     coalesce (of_string (segment_param params us_endCityName))
       (member existingSegment "end_city_name"));
    ("end_country_code",
     coalesce (of_string (segment_param params us_endCountryCode))
       (member existingSegment "end_country_code"));
    ("marketing_airline",
     coalesce
       (coalesce (of_string (segment_param params us_marketingAirline))
          (member existingSegment "marketing_airline_code"))
       (member existingSegment "marketing_airline"));
    ("marketing_flight_number",
     coalesce (of_string (segment_param params us_marketingFlightNumber))
       (member existingSegment "marketing_flight_number"));
    ("aircraft",
     coalesce (of_string (segment_param params us_aircraft))
       (member existingSegment "aircraft"));
    ("service_class",
     coalesce (of_string (segment_param params us_serviceClass))
       (member existingSegment "service_class")) ].

(** [airObject] of [updateFlight] (lines 542-557). *)
Definition airObject_of (params : UpdateFlightParams)
  (existingFlight existingSegment : value) (tripId : value)
  (tripKey : option string) : Js.obj value :=
  let airObject :=
    [ ("uuid", member existingFlight "uuid");
      ("is_client_traveler",
       toBoolean (member existingFlight "is_client_traveler"));
      ("display_name",
       coalesce (of_string (uf_displayName params))
         (member existingFlight "display_name"));
      ("supplier_name",
       coalesce (of_string (uf_supplierName params))
         (member existingFlight "supplier_name"));
      ("supplier_conf_num",
       coalesce (of_string (uf_supplierConfNum params))
         (member existingFlight "supplier_conf_num"));
      ("is_purchased", toBoolean (member existingFlight "is_purchased"));
      ("notes",
       coalesce (of_string (uf_notes params))
         (member existingFlight "notes"));
      ("total_cost",
       coalesce (of_string (uf_totalCost params))
         (member existingFlight "total_cost"));
      ("Segment",
       VArr
         [ ordered_clean (flight_segment_of params existingSegment)
             AIR_SEGMENT_FIELD_ORDER ]) ] in
  match tripKey with
  | Some key => Js.set airObject key tripId
  | None => airObject
  end.

(** [updateFlight(params)] *)
Definition updateFlight (R : Runtime) (c : TripIt)
  (params : UpdateFlightParams) : Op value :=
  match Js.truthy
          (identifier_of (uf_uuid params) (uf_id params)) with
  | None => raise "Either uuid or id parameter is required"
  | Some identifier =>
      existingFlightResponse <~ getFlight R c identifier ;;
      existingFlight <~ read_member existingFlightResponse "AirObject" ;;
      if negb (truthy (member existingFlight "uuid")) then
        raise ("Flight with identifier " ++ identifier ++ " not found")
      else
        let existingSegment :=
          first_segment (member existingFlight "Segment") in
        if negb (truthy existingSegment) then
          raise ("Flight with identifier " ++ identifier
                 ++ " has no segment")
        else
          let tripId :=
            or_else
              (or_else (of_string (uf_tripId params))
                 (member existingFlight "trip_uuid"))
              (member existingFlight "trip_id") in
          tripKey <~ tripKey_of tripId ;;
          apiPost R c
            (endpoint "v2"
               ("replace/air/uuid/"
                ++ to_text (member existingFlight "uuid")))
            (VObj (updateFlight_payload
                     (airObject_of params existingFlight existingSegment
                        tripId tripKey)))
  end.

(** ** Transport: creating and updating *)

Record CreateTransportParams : Type := {
  cx_tripId : string;
  cx_startDate : string;
  cx_startTime : string;
  cx_endDate : string;
  cx_endTime : string;
  cx_timezone : string;
  cx_startAddress : string;
  cx_endAddress : string;
  cx_startLocationName : option string;
  cx_endLocationName : option string;
  cx_vehicleDescription : option string;
  cx_carrierName : option string;
  cx_confirmationNum : option string;
  cx_displayName : option string
}.

(** The separator [createTransport] joins the two places with, byte for
    byte as the source file has it between two blanks. *)
Definition places_separator : string :=
  String " "
    (String "195"
       (String "162"
          (String "226"
             (String "128"
                (String "160"
                   (String "226"
                      (String "128" (String "153" (String " " ""))))))))).

(** [a || b] on an optional and a required text. *)
Definition text_or (a : option string) (b : string) : string :=
  match Js.truthy a with
  | Some text => text
  | None => b
  end.

(** [name] of [createTransport] (lines 598-606). *)
Definition transport_name (params : CreateTransportParams) : string :=
  text_or (cx_displayName params)
    (let joined :=
       String.concat places_separator
         (filter (fun place => negb (String.eqb place ""))
            [ text_or (cx_startLocationName params) (cx_startAddress params);
              text_or (cx_endLocationName params) (cx_endAddress params) ])
     in
     if String.eqb joined "" then "Transport" else joined).

(** The body of [createTransport]. *)
Definition createTransport_payload (params : CreateTransportParams)
  : value :=
  let tripKey :=
    if includes "-" (cx_tripId params) then "trip_uuid" else "trip_id" in
  VObj
    [ ("TransportObject",
       clean
         (VObj
            [ (tripKey, VStr (cx_tripId params));
              ("display_name", VStr (transport_name params));
              ("Segment",
               VArr
                 [ clean
                     (VObj
                        [ ("StartLocationAddress",
                           VObj
                             [("address", VStr (cx_startAddress params))]);
                          ("StartDateTime",
                           VObj
                             [ ("date", VStr (cx_startDate params));
                               ("time",
                                of_string
                                  (normalizeTime (cx_startTime params)));
                               ("timezone", VStr (cx_timezone params)) ]);
                          ("EndLocationAddress",
                           VObj [("address", VStr (cx_endAddress params))]);
                          ("EndDateTime",
                           VObj
                             [ ("date", VStr (cx_endDate params));
                               ("time",
                                of_string
                                  (normalizeTime (cx_endTime params)));
                               ("timezone", VStr (cx_timezone params)) ]);
                          ("vehicle_description",
                           of_string (cx_vehicleDescription params));
                          ("start_location_name",
                           of_string (cx_startLocationName params));
                          ("end_location_name",
                           of_string (cx_endLocationName params));
                          ("confirmation_num",
                           of_string (cx_confirmationNum params));
                          ("carrier_name",
                           of_string (cx_carrierName params)) ]) ]) ])) ].

(** [createTransport(params)] *)
Definition createTransport (R : Runtime) (c : TripIt)
  (params : CreateTransportParams) : Op value :=
  apiPost R c (endpoint "v2" "create/transport")
    (createTransport_payload params).

Record UpdateTransportParams : Type := {
  ux_id : option string;
  ux_uuid : option string;
  ux_tripId : option string;
  ux_startDate : option string;
  ux_startTime : option string;
  ux_endDate : option string;
  ux_endTime : option string;
  ux_timezone : option string;
  ux_startAddress : option string;
  ux_endAddress : option string;
  ux_startLocationName : option string;
  ux_endLocationName : option string;
  ux_vehicleDescription : option string;
  ux_carrierName : option string;
  ux_confirmationNum : option string;
  ux_displayName : option string
}.

(** [segment] of [updateTransport] (lines 683-716). *)
Definition transport_segment_of (params : UpdateTransportParams)
  (existingSegment : value) : Js.obj value :=
  let start := member existingSegment "StartDateTime" in
  let finish := member existingSegment "EndDateTime" in
  [ ("uuid", member existingSegment "uuid");
    ("StartLocationAddress",
     VObj
       [ ("address",
          coalesce (of_string (ux_startAddress params))
            (member (member existingSegment "StartLocationAddress")
               "address")) ]);
    ("StartDateTime",
     VObj
       [ ("date",
          coalesce (of_string (ux_startDate params)) (member start "date"));
         ("time", time_or (ux_startTime params) (member start "time"));
         ("timezone",
          coalesce (of_string (ux_timezone params))
            (member start "timezone")) ]);
    ("EndLocationAddress",
     VObj
       [ ("address",
          coalesce (of_string (ux_endAddress params))
            (member (member existingSegment "EndLocationAddress")
               "address")) ]);
    ("EndDateTime",
     VObj
       [ ("date",
          coalesce (of_string (ux_endDate params)) (member finish "date"));
         ("time", time_or (ux_endTime params) (member finish "time"));
         ("timezone",
          coalesce (of_string (ux_timezone params))
            (member finish "timezone")) ]);
    ("vehicle_description",
     coalesce (of_string (ux_vehicleDescription params))
       (member existingSegment "vehicle_description"));
    ("start_location_name",
     coalesce (of_string (ux_startLocationName params))
       (member existingSegment "start_location_name"));
    ("end_location_name",
     coalesce (of_string (ux_endLocationName params))
       (member existingSegment "end_location_name"));
    ("confirmation_num",
     coalesce (of_string (ux_confirmationNum params))
       (member existingSegment "confirmation_num"));
    ("carrier_name",
     coalesce (of_string (ux_carrierName params))
       (member existingSegment "carrier_name")) ].

(** [transportObject] of [updateTransport] (lines 718-734). *)
Definition transportObject_of (params : UpdateTransportParams)
  (existingTransport existingSegment : value) (tripId : value)
  (tripKey : option string) : Js.obj value :=
  let transportObject :=
    [ ("uuid", member existingTransport "uuid");
      ("is_client_traveler",
       toBoolean (member existingTransport "is_client_traveler"));
      ("display_name",
       coalesce (of_string (ux_displayName params))
         (member existingTransport "display_name"));
      ("is_purchased", toBoolean (member existingTransport "is_purchased"));
      ("is_tripit_booking",
       toBoolean (member existingTransport "is_tripit_booking"));
      ("has_possible_cancellation",
       toBoolean (member existingTransport "has_possible_cancellation"));
      ("Segment",
       VArr
         [ ordered_clean (transport_segment_of params existingSegment)
             TRANSPORT_SEGMENT_FIELD_ORDER ]) ] in
  match tripKey with
  | Some key => Js.set transportObject key tripId
  | None => transportObject
  end.

(** [updateTransport(params)] *)
Definition updateTransport (R : Runtime) (c : TripIt)
  (params : UpdateTransportParams) : Op value :=
  match Js.truthy
          (identifier_of (ux_uuid params) (ux_id params)) with
  | None => raise "Either uuid or id parameter is required"
  | Some identifier =>
      existingTransportResponse <~ getTransport R c identifier ;;
      existingTransport <~
        read_member existingTransportResponse "TransportObject" ;;
      if negb (truthy (member existingTransport "uuid")) then
        raise ("Transport with identifier " ++ identifier ++ " not found")
      else
        let existingSegment :=
          first_segment (member existingTransport "Segment") in
        if negb (truthy existingSegment) then
          raise ("Transport with identifier " ++ identifier
                 ++ " has no segment")
        else
          let tripId :=
            or_else
              (or_else (of_string (ux_tripId params))
                 (member existingTransport "trip_uuid"))
              (member existingTransport "trip_id") in
          tripKey <~ tripKey_of tripId ;;
          apiPost R c
            (endpoint "v2"
               ("replace/transport/uuid/"
                ++ to_text (member existingTransport "uuid")))
            (VObj (updateTransport_payload
                     (transportObject_of params existingTransport
                        existingSegment tripId tripKey)))
  end.

(** ** Activities: creating and updating *)

Record CreateActivityParams : Type := {
  ca_tripId : string;
  ca_displayName : string;
  ca_startDate : string;
  ca_startTime : string;
  ca_endDate : string;
  ca_endTime : string;
  ca_timezone : string;
  ca_address : string;
  ca_locationName : string;
  ca_city : option string;
  ca_state : option string;
  ca_zip : option string;
  ca_country : option string
}.

(** The body of [createActivity]. *)
Definition createActivity_payload (params : CreateActivityParams) : value :=
  let tripKey :=
    if includes "-" (ca_tripId params) then "trip_uuid" else "trip_id" in
  VObj
    [ ("ActivityObject",
       clean
         (VObj
            [ (tripKey, VStr (ca_tripId params));
              ("display_name", VStr (ca_displayName params));
              ("StartDateTime",
               VObj
                 [ ("date", VStr (ca_startDate params));
                   ("time",
                    of_string (normalizeTime (ca_startTime params)));
                   ("timezone", VStr (ca_timezone params)) ]);
              ("EndDateTime",
               VObj
                 [ ("date", VStr (ca_endDate params));
                   ("time", of_string (normalizeTime (ca_endTime params)));
                   ("timezone", VStr (ca_timezone params)) ]);
              ("Address",
               clean
                 (VObj
                    [ ("address", VStr (ca_address params));
                      ("city", of_string (ca_city params));
                      ("state", of_string (ca_state params));
                      ("zip", of_string (ca_zip params));
                      ("country", of_string (ca_country params)) ]));
              ("location_name", VStr (ca_locationName params)) ])) ].

(** [createActivity(params)] *)
Definition createActivity (R : Runtime) (c : TripIt)
  (params : CreateActivityParams) : Op value :=
  apiPost R c (endpoint "v2" "create/activity")
    (createActivity_payload params).

Record UpdateActivityParams : Type := {
  ua_id : option string;
  ua_uuid : option string;
  ua_tripId : option string;
  ua_displayName : option string;
  ua_startDate : option string;
  ua_startTime : option string;
  ua_endDate : option string;
  ua_endTime : option string;
  ua_timezone : option string;
  ua_address : option string;
  ua_locationName : option string;
  ua_city : option string;
  ua_state : option string;
  ua_zip : option string;
  ua_country : option string;
  ua_notes : option string
}.

(** [activityObject] of [updateActivity] (lines 843-878). *)
Definition activityObject_of (params : UpdateActivityParams)
  (existingActivity : value) (tripId : value) (tripKey : option string)
  : Js.obj value :=
  let start := member existingActivity "StartDateTime" in
  let finish := member existingActivity "EndDateTime" in
  let address := member existingActivity "Address" in
  let activityObject :=
    [ ("uuid", member existingActivity "uuid");
      ("is_client_traveler",
       toBoolean (member existingActivity "is_client_traveler"));
      ("display_name",
       coalesce (of_string (ua_displayName params))
         (member existingActivity "display_name"));
      ("is_purchased", toBoolean (member existingActivity "is_purchased"));
      ("notes",
       coalesce (of_string (ua_notes params))
         (member existingActivity "notes"));
      ("StartDateTime",
       VObj
         [ ("date",
            coalesce (of_string (ua_startDate params))
              (member start "date"));
           ("time", time_or (ua_startTime params) (member start "time"));
           ("timezone",
            coalesce (of_string (ua_timezone params))
              (member start "timezone")) ]);
      ("EndDateTime",
       VObj
         [ ("date",
            coalesce (of_string (ua_endDate params))
              (member finish "date"));
           ("time", time_or (ua_endTime params) (member finish "time"));
           ("timezone",
            coalesce (of_string (ua_timezone params))
              (member finish "timezone")) ]);
      ("Address",
       ordered_clean
         [ ("address",
            coalesce (of_string (ua_address params))
              (member address "address"));
           ("city",
            coalesce (of_string (ua_city params)) (member address "city"));
           ("state",
            coalesce (of_string (ua_state params))
              (member address "state"));
           ("zip",
            coalesce (of_string (ua_zip params)) (member address "zip"));
           ("country",
            coalesce (of_string (ua_country params))
              (member address "country")) ]
         ADDRESS_FIELD_ORDER);
      ("location_name",
       coalesce (of_string (ua_locationName params))
         (member existingActivity "location_name")) ] in
  match tripKey with
  | Some key => Js.set activityObject key tripId
  | None => activityObject
  end.

(** [updateActivity(params)] *)
Definition updateActivity (R : Runtime) (c : TripIt)
  (params : UpdateActivityParams) : Op value :=
  match Js.truthy
          (identifier_of (ua_uuid params) (ua_id params)) with
  | None => raise "Either uuid or id parameter is required"
  | Some identifier =>
      existingActivityResponse <~ getActivity R c identifier ;;
      existingActivity <~
        read_member existingActivityResponse "ActivityObject" ;;
      if negb (truthy (member existingActivity "uuid")) then
        raise ("Activity with identifier " ++ identifier ++ " not found")
      else
        let tripId :=
          or_else
            (or_else (of_string (ua_tripId params))
               (member existingActivity "trip_uuid"))
            (member existingActivity "trip_id") in
        tripKey <~ tripKey_of tripId ;;
        apiPost R c
          (endpoint "v2"
             ("replace/activity/uuid/"
              ++ to_text (member existingActivity "uuid")))
          (VObj (updateActivity_payload
                   (activityObject_of params existingActivity tripId
                      tripKey)))
  end.

End Client.

(* ================================================================== *)
(** * [index.ts]: the client the command line builds *)
(* ================================================================== *)

Module Cli.

Import Auth.

(** [process.env]: the variables that are set. *)
Definition Env : Type := Js.obj string.

(** [requiredEnv(name)] *)
Definition requiredEnv (env : Env) (name : string) : Result string :=
  match Js.truthy (Js.get env name) with
  | Some val => Ok val
  | None => Threw (Error ("Missing required env var: " ++ name))
  end.

(** [createClient()] *)
Definition createClient (env : Env) : Result Client.TripIt :=
  match requiredEnv env "TRIPIT_CLIENT_ID" with
  | Threw e => Threw e
  | Ok id =>
      match requiredEnv env "TRIPIT_CLIENT_SECRET" with
      | Threw e => Threw e
      | Ok secret =>
          match requiredEnv env "TRIPIT_USERNAME" with
          | Threw e => Threw e
          | Ok user =>
              match requiredEnv env "TRIPIT_PASSWORD" with
              | Threw e => Threw e
              | Ok pass =>
                  Ok (Client.new_client
                        {| clientId := id; clientSecret := secret;
                           username := user; password := pass |})
              end
          end
      end
  end.

(** [formatDeleteResult(resource, id, data)] *)
Definition formatDeleteResult (resource id : string) (data : Utils.value)
  : string :=
  let lines := ["Deleted " ++ resource ++ ": " ++ id] in
  let lines :=
    if Values.truthy (Values.member data "timestamp")
    then (lines
            ++ [("Timestamp: "
                 ++ Values.to_text (Values.member data "timestamp"))%string])%list
    else lines in
  String.concat (String "010" "") lines.

End Cli.

(* ================================================================== *)
(** * Sample records and answers for the client *)
(* ================================================================== *)

Module Records.

Import Utils.
Import Auth.
Import Client.

(** A trip as the API reports it. *)
Definition trip_on_record : value :=
  VObj
    [ ("uuid", VStr "abc-1");
      ("display_name", VStr "Old name");
      ("start_date", VStr "2026-06-01");
      ("end_date", VStr "2026-06-05");
      ("is_private", VStr "false");
      ("primary_location", VStr "Berlin");
      ("relative_url", VStr "/trip/show/id/1") ].

Definition trip_answer : value := VObj [("Trip", trip_on_record)].

(** A hotel as the API reports it. *)
Definition hotel_on_record : value :=
  VObj
    [ ("uuid", VStr "h-7");
      ("trip_uuid", VStr "abc-1");
      ("display_name", VStr "Grand");
      ("supplier_name", VStr "Grand Hotel");
      ("is_purchased", VStr "true");
      ("StartDateTime",
       VObj [ ("date", VStr "2026-06-01"); ("time", VStr "15:00:00");
              ("timezone", VStr "Europe/Berlin") ]);
      ("EndDateTime",
       VObj [ ("date", VStr "2026-06-05"); ("time", VStr "11:00:00") ]);
      ("Address", VObj [ ("address", VStr "10 Example Str");
                         ("latitude", VStr "52.5") ]) ].

Definition hotel_answer : value := VObj [("LodgingObject", hotel_on_record)].

(** A flight of two segments as the API reports it. *)
Definition first_leg : value :=
  VObj
    [ ("uuid", VStr "s-1");
      ("start_city_name", VStr "Berlin");
      ("end_city_name", VStr "Oslo");
      ("marketing_airline_code", VStr "SK");
      ("marketing_airline", VStr "SAS");
      ("marketing_flight_number", VStr "674");
      ("distance", VStr "838 km") ].

Definition second_leg : value :=
  VObj
    [ ("uuid", VStr "s-2");
      ("start_city_name", VStr "Oslo");
      ("end_city_name", VStr "Bergen") ].

Definition flight_on_record : value :=
  VObj
    [ ("uuid", VStr "f-3");
      ("trip_uuid", VStr "abc-1");
      ("display_name", VStr "North");
      ("Segment", VArr [first_leg; second_leg]) ].

Definition flight_answer : value := VObj [("AirObject", flight_on_record)].

(** A flight with an empty list of segments and a transport with none. *)
Definition segmentless_answer : value :=
  VObj
    [ ("AirObject", VObj [("uuid", VStr "f-4"); ("Segment", VArr [])]);
      ("TransportObject", VObj [("uuid", VStr "t-5")]) ].

(** The texts the sample runtime can parse. *)
Definition sample_parse (text : string) : option value :=
  if String.eqb text "TRIP" then Some trip_answer
  else if String.eqb text "FLIGHT" then Some flight_answer
  else if String.eqb text "NO_SEGMENT" then Some segmentless_answer
  else if String.eqb text "HOTEL" then Some hotel_answer
  else if String.eqb text "EMPTY" then Some (VObj [])
  else if String.eqb text "null" then Some VNull
  else if String.eqb text "UPDATED" then
    Some (VObj [("Trip", trip_on_record); ("Profile", VObj [("x", VNum 1)])])
  else None.

Definition runtime : Runtime := {| JSON_parse_value := sample_parse |}.

Definition signed_in : TripIt :=
  {| config := Sample.config; accessToken := Some "tok-1" |}.

Definition rename : UpdateTripParams :=
  {| ut_id := None; ut_uuid := Some "abc-1";
     ut_displayName := Some "New name";
     ut_startDate := None; ut_endDate := None; ut_primaryLocation := None;
     ut_description := None; ut_isPrivate := None; ut_isExpensible := None;
     ut_tripPurpose := None |}.

Definition nameless : UpdateTripParams :=
  {| ut_id := None; ut_uuid := Some "";
     ut_displayName := Some "New name";
     ut_startDate := None; ut_endDate := None; ut_primaryLocation := None;
     ut_description := None; ut_isPrivate := None; ut_isExpensible := None;
     ut_tripPurpose := None |}.


(** The API about to answer a read and then a write. *)
Definition api_world (first second : string) : World :=
  Sample.world_with Absent
    [ Sample.answer 200 None first; Sample.answer 200 None second ].

(** A trip and a hotel about to be created. *)
Definition new_trip : CreateTripParams :=
  {| ct_displayName := "Summer"; ct_startDate := "2026-07-01";
     ct_endDate := "2026-07-10"; ct_primaryLocation := None |}.

Definition new_hotel : CreateHotelParams :=
  {| ch_tripId := "abc-1"; ch_hotelName := "Grand Hotel";
     ch_checkInDate := "2026-07-01"; ch_checkInTime := "15:00";
     ch_checkOutDate := "2026-07-03"; ch_checkOutTime := "";
     ch_timezone := "Europe/Berlin"; ch_street := "10 Example Str";
     ch_city := "Berlin"; ch_country := "DE"; ch_state := None;
     ch_zip := Some "10115"; ch_supplierConfNum := None;
     ch_bookingRate := None; ch_notes := None; ch_totalCost := None |}.

(** The environment of a configured shell, and one whose user name is
    empty and whose password is not set. *)
Definition full_env : Cli.Env :=
  [ ("TRIPIT_CLIENT_ID", "client-1"); ("TRIPIT_CLIENT_SECRET", "s3");
    ("TRIPIT_USERNAME", "user1"); ("TRIPIT_PASSWORD", "pass1") ].

Definition partial_env : Cli.Env :=
  [ ("TRIPIT_CLIENT_ID", "client-1"); ("TRIPIT_CLIENT_SECRET", "s3");
    ("TRIPIT_USERNAME", "") ].

(** The same account with another client secret. *)
Definition other_secret : TripItConfig :=
  {| clientId := "client-1"; clientSecret := "another";
     username := "user1"; password := "pass1" |}.

(** The world a whole login leaves behind, after its first half and at
    its end. *)
Definition first_after : World :=
  Eval vm_compute in
    snd (authenticate_login Sample.platform Sample.config
           Sample.first_world).

Definition signed_world : World :=
  Eval vm_compute in
    snd (authenticate Sample.platform Sample.config Sample.first_world).

(** The same machine an hour minus thirty-one seconds, and an hour, after
    the token was stored. *)
Definition in_time (w : World) : World :=
  {| cache_file := cache_file w; disk_writable := disk_writable w;
     now := now w + 3569000; inbox := []; sent := [];
     entropy := entropy w; drawn := drawn w |}.

Definition too_late (w : World) : World :=
  {| cache_file := cache_file w; disk_writable := disk_writable w;
     now := now w + 3570000; inbox := []; sent := [];
     entropy := entropy w; drawn := drawn w |}.

(** A login whose final redirect carries the state and no code. *)
Definition codeless_url : string :=
  "com.tripit://completeAuthorize?state=" ++ Sample.zero_state.

Definition codeless_parsed : URL :=
  {| href := codeless_url;
     searchParams := [("state", Sample.zero_state)] |}.

Definition codeless_platform : Platform :=
  {| cheerio_load := Sample.sample_cheerio;
     URL_new :=
       fun input base =>
         if String.eqb input codeless_url then Some codeless_parsed
         else Sample.sample_URL input base;
     JSON_parse := Sample.sample_JSON |}.

Definition codeless_world : World :=
  Sample.world_with Absent
    (Sample.login_answers (Sample.answer 302 (Some codeless_url) "")
       (Sample.answer 200 None Sample.token_json)).

Definition codeless_pending : Pending :=
  {| codeVerifier := codeVerifier Sample.good_pending;
     state := Sample.zero_state;
     redirectUrl := codeless_url |}.

Definition codeless_after : World :=
  Eval vm_compute in
    snd (authenticate_login codeless_platform Sample.config codeless_world).

(** Two redirects, then the login page; and two redirects, then a
    redirect that names no location. *)
Definition chain_world : World :=
  Sample.world_with Absent
    [ Sample.answer 302 (Some "https://www.tripit.com/b") "";
      Sample.answer 303 (Some "https://www.tripit.com/account/login") "";
      Sample.answer 200 None Sample.login_html ].

Definition broken_chain_world : World :=
  Sample.world_with Absent
    [ Sample.answer 302 (Some "https://www.tripit.com/b") "";
      Sample.answer 303 (Some "https://www.tripit.com/account/login") "";
      Sample.answer 302 None "" ].

(** The API about to refuse a read. *)
Definition refusing_api : World :=
  Sample.world_with Absent [ Sample.answer 404 None "Not found" ].


Definition touch_flight : UpdateFlightParams :=
  {| uf_id := None; uf_uuid := Some "f-4"; uf_tripId := None;
     uf_displayName := None; uf_supplierName := None;
     uf_supplierConfNum := None; uf_notes := None; uf_totalCost := None;
     uf_segment := None |}.

Definition touch_transport : UpdateTransportParams :=
  {| ux_id := None; ux_uuid := Some "f-4"; ux_tripId := None;
     ux_startDate := None; ux_startTime := None; ux_endDate := None;
     ux_endTime := None; ux_timezone := None; ux_startAddress := None;
     ux_endAddress := None; ux_startLocationName := None;
     ux_endLocationName := None; ux_vehicleDescription := None;
     ux_carrierName := None; ux_confirmationNum := None;
     ux_displayName := None |}.

(** A transfer between two named places, and one between two unnamed
    places without addresses. *)
Definition transfer : CreateTransportParams :=
  {| cx_tripId := "12345"; cx_startDate := "2026-07-01";
     cx_startTime := "10:00"; cx_endDate := "2026-07-01";
     cx_endTime := "11:00"; cx_timezone := "Europe/Oslo";
     cx_startAddress := "Flyplassvegen 1"; cx_endAddress := "Torget 2";
     cx_startLocationName := Some "Airport";
     cx_endLocationName := Some "Hotel";
     cx_vehicleDescription := None; cx_carrierName := None;
     cx_confirmationNum := None; cx_displayName := Some "" |}.

Definition nowhere : CreateTransportParams :=
  {| cx_tripId := "12345"; cx_startDate := "2026-07-01";
     cx_startTime := "10:00"; cx_endDate := "2026-07-01";
     cx_endTime := "11:00"; cx_timezone := "Europe/Oslo";
     cx_startAddress := ""; cx_endAddress := "";
     cx_startLocationName := None; cx_endLocationName := None;
     cx_vehicleDescription := None; cx_carrierName := None;
     cx_confirmationNum := None; cx_displayName := None |}.

(** A flight of one leg for a trip named by its number. *)
Definition new_flight : CreateFlightParams :=
  {| cf_tripId := "12345"; cf_displayName := "North";
     cf_supplierName := "SAS";
     cf_segments :=
       [ {| fs_startDate := "2026-07-01"; fs_startTime := "09:15";
            fs_startTimezone := "Europe/Berlin";
            fs_endDate := "2026-07-01"; fs_endTime := "10:55";
            fs_endTimezone := "Europe/Oslo";
            fs_startCityName := "Berlin"; fs_startCountryCode := "DE";
            fs_endCityName := "Oslo"; fs_endCountryCode := "NO";
            fs_marketingAirline := "SK";
            fs_marketingFlightNumber := "674";
            fs_aircraft := None; fs_serviceClass := None |} ];
     cf_supplierConfNum := None; cf_notes := None; cf_totalCost := None |}.

End Records.

(* ================================================================== *)
(** * Vocabulary of the further statements *)
(* ================================================================== *)

Module Terms.

Import Utils.
Import Values.
Import Auth.
Import Client.

(** No member of an object and no element of an array, at any depth
    inside the value, is [null] or [undefined]. *)
Fixpoint tidy (v : value) : bool :=
  match v with
  | VArr items => forallb (fun x => present x && tidy x) items
  | VObj fields => forallb (fun kv => present (snd kv) && tidy (snd kv)) fields
  | _ => true
  end.

(** Every member name, at any depth inside the value, is one that a
    first assignment appends: no array index and no [__proto__]. *)
Fixpoint plain_names (v : value) : bool :=
  match v with
  | VArr items => forallb plain_names items
  | VObj fields =>
      forallb (fun kv => Js.appended (fst kv) && plain_names (snd kv)) fields
  | _ => true
  end.

(** What reading a member of a cleaned record gives for a member that
    held [v] before. *)
Definition cleaned (v : value) : value :=
  if present v then clean v else VUndefined.

(** One turn of the [reduce] of [clean]. *)
Definition clean_member (acc : Js.obj value) (kv : string * value)
  : Js.obj value :=
  if present (snd kv) then Js.set acc (fst kv) (clean (snd kv)) else acc.

(** The failure of a client that holds no token. *)
Definition not_authenticated : failure :=
  Raised (Error "Not authenticated. Call authenticate() first.").



(** The URL [followRedirects] has reached after following the first [n]
    answers, and the URLs it asked on the way, when those answers are
    redirects it follows. *)
Fixpoint chain_end (P : Platform) (n : nat) (url : string)
  (answers : list Response) : string :=
  match n, answers with
  | S n', res :: rest =>
      match Js.truthy (location res) with
      | Some loc =>
          match URL_new P loc url with
          | Some next => chain_end P n' (href next) rest
          | None => url
          end
      | None => url
      end
  | _, _ => url
  end.

Fixpoint chain_hops (P : Platform) (n : nat) (url : string)
  (answers : list Response) : list string :=
  match n, answers with
  | S n', res :: rest =>
      url
      :: match Js.truthy (location res) with
         | Some loc =>
             match URL_new P loc url with
             | Some next => chain_hops P n' (href next) rest
             | None => []
             end
         | None => []
         end
  | _, _ => []
  end.

(** How often a character stands in a text. *)
Fixpoint occurrences (c : ascii) (s : string) : nat :=
  match s with
  | "" => O
  | String a rest =>
      if Ascii.eqb a c then S (occurrences c rest) else occurrences c rest
  end.

(** The characters a form-encoded name or value is made of. *)
Definition form_safe (c : ascii) : bool :=
  Codec.is_alnum c || Codec.one_of "*-._+%" c.

(** The text is white space of the pattern language only. *)
Definition blank (s : string) : bool := String.eqb (skip_spaces s) "".

(** The text holds no quote, single or double. *)
Definition unquoted (s : string) : bool :=
  forallb (fun c => negb (is_quote c)) (list_ascii_of_string s).

End Terms.

(* ================================================================== *)
(** * Vocabulary of the statements *)
(* ================================================================== *)

Module Spec.

Import Auth.

(** [needle] occurs in [text]. *)
Definition contains (needle text : string) : Prop :=
  exists before after : string, text = before ++ needle ++ after.

(** The two replacements of the code challenge, on one character. *)
Definition url_safe_char (c : ascii) : ascii :=
  let c1 := if Ascii.eqb c "+" then "-"%char else c in
  if Ascii.eqb c1 "/" then "_"%char else c1.

(** Characters that [encodeURIComponent] leaves alone. *)
Definition unreserved (c : ascii) : bool :=
  Codec.is_alnum c || Codec.one_of "-_.!~*'()" c.

(** The next [n] answers are all redirects the resolver follows: status
    302 or 303 with a non-empty [Location] that resolves against the URL
    the request went to. *)
Fixpoint redirect_chain (P : Platform) (n : nat) (url : string)
  (answers : list Response) : bool :=
  match n, answers with
  | O, _ => true
  | S _, [] => false
  | S n', res :: rest =>
      ((status res =? 302) || (status res =? 303))
      && match Js.truthy (location res) with
         | Some loc =>
             match URL_new P loc url with
             | Some next => redirect_chain P n' (href next) rest
             | None => false
             end
         | None => false
         end
  end.

(** The next [n] answers are all redirects to a new location, of whatever
    kind: a status from 300 to 399 with a non-empty [Location] that
    resolves against the URL the request would go to. *)
Fixpoint any_redirect_chain (P : Platform) (n : nat) (url : string)
  (answers : list Response) : bool :=
  match n, answers with
  | O, _ => true
  | S _, [] => false
  | S n', res :: rest =>
      ((300 <=? status res) && (status res <? 400))
      && match Js.truthy (location res) with
         | Some loc =>
             match URL_new P loc url with
             | Some next => any_redirect_chain P n' (href next) rest
             | None => false
             end
         | None => false
         end
  end.

(** What a computation may do to the world besides returning: it leaves
    the cache file, the disk and the random source alone and only adds
    requests satisfying [allowed] to the log. *)
Definition quiet {A} (allowed : Request -> Prop) (c : M A) : Prop :=
  forall w : World,
    cache_file (snd (c w)) = cache_file w
    /\ disk_writable (snd (c w)) = disk_writable w
    /\ entropy (snd (c w)) = entropy w
    /\ exists l, sent (snd (c w)) = (sent w ++ l)%list /\ Forall allowed l.

(** The cached token, when the file holds one that has not expired. *)
Definition cache_hit (w : World) : option CachedToken :=
  match cache_file w with
  | Stored token =>
      match expiresAt token with
      | Some e => if e >? now w then Some token else None
      | None => None
      end
  | Absent | Corrupt => None
  end.

(** What [cacheToken] stores when the clock reads [t]. *)
Definition cached_of (t : Z) (tokenResponse : TokenResponse) : CachedToken :=
  {| access_token := tr_access_token tokenResponse;
     expires_in := tr_expires_in tokenResponse;
     token_type := tr_token_type tokenResponse;
     scope := tr_scope tokenResponse;
     expiresAt :=
       option_map (fun seconds => t + (seconds - 30) * 1000)
         (tr_expires_in tokenResponse) |}.

(** Every run of the computation logs [req] first. *)
Definition starts_with {A} (req : Request) (c : M A) : Prop :=
  forall w : World,
    exists l, sent (snd (c w)) = (sent w ++ req :: l)%list.

(** The computation only adds to the log of requests. *)
Definition appends {A} (c : M A) : Prop :=
  forall w : World, exists l, sent (snd (c w)) = (sent w ++ l)%list.

Definition by_session (r : Request) : Prop := req_client r = Session.

(** No request has gone to the token endpoint's client since [before]. *)
Definition no_token_request_since (before after : World) : Prop :=
  exists l, sent after = (sent before ++ l)%list /\ Forall by_session l.

End Spec.

(* ================================================================== *)
(** * Properties *)
(* ================================================================== *)

Import Spec.
Import Auth.

(** ** Records *)

Lemma get_set_same {V} (o : Js.obj V) k v :
  Js.get (Js.set o k v) k = Some v.
Proof.
  induction o as [|[k' w] o IH]; simpl.
  - now rewrite String.eqb_refl.
  - destruct (String.eqb k' k) eqn:E; simpl; rewrite E; auto.
Qed.

Lemma get_set_other {V} (o : Js.obj V) k k' v :
  k <> k' -> Js.get (Js.set o k v) k' = Js.get o k'.
Proof.
  intros Hne. induction o as [|[k0 w] o IH]; simpl.
  - destruct (String.eqb k k') eqn:E; [apply String.eqb_eq in E; tauto|auto].
  - destruct (String.eqb k0 k) eqn:E; simpl.
    + apply String.eqb_eq in E; subst k0.
      destruct (String.eqb k k') eqn:E'; auto.
      apply String.eqb_eq in E'; tauto.
    + now rewrite IH.
Qed.

Lemma keys_set {V} (o : Js.obj V) k v :
  Js.keys (Js.set o k v)
  = if Js.mem k (Js.keys o) then Js.keys o else (Js.keys o ++ [k])%list.
Proof.
  unfold Js.keys, Js.mem.
  induction o as [|[k' w] o IH]; simpl; auto.
  rewrite (String.eqb_sym k k').
  destruct (String.eqb k' k) eqn:E; simpl.
  - reflexivity.
  - rewrite IH. destruct (existsb (String.eqb k) (map fst o)); reflexivity.
Qed.

Lemma mem_In k l : Js.mem k l = true <-> In k l.
Proof.
  unfold Js.mem. rewrite existsb_exists. split.
  - intros [x [Hin E]]. apply String.eqb_eq in E. now subst.
  - intros H. exists k. split; auto. apply String.eqb_refl.
Qed.

Lemma get_None_keys {V} (o : Js.obj V) k :
  Js.get o k = None <-> ~ In k (Js.keys o).
Proof.
  unfold Js.keys. induction o as [|[k' w] o IH]; simpl.
  - tauto.
  - destruct (String.eqb k' k) eqn:E.
    + apply String.eqb_eq in E. split; [discriminate|tauto].
    + apply String.eqb_neq in E. rewrite IH. tauto.
Qed.

Lemma get_defined_keys {V} (o : Js.obj V) k :
  Js.get o k <> None <-> In k (Js.keys o).
Proof.
  unfold Js.keys. induction o as [|[k' w] o IH]; cbn [Js.get map fst In].
  - tauto.
  - destruct (String.eqb_spec k' k) as [->|Hne].
    + split; [tauto|discriminate].
    + rewrite IH. tauto.
Qed.

Lemma keys_set_NoDup {V} (o : Js.obj V) k v :
  NoDup (Js.keys o) -> NoDup (Js.keys (Js.set o k v)).
Proof.
  intros Hnd. rewrite keys_set.
  destruct (Js.mem k (Js.keys o)) eqn:Hm; auto.
  apply NoDup_app; auto.
  - constructor; [intros []|constructor].
  - intros x Hx [<-|[]]. apply mem_In in Hx. congruence.
Qed.

(** ** Assignment under any name *)

Lemma has_false {V} (o : Js.obj V) k :
  Js.has o k = false -> Js.get o k = None.
Proof.
  unfold Js.has. destruct (Js.get o k); [discriminate|reflexivity].
Qed.

Lemma get_insert_same {V} (o : Js.obj V) n k v :
  Js.get o k = None -> Js.get (Js.insert_index n k v o) k = Some v.
Proof.
  induction o as [|[k' w] o IH]; cbn [Js.get Js.insert_index]; intros Hget.
  - now rewrite String.eqb_refl.
  - destruct (String.eqb k' k) eqn:E; [discriminate|].
    destruct (Js.index_of k') as [m|]; [destruct (m <? n)%N|];
      cbn [Js.get]; rewrite ?E, ?String.eqb_refl; auto.
Qed.

Lemma get_insert_other {V} (o : Js.obj V) n k k' v :
  k <> k' -> Js.get (Js.insert_index n k v o) k' = Js.get o k'.
Proof.
  intros Hne.
  assert (String.eqb k k' = false) as E by now apply String.eqb_neq.
  induction o as [|[k0 w] o IH]; cbn [Js.get Js.insert_index].
  - now rewrite E.
  - destruct (Js.index_of k0) as [m|]; [destruct (m <? n)%N|];
      cbn [Js.get]; rewrite ?E, ?IH; reflexivity.
Qed.

(** What was assigned under a name is read back under it, unless the
    name is [__proto__]. *)
Lemma get_assign_same {V} (o : Js.obj V) k v :
  k <> "__proto__" -> Js.get (Js.assign o k v) k = Some v.
Proof.
  intros Hk. unfold Js.assign.
  destruct (Js.has o k) eqn:Hhas; [apply get_set_same|].
  destruct (String.eqb_spec k "__proto__"); [contradiction|].
  destruct (Js.index_of k).
  - apply get_insert_same. now apply has_false.
  - apply get_set_same.
Qed.

Lemma get_assign_other {V} (o : Js.obj V) k k' v :
  k <> k' -> Js.get (Js.assign o k v) k' = Js.get o k'.
Proof.
  intros Hne. unfold Js.assign.
  destruct (Js.has o k); [now apply get_set_other|].
  destruct (String.eqb k "__proto__"); [reflexivity|].
  destruct (Js.index_of k).
  - now apply get_insert_other.
  - now apply get_set_other.
Qed.

(** No assignment gives an object an own [__proto__]. *)
Lemma get_assign_proto {V} (o : Js.obj V) k v :
  Js.get o "__proto__" = None ->
  Js.get (Js.assign o k v) "__proto__" = None.
Proof.
  intros Hnone. destruct (String.eqb_spec k "__proto__") as [->|Hne].
  - unfold Js.assign, Js.has. rewrite Hnone. exact Hnone.
  - now rewrite get_assign_other.
Qed.

(** Under a name that is neither an array index nor [__proto__], the two
    assignments are one. *)
Lemma assign_appended {V} (o : Js.obj V) k v :
  Js.appended k = true -> Js.assign o k v = Js.set o k v.
Proof.
  unfold Js.appended, Js.assign. intros H.
  apply andb_prop in H. destruct H as [Hp Hi].
  destruct (Js.has o k); [reflexivity|].
  destruct (String.eqb k "__proto__"); [discriminate|].
  destruct (Js.index_of k); [discriminate|reflexivity].
Qed.

Lemma has_in_ordinary {V} (o : Js.obj V) k :
  Js.ordinary k = true -> Js.has_in o k = Js.has o k.
Proof.
  unfold Js.ordinary, Js.has_in. intros H.
  apply andb_prop in H. destruct H as [_ H].
  destruct (Js.mem k Js.inherited_names); [discriminate|].
  now rewrite orb_false_r.
Qed.

(** After an assignment an object has the names it had, and the name
    assigned to unless that is [__proto__]. *)
Lemma get_assign_defined {V} (o : Js.obj V) k k' v :
  Js.get (Js.assign o k v) k' <> None
  <-> Js.get o k' <> None \/ (k = k' /\ k <> "__proto__").
Proof.
  destruct (String.eqb_spec k k') as [<-|Hne].
  - destruct (String.eqb_spec k "__proto__") as [->|Hproto].
    + unfold Js.assign, Js.has.
      destruct (Js.get o "__proto__") as [w|] eqn:Hget.
      * rewrite get_set_same. split; [left|]; discriminate.
      * rewrite String.eqb_refl, Hget. tauto.
    + rewrite get_assign_same by assumption.
      split; [now right|discriminate].
  - rewrite get_assign_other by assumption. tauto.
Qed.

Lemma keys_insert_index {V} (o : Js.obj V) n k v x :
  In x (Js.keys (Js.insert_index n k v o)) <-> x = k \/ In x (Js.keys o).
Proof.
  unfold Js.keys.
  induction o as [|[k0 w] o IH]; cbn [Js.insert_index map fst In].
  - intuition.
  - destruct (Js.index_of k0) as [m|]; [destruct (m <? n)%N|];
      cbn [map fst In]; rewrite ?IH; intuition.
Qed.

Lemma insert_index_NoDup {V} (o : Js.obj V) n k v :
  ~ In k (Js.keys o) -> NoDup (Js.keys o) ->
  NoDup (Js.keys (Js.insert_index n k v o)).
Proof.
  induction o as [|[k0 w] o IH]; intros Hk Hnd.
  - cbn. constructor; [intros []|constructor].
  - assert (NoDup (Js.keys ((k, v) :: (k0, w) :: o))) as Hfront
        by (cbn [Js.keys map fst]; constructor; assumption).
    cbn [Js.insert_index].
    destruct (Js.index_of k0) as [m|]; [destruct (m <? n)%N|];
      try exact Hfront.
    cbn [Js.keys map fst] in Hk, Hnd |- *.
    inversion Hnd as [|? ? Hk0 Hrest]; subst.
    constructor.
    + intros Hin. apply (keys_insert_index o n k v k0) in Hin.
      destruct Hin as [->|Hin]; [apply Hk; now left|exact (Hk0 Hin)].
    + apply IH; [|exact Hrest]. intros Hin. apply Hk. now right.
Qed.

(** No assignment gives an object two properties of one name. *)
Lemma assign_NoDup {V} (o : Js.obj V) k v :
  NoDup (Js.keys o) -> NoDup (Js.keys (Js.assign o k v)).
Proof.
  intros Hnd. unfold Js.assign.
  destruct (Js.has o k) eqn:Hhas; [now apply keys_set_NoDup|].
  destruct (String.eqb k "__proto__"); [exact Hnd|].
  destruct (Js.index_of k); [|now apply keys_set_NoDup].
  apply insert_index_NoDup; [|exact Hnd].
  apply get_None_keys. now apply has_false.
Qed.

(** Array indices are filed in ascending order before the other names,
    whatever the order of the assignments, and [__proto__] is not kept. *)
Example assign_files_indices_first :
  Js.assign (Js.assign (Js.assign (Js.assign [] "b" 1) "10" 2) "2" 3)
    "__proto__" 4
  = [("2", 3); ("10", 2); ("b", 1)]
  /\ Js.assign [("2", 3); ("10", 2); ("b", 1)] "10" 5
     = [("2", 3); ("10", 5); ("b", 1)]
  /\ Js.index_of "10" = Some 10%N
  /\ Js.index_of "010" = None
  /\ Js.index_of "4294967295" = None
  /\ Js.index_of "1e3" = None.
Proof. repeat split. Qed.

(** ** [orderObjectByKeys] *)

Section Ordering.

Context {V : Type}.
Variable o : Js.obj V.

Let step (ordered : Js.obj V) (key : string) : Js.obj V :=
  match Js.get o key with
  | Some v => Js.set ordered key v
  | None => ordered
  end.

Lemma order_fold_keys (order : list string) (acc : Js.obj V) :
  Js.keys (fold_left step order acc)
  = (Js.keys acc
       ++ Js.uniq_from (Js.keys acc) (filter (Js.has o) order))%list.
Proof.
  revert acc. induction order as [|x order IH]; intros acc; simpl.
  - now rewrite app_nil_r.
  - rewrite IH. unfold Js.has at 2. unfold step at 1 2.
    destruct (Js.get o x) as [v|]; simpl; auto.
    rewrite keys_set.
    destruct (Js.mem x (Js.keys acc)); auto.
    now rewrite <- app_assoc.
Qed.

Lemma order_fold_get (order : list string) (acc : Js.obj V) (k : string) :
  Js.get (fold_left step order acc) k
  = if Js.mem k order
    then match Js.get o k with Some v => Some v | None => Js.get acc k end
    else Js.get acc k.
Proof.
  revert acc. induction order as [|x order IH]; intros acc; simpl; auto.
  rewrite IH. unfold step.
  destruct (String.eqb k x) eqn:E; simpl.
  - apply String.eqb_eq in E. subst x.
    destruct (Js.get o k) as [v|] eqn:G.
    + rewrite get_set_same. now destruct (Js.mem k order).
    + now destruct (Js.mem k order).
  - apply String.eqb_neq in E.
    destruct (Js.get o x) as [v|]; auto.
    rewrite get_set_other by congruence. reflexivity.
Qed.

End Ordering.

(** On any names: a name the order list does not hold is not in the
    result. *)
Lemma order_any_unlisted {V} (inherited : string -> V) (o : Js.obj V)
  (order : list string) (k : string) :
  ~ In k order ->
  Js.get (Utils.orderObjectByKeys_any inherited o order) k = None.
Proof.
  unfold Utils.orderObjectByKeys_any.
  assert (forall acc,
             ~ In k order ->
             Js.get
               (fold_left
                  (fun ordered key =>
                     if Js.has_in o key
                     then Js.assign ordered key (Js.get_in inherited o key)
                     else ordered)
                  order acc) k
             = Js.get acc k) as Hfold.
  { induction order as [|x order IH]; intros acc Hk; [reflexivity|].
    cbn [fold_left]. rewrite IH by (intros Hin; apply Hk; now right).
    destruct (Js.has_in o x); [|reflexivity].
    apply get_assign_other. intros ->. apply Hk. now left. }
  intros Hk. now rewrite Hfold.
Qed.

(** On an order list of ordinary names the function on any names is the
    function on records. *)
Lemma order_any_ordinary {V} (inherited : string -> V) (o : Js.obj V)
  (order : list string) :
  forallb Js.ordinary order = true ->
  Utils.orderObjectByKeys_any inherited o order
  = Utils.orderObjectByKeys o order.
Proof.
  unfold Utils.orderObjectByKeys_any, Utils.orderObjectByKeys.
  generalize (@nil (string * V)).
  induction order as [|x order IH]; intros acc Hord; [reflexivity|].
  cbn [forallb] in Hord. apply andb_prop in Hord.
  destruct Hord as [Hx Hord]. cbn [fold_left].
  rewrite (has_in_ordinary o x Hx). unfold Js.has, Js.get_in.
  destruct (Js.get o x) as [v|]; [|now apply IH].
  rewrite assign_appended; [now apply IH|].
  unfold Js.ordinary in Hx. apply andb_prop in Hx. tauto.
Qed.

Lemma ordered_keys_listed {V} (o : Js.obj V) (order : list string) :
  incl (Js.keys (Utils.orderObjectByKeys o order)) order.
Proof.
  intros k Hin.
  destruct (Js.mem k order) eqn:M; [now apply mem_In|].
  exfalso. revert Hin. apply get_None_keys.
  unfold Utils.orderObjectByKeys. rewrite order_fold_get, M. reflexivity.
Qed.

(** C10 (as the code has it). On an order list of ordinary property
    names (no array index, no name that [Object.prototype] provides)
    [orderObjectByKeys] keeps exactly the members of its input that the
    list names, in the sequence of the list (a name listed twice stays at
    its first place), each with the value it had; on every object and
    every order list, a name the list does not hold is dropped.  The
    field-order constants hold ordinary names only; hence the record that
    each update operation (trip, hotel, flight, transport, activity)
    posts has no member outside the operation's field-order constant. *)
Theorem orderObjectByKeys_keeps_listed_fields :
  (forall (V : Type) (inherited : string -> V) (o : Js.obj V)
          (order : list string),
      (forall k : string,
          ~ In k order ->
          Js.get (Utils.orderObjectByKeys_any inherited o order) k = None)
      /\ (forallb Js.ordinary order = true ->
          Js.keys (Utils.orderObjectByKeys_any inherited o order)
          = Js.first_occurrences (filter (Js.has o) order)
          /\ (forall k : string,
                 Js.get (Utils.orderObjectByKeys_any inherited o order) k
                 = if Js.mem k order then Js.get o k else None)
          /\ Utils.orderObjectByKeys_any inherited o order
             = Utils.orderObjectByKeys o order))
  /\ (forallb Js.ordinary Utils.TRIP_UPDATE_FIELD_ORDER = true
      /\ forallb Js.ordinary Utils.LODGING_FIELD_ORDER = true
      /\ forallb Js.ordinary Utils.AIR_FIELD_ORDER = true
      /\ forallb Js.ordinary Utils.AIR_SEGMENT_FIELD_ORDER = true
      /\ forallb Js.ordinary Utils.TRANSPORT_FIELD_ORDER = true
      /\ forallb Js.ordinary Utils.TRANSPORT_SEGMENT_FIELD_ORDER = true
      /\ forallb Js.ordinary Utils.ACTIVITY_FIELD_ORDER = true
      /\ forallb Js.ordinary Utils.ADDRESS_FIELD_ORDER = true)
  /\ (forall record : Js.obj Utils.value,
         incl (Utils.payload_fields (Utils.updateTrip_payload record) "Trip")
              Utils.TRIP_UPDATE_FIELD_ORDER
         /\ incl (Utils.payload_fields (Utils.updateHotel_payload record)
                    "LodgingObject")
                 Utils.LODGING_FIELD_ORDER
         /\ incl (Utils.payload_fields (Utils.updateFlight_payload record)
                    "AirObject")
                 Utils.AIR_FIELD_ORDER
         /\ incl (Utils.payload_fields (Utils.updateTransport_payload record)
                    "TransportObject")
                 Utils.TRANSPORT_FIELD_ORDER
         /\ incl (Utils.payload_fields (Utils.updateActivity_payload record)
                    "ActivityObject")
                 Utils.ACTIVITY_FIELD_ORDER).
Proof.
  split; [|split].
  - intros V inherited o order. split.
    + intros k. apply order_any_unlisted.
    + intros Hord. rewrite (order_any_ordinary inherited o order Hord).
      split; [|split; [|reflexivity]].
      * unfold Utils.orderObjectByKeys, Js.first_occurrences.
        now rewrite order_fold_keys.
      * intros k. unfold Utils.orderObjectByKeys.
        rewrite order_fold_get. simpl.
        destruct (Js.mem k order); auto. now destruct (Js.get o k).
  - repeat split.
  - intros record. repeat split; apply ordered_keys_listed.
Qed.

(** ** Encodings *)

(** The digest on the standard's one-block and two-block messages. *)
Example sha256_one_block :
  Codec.hex (Sha256.sha256 "abc")
  = "ba7816bf8f01cfea414140de5dae2223b00361a396177a9cb410ff61f20015ad".
Proof. vm_compute. reflexivity. Qed.

Example sha256_two_blocks :
  Codec.hex
    (Sha256.sha256
       "abcdbcdecdefdefgefghfghighijhijkijkljklmklmnlmnomnopnopq")
  = "248d6a61d20638b8e5c026930c3e6039a33ce45964ff2167f6ecedd419db06c1".
Proof. vm_compute. reflexivity. Qed.

(** The two patterns of [submitLogin] on typical answers. *)
Example meta_refresh_target :
  match_meta_url "0;URL=/callback?code=XYZ&state=S1"
  = Some "/callback?code=XYZ&state=S1"
  /\ match_meta_url "0;url=/callback" = None.
Proof. split; reflexivity. Qed.

Example script_redirect_target :
  match_js_redirect "window.location.href = 'com.tripit://x?code=1';"
  = Some "com.tripit://x?code=1"
  /\ match_js_redirect "window.location = 'unterminated" = None.
Proof. split; reflexivity. Qed.

Lemma byteZ_range (b : Byte.byte) : 0 <= Codec.byteZ b < 256.
Proof.
  unfold Codec.byteZ. pose proof (Byte.to_N_bounded b). lia.
Qed.

(** A boolean property checked on [0 .. n-1] holds below [n]. *)
Lemma forall_below (n : nat) (p : Z -> bool) :
  forallb p (map Z.of_nat (seq 0 n)) = true ->
  forall x, 0 <= x < Z.of_nat n -> p x = true.
Proof.
  intros H x Hx. rewrite forallb_forall in H. apply H.
  apply in_map_iff. exists (Z.to_nat x). split; [lia|].
  apply in_seq. lia.
Qed.

Lemma forall_bytes (p : Z -> bool) :
  forallb p (map Z.of_nat (seq 0 256)) = true ->
  forall b : Byte.byte, p (Codec.byteZ b) = true.
Proof.
  intros H b. apply (forall_below 256 p H). apply byteZ_range.
Qed.

Lemma forall_byte_pairs (p : Z -> Z -> bool) :
  forallb (fun x => forallb (p x) (map Z.of_nat (seq 0 256)))
          (map Z.of_nat (seq 0 256)) = true ->
  forall a b : Byte.byte, p (Codec.byteZ a) (Codec.byteZ b) = true.
Proof.
  intros H a b.
  apply (forall_bytes (p (Codec.byteZ a))).
  apply (forall_bytes
           (fun x => forallb (p x) (map Z.of_nat (seq 0 256))) H a).
Qed.

Lemma replace_both_cons c s :
  Codec.replace_all "/" "_" (Codec.replace_all "+" "-" (String c s))
  = String (url_safe_char c)
      (Codec.replace_all "/" "_" (Codec.replace_all "+" "-" s)).
Proof. reflexivity. Qed.

(** Position by position the two alphabets differ by the replacements. *)
Lemma url_digit (i : Z) :
  url_safe_char (Codec.digit_of Codec.base64_alphabet i)
  = Codec.digit_of Codec.base64url_alphabet i.
Proof.
  unfold Codec.digit_of. generalize (Z.to_nat i). intros n.
  do 64 (destruct n as [|n]; [reflexivity|]). reflexivity.
Qed.

Lemma url_digit_not_pad (i : Z) :
  Ascii.eqb (Codec.digit_of Codec.base64url_alphabet i) "=" = false.
Proof.
  unfold Codec.digit_of. generalize (Z.to_nat i). intros n.
  do 64 (destruct n as [|n]; [reflexivity|]). reflexivity.
Qed.

Lemma strip_trailing_keep c x s :
  Ascii.eqb x c = false ->
  Codec.strip_trailing c (String x s)
  = String x (Codec.strip_trailing c s).
Proof.
  intros H. simpl. rewrite H. now destruct (Codec.strip_trailing c s).
Qed.

(** Induction over a buffer three bytes at a time. *)
Lemma triple_ind (Q : Codec.bytes -> Prop) :
  Q [] ->
  (forall a, Q [a]) ->
  (forall a b, Q [a; b]) ->
  (forall a b c rest, Q rest -> Q (a :: b :: c :: rest)) ->
  forall buf, Q buf.
Proof.
  intros H0 H1 H2 H3.
  assert (forall buf, Q buf /\ (forall a, Q (a :: buf))
                     /\ (forall a b, Q (a :: b :: buf))) as H.
  { induction buf as [|x buf [IH0 [IH1 IH2]]].
    - repeat split; auto.
    - repeat split; auto. }
  intros buf. apply H.
Qed.

(** The code's pipeline (standard base64, then the two replacements, then
    the padding removed) is base64url without padding. *)
Lemma challenge_pipeline_is_base64url (buf : Codec.bytes) :
  Codec.strip_trailing "="
    (Codec.replace_all "/" "_"
       (Codec.replace_all "+" "-" (Codec.base64 buf)))
  = Codec.base64url_unpadded buf.
Proof.
  unfold Codec.base64, Codec.base64url_unpadded.
  induction buf as [|a|a b|a b c rest IH] using triple_ind.
  - reflexivity.
  - cbn [Codec.base64_with append].
    rewrite !replace_both_cons, !url_digit.
    rewrite !strip_trailing_keep by apply url_digit_not_pad.
    reflexivity.
  - cbn [Codec.base64_with append].
    rewrite !replace_both_cons, !url_digit.
    rewrite !strip_trailing_keep by apply url_digit_not_pad.
    reflexivity.
  - cbn [Codec.base64_with].
    rewrite !replace_both_cons, !url_digit.
    rewrite !strip_trailing_keep by apply url_digit_not_pad.
    now rewrite IH.
Qed.

Lemma encodeURIComponent_keep c s :
  unreserved c = true ->
  Codec.encodeURIComponent (String c s)
  = String c (Codec.encodeURIComponent s).
Proof.
  unfold unreserved. intros H. cbn [Codec.encodeURIComponent].
  now rewrite H.
Qed.

Lemma sextet1_unreserved (a : Byte.byte) :
  unreserved (Codec.digit_of Codec.base64url_alphabet
                (Codec.sextet1 (Codec.byteZ a))) = true.
Proof.
  apply (forall_bytes
           (fun x => unreserved (Codec.digit_of Codec.base64url_alphabet
                                   (Codec.sextet1 x)))).
  vm_compute. reflexivity.
Qed.

Lemma sextet4_unreserved (a : Byte.byte) :
  unreserved (Codec.digit_of Codec.base64url_alphabet
                (Codec.sextet4 (Codec.byteZ a))) = true.
Proof.
  apply (forall_bytes
           (fun x => unreserved (Codec.digit_of Codec.base64url_alphabet
                                   (Codec.sextet4 x)))).
  vm_compute. reflexivity.
Qed.

Lemma sextet2_unreserved (a b : Byte.byte) :
  unreserved (Codec.digit_of Codec.base64url_alphabet
                (Codec.sextet2 (Codec.byteZ a) (Codec.byteZ b))) = true.
Proof.
  apply (forall_byte_pairs
           (fun x y => unreserved (Codec.digit_of Codec.base64url_alphabet
                                     (Codec.sextet2 x y)))).
  vm_compute. reflexivity.
Qed.

Lemma sextet3_unreserved (a b : Byte.byte) :
  unreserved (Codec.digit_of Codec.base64url_alphabet
                (Codec.sextet3 (Codec.byteZ a) (Codec.byteZ b))) = true.
Proof.
  apply (forall_byte_pairs
           (fun x y => unreserved (Codec.digit_of Codec.base64url_alphabet
                                     (Codec.sextet3 x y)))).
  vm_compute. reflexivity.
Qed.

Lemma sextet2_short_unreserved (a : Byte.byte) :
  unreserved (Codec.digit_of Codec.base64url_alphabet
                (Codec.sextet2 (Codec.byteZ a) 0)) = true.
Proof. apply (sextet2_unreserved a Byte.x00). Qed.

Lemma sextet3_short_unreserved (a : Byte.byte) :
  unreserved (Codec.digit_of Codec.base64url_alphabet
                (Codec.sextet3 (Codec.byteZ a) 0)) = true.
Proof. apply (sextet3_unreserved a Byte.x00). Qed.

(** A base64url text passes through [encodeURIComponent] unchanged. *)
Lemma encodeURIComponent_base64url (buf : Codec.bytes) :
  Codec.encodeURIComponent (Codec.base64url_unpadded buf)
  = Codec.base64url_unpadded buf.
Proof.
  unfold Codec.base64url_unpadded.
  induction buf as [|a|a b|a b c rest IH] using triple_ind;
    cbn [Codec.base64_with append].
  - reflexivity.
  - rewrite !encodeURIComponent_keep;
      auto using sextet1_unreserved, sextet2_short_unreserved.
  - rewrite !encodeURIComponent_keep;
      auto using sextet1_unreserved, sextet2_unreserved,
                 sextet3_short_unreserved.
  - rewrite !encodeURIComponent_keep;
      auto using sextet1_unreserved, sextet2_unreserved,
                 sextet3_unreserved, sextet4_unreserved.
    now rewrite IH.
Qed.

(** Hexadecimal text can be read back: it carries every byte. *)
Lemma unhex_hex_byte (b : Byte.byte) (rest : string) :
  Codec.unhex (Codec.hex_byte b ++ rest)
  = option_map (cons b) (Codec.unhex rest).
Proof.
  destruct b; cbn; destruct (Codec.unhex rest); reflexivity.
Qed.

Lemma unhex_hex (buf : Codec.bytes) : Codec.unhex (Codec.hex buf) = Some buf.
Proof.
  induction buf as [|b buf IH]; [reflexivity|].
  cbn [Codec.hex]. rewrite unhex_hex_byte, IH. reflexivity.
Qed.

Lemma hex_length (buf : Codec.bytes) :
  String.length (Codec.hex buf) = (2 * List.length buf)%nat.
Proof.
  induction buf as [|b buf IH]; [reflexivity|].
  cbn [Codec.hex List.length]. unfold Codec.hex_byte.
  cbn [append String.length]. lia.
Qed.

(** ** What each step does to the world *)

Lemma quiet_ret {A} allowed (a : A) : quiet allowed (ret a).
Proof.
  intros w. cbn. repeat split. exists []. now rewrite app_nil_r.
Qed.

Lemma quiet_throw {A} allowed (e : exn) : quiet allowed (@throw A e).
Proof.
  intros w. cbn. repeat split. exists []. now rewrite app_nil_r.
Qed.

Lemma quiet_bind {A B} allowed (c : M A) (k : A -> M B) :
  quiet allowed c -> (forall a, quiet allowed (k a)) ->
  quiet allowed (bind c k).
Proof.
  intros Hc Hk w. unfold bind. specialize (Hc w).
  destruct (c w) as [[a|e] w1]; cbn in Hc.
  - destruct Hc as [Hf [Hd [He [l1 [Hs Hl1]]]]].
    destruct (Hk a w1) as [Hf' [Hd' [He' [l2 [Hs' Hl2]]]]].
    repeat split; try congruence.
    exists (l1 ++ l2)%list. split.
    + rewrite Hs', Hs. now rewrite app_assoc.
    + now apply Forall_app.
  - exact Hc.
Qed.

Lemma quiet_fetch allowed (req : Request) :
  allowed req -> quiet allowed (fetch req).
Proof.
  intros Hreq w. unfold fetch.
  destruct (inbox w); cbn;
    (split; [|split; [|split]]; try reflexivity; exists [req]; auto).
Qed.

Lemma quiet_randomBytes allowed (n : nat) : quiet allowed (randomBytes n).
Proof.
  intros w. cbn. repeat split. exists []. now rewrite app_nil_r.
Qed.

Lemma quiet_Date_now allowed : quiet allowed Date_now.
Proof.
  intros w. cbn. repeat split. exists []. now rewrite app_nil_r.
Qed.

Lemma quiet_loadCachedToken allowed : quiet allowed loadCachedToken.
Proof.
  intros w.
  assert (snd (loadCachedToken w) = w) as ->
    by (unfold loadCachedToken; now destruct (cache_file w)).
  repeat split. exists []. now rewrite app_nil_r.
Qed.

Lemma quiet_weaken {A} (p q : Request -> Prop) (c : M A) :
  (forall r, p r -> q r) -> quiet p c -> quiet q c.
Proof.
  intros Hpq Hc w. destruct (Hc w) as [Hf [Hd [He [l [Hs Hl]]]]].
  repeat split; auto. exists l. split; auto.
  eapply Forall_impl; eauto.
Qed.

Create HintDb effects.

#[local] Hint Resolve quiet_ret quiet_throw quiet_randomBytes quiet_Date_now
  quiet_loadCachedToken : effects.

(** Breaks a computation down along its binds, branches and primitives. *)
Ltac quiet_steps :=
  repeat first
    [ solve [auto 1 with effects nocore]
    | apply quiet_fetch; reflexivity
    | apply quiet_bind; [|intros ?]
    | match goal with
      | |- quiet _ (match ?x with _ => _ end) => destruct x
      | |- quiet _ (if ?b then _ else _) => destruct b
      end ].

Lemma quiet_followRedirects_loop P n url :
  quiet by_session (followRedirects_loop P n url).
Proof.
  revert url. induction n as [|n IH]; intros url;
    cbn [followRedirects_loop]; quiet_steps; apply IH.
Qed.

Lemma quiet_followRedirects P url :
  quiet by_session (followRedirects P url).
Proof. apply quiet_followRedirects_loop. Qed.

Lemma quiet_redirect_in_page doc : quiet by_session (redirect_in_page doc).
Proof. unfold redirect_in_page. quiet_steps. Qed.

#[local] Hint Resolve quiet_followRedirects quiet_redirect_in_page : effects.

Lemma quiet_submitLogin P config html page :
  quiet by_session (submitLogin P config html page).
Proof. unfold submitLogin. quiet_steps. Qed.

#[local] Hint Resolve quiet_submitLogin : effects.

Lemma quiet_exchangeCodeForToken P config code verifier :
  quiet (fun _ => True) (exchangeCodeForToken P config code verifier).
Proof.
  unfold exchangeCodeForToken. quiet_steps; try apply quiet_fetch; auto.
Qed.

Lemma quiet_authenticate_login P config :
  quiet by_session (authenticate_login P config).
Proof. unfold authenticate_login. quiet_steps. Qed.

(** A run of a quiet computation, read off one result. *)
Lemma quiet_run {A} allowed (c : M A) w r w' :
  quiet allowed c -> c w = (r, w') ->
  cache_file w' = cache_file w
  /\ disk_writable w' = disk_writable w
  /\ exists l, sent w' = (sent w ++ l)%list /\ Forall allowed l.
Proof.
  intros Hc E. destruct (Hc w) as [Hf [Hd [_ Hs]]].
  rewrite E in Hf, Hd, Hs. cbn in *. auto.
Qed.

(** ** The cache decision *)

Lemma authenticate_hit P config w token :
  cache_hit w = Some token ->
  authenticate P config w = (Ok (access_token token), w).
Proof.
  unfold cache_hit, authenticate, bind, loadCachedToken.
  destruct (cache_file w) as [| |t]; try discriminate.
  cbn. destruct (expiresAt t) as [e|]; try discriminate.
  destruct (e >? now w); try discriminate.
  now intros [= ->].
Qed.

Lemma authenticate_miss P config w :
  cache_hit w = None ->
  authenticate P config w = full_flow P config w.
Proof.
  unfold cache_hit, authenticate, bind, loadCachedToken.
  destruct (cache_file w) as [| |t]; try reflexivity.
  cbn. destruct (expiresAt t) as [e|]; try reflexivity.
  destruct (e >? now w); [discriminate|reflexivity].
Qed.

Lemma appends_of_quiet {A} allowed (c : M A) :
  quiet allowed c -> appends c.
Proof.
  intros Hc w. destruct (Hc w) as [_ [_ [_ [l [Hs _]]]]]. now exists l.
Qed.

Lemma appends_bind {A B} (c : M A) (k : A -> M B) :
  appends c -> (forall a, appends (k a)) -> appends (bind c k).
Proof.
  intros Hc Hk w. unfold bind. destruct (Hc w) as [l Hl].
  destruct (c w) as [[a|e] w1]; cbn in Hl.
  - destruct (Hk a w1) as [l' Hs].
    exists (l ++ l')%list. rewrite Hs, Hl. now rewrite <- app_assoc.
  - now exists l.
Qed.

Lemma appends_cacheToken tokenResponse : appends (cacheToken tokenResponse).
Proof.
  intros w. unfold cacheToken, bind, Date_now, writeTokenFile.
  exists []. destruct (disk_writable w); cbn; now rewrite app_nil_r.
Qed.

Lemma appends_authenticate_redeem P config p :
  appends (authenticate_redeem P config p).
Proof.
  unfold authenticate_redeem.
  repeat first
    [ apply appends_cacheToken
    | apply (appends_of_quiet (fun _ => True));
      solve [ auto 1 with effects nocore
            | apply quiet_exchangeCodeForToken ]
    | apply appends_bind; [|intros ?]
    | match goal with
      | |- appends (match ?x with _ => _ end) => destruct x
      | |- appends (if ?b then _ else _) => destruct b
      end ].
Qed.

Lemma starts_with_fetch {A} (req : Request) (k : Response -> M A) :
  (forall a, appends (k a)) -> starts_with req (bind (fetch req) k).
Proof.
  intros Hk w. unfold bind, fetch.
  destruct (inbox w) as [|res rest]; cbn.
  - now exists [].
  - match goal with
    | |- context [k res ?w0] =>
        destruct (Hk res w0) as [l Hs]; exists l;
        rewrite Hs; cbn; now rewrite <- app_assoc
    end.
Qed.

Lemma starts_with_bind {A B} (req : Request) (c : M A) (k : A -> M B) :
  starts_with req c -> (forall a, appends (k a)) ->
  starts_with req (bind c k).
Proof.
  intros Hc Hk w. unfold bind. destruct (Hc w) as [l Hl].
  destruct (c w) as [[a|e] w1]; cbn in Hl.
  - destruct (Hk a w1) as [l' Hs].
    exists (l ++ l')%list. rewrite Hs, Hl.
    now rewrite <- app_assoc.
  - now exists l.
Qed.

Lemma authenticate_login_opens_session P config :
  starts_with home_request (authenticate_login P config).
Proof.
  unfold authenticate_login. apply starts_with_fetch.
  intros _. apply (appends_of_quiet by_session). quiet_steps.
Qed.

Lemma full_flow_opens_session P config :
  starts_with home_request (full_flow P config).
Proof.
  unfold full_flow. apply starts_with_bind.
  - apply authenticate_login_opens_session.
  - intros p. apply appends_authenticate_redeem.
Qed.

(** C2. A cached token whose [expiresAt] lies after the current time is
    returned as it is and the world is left as it was (no request is
    issued); with a cached token whose [expiresAt] is at or before the
    current time, or with no readable cache file, [authenticate] is the
    full login flow, which begins by requesting the home page. *)
Theorem cached_token_short_circuits :
  forall (P : Platform) (config : TripItConfig) (w : World),
    (forall token e,
        cache_file w = Stored token -> expiresAt token = Some e ->
        e > now w ->
        authenticate P config w = (Ok (access_token token), w))
    /\ (forall token e,
           cache_file w = Stored token -> expiresAt token = Some e ->
           e <= now w ->
           authenticate P config w = full_flow P config w)
    /\ (cache_file w = Absent \/ cache_file w = Corrupt ->
        authenticate P config w = full_flow P config w)
    /\ starts_with home_request (full_flow P config).
Proof.
  intros P config w. repeat split.
  - intros token e Hfile Hexp Hlt. apply authenticate_hit.
    unfold cache_hit. rewrite Hfile, Hexp.
    destruct (Z.gtb_spec e (now w)); [reflexivity|lia].
  - intros token e Hfile Hexp Hle. apply authenticate_miss.
    unfold cache_hit. rewrite Hfile, Hexp.
    destruct (Z.gtb_spec e (now w)); [lia|reflexivity].
  - intros [Hfile|Hfile]; apply authenticate_miss;
      unfold cache_hit; now rewrite Hfile.
  - apply full_flow_opens_session.
Qed.

(** ** The state check *)

Lemma fetch_keeps_random req w r w' :
  fetch req w = (r, w') -> entropy w' = entropy w /\ drawn w' = drawn w.
Proof.
  unfold fetch. destruct (inbox w); intros [= <- <-]; auto.
Qed.

(** The material a successful first half returns is the hex text of the
    bytes drawn: 32 for the verifier, then 16 for the state. *)
Lemma authenticate_login_material P config w p w1 :
  authenticate_login P config w = (Ok p, w1) ->
  codeVerifier p = Codec.hex (map (entropy w) (seq (drawn w) 32))
  /\ state p = Codec.hex (map (entropy w) (seq (drawn w + 32) 16)).
Proof.
  unfold authenticate_login, bind at 1.
  destruct (fetch home_request w) as [[r|e] w0] eqn:E0; [|discriminate].
  destruct (fetch_keeps_random _ _ _ _ E0) as [He Hd].
  unfold bind at 1. cbn [randomBytes]. unfold bind at 1.
  cbn [randomBytes entropy drawn]. unfold bind at 1.
  match goal with
  | |- context [followRedirects P ?u ?w2] =>
      destruct (followRedirects P u w2) as [[form|e] w3]; [|discriminate]
  end.
  unfold bind, ret.
  destruct (submitLogin P config (fst form) (snd form) w3) as [[r'|e] w4];
    [|discriminate].
  intros [= <- <-]. cbn. rewrite He, Hd. auto.
Qed.

Lemma redeem_state_mismatch P config p parsed w :
  URL_new P (redirectUrl p) "http://localhost" = Some parsed ->
  searchParams_get (searchParams parsed) "state" <> Some (state p) ->
  authenticate_redeem P config p w = (Threw (Error "OAuth state mismatch"), w).
Proof.
  intros Hurl Hneq. unfold authenticate_redeem. rewrite Hurl.
  destruct (searchParams_get (searchParams parsed) "state") as [s|]
    eqn:Hs; cbn; [|reflexivity].
  destruct (String.eqb_spec s (state p)) as [->|Hne]; [congruence|].
  reflexivity.
Qed.

(** C1. When an attempt is made (no unexpired cached token) and the
    [state] parameter of the final redirect URL is absent or is not exactly
    the state generated for the attempt, [authenticate] throws
    "OAuth state mismatch"; the world is the one the login step left, and
    every request issued since the start went through the session client:
    the token endpoint was not called.  The generated state is the hex
    text of the 16 random bytes drawn after the verifier's 32. *)
Theorem state_mismatch_fails_closed :
  forall (P : Platform) (config : TripItConfig) (w w1 : World)
         (p : Pending) (parsed : URL),
    cache_hit w = None ->
    authenticate_login P config w = (Ok p, w1) ->
    URL_new P (redirectUrl p) "http://localhost" = Some parsed ->
    searchParams_get (searchParams parsed) "state" <> Some (state p) ->
    authenticate P config w = (Threw (Error "OAuth state mismatch"), w1)
    /\ no_token_request_since w w1
    /\ cache_file w1 = cache_file w
    /\ state p = Codec.hex (map (entropy w) (seq (drawn w + 32) 16)).
Proof.
  intros P config w w1 p parsed Hmiss Hlogin Hurl Hneq.
  destruct (quiet_run _ _ _ _ _ (quiet_authenticate_login P config) Hlogin)
    as [Hcache [_ Hsent]].
  repeat split; auto.
  - rewrite (authenticate_miss _ _ _ Hmiss).
    unfold full_flow, bind. rewrite Hlogin.
    now apply redeem_state_mismatch with parsed.
  - apply (authenticate_login_material _ _ _ _ _ Hlogin).
Qed.

(** ** The PKCE material *)

Lemma append_assoc (a b c : string) : ((a ++ b) ++ c = a ++ b ++ c)%string.
Proof. induction a as [|x a IH]; cbn; [reflexivity|now rewrite IH]. Qed.

Lemma codeChallenge_of_spec (codeVerifier : string) :
  codeChallenge_of codeVerifier
  = Codec.base64url_unpadded (Sha256.sha256 codeVerifier).
Proof. apply challenge_pipeline_is_base64url. Qed.

(** Where the challenge sits in the authorize URL. *)
Lemma authUrl_holds_challenge config st (digest : Codec.bytes) :
  contains
    ("&code_challenge=" ++ Codec.base64url_unpadded digest
       ++ "&code_challenge_method=S256")
    (authUrl_of config st (Codec.base64url_unpadded digest)).
Proof.
  unfold contains, authUrl_of. rewrite encodeURIComponent_base64url.
  exists (BASE_URL ++ "/auth/oauth2/authorize?"
          ++ "client_id=" ++ Codec.encodeURIComponent (clientId config)
          ++ "&response_type=code"
          ++ "&redirect_uri=" ++ Codec.encodeURIComponent REDIRECT_URI
          ++ "&scope=" ++ Codec.encodeURIComponent SCOPES
          ++ "&state=" ++ Codec.encodeURIComponent st).
  exists "&response_mode=query&action=sign_in".
  rewrite !append_assoc. reflexivity.
Qed.

Lemma login_requests_authorize_url P config w res rest :
  inbox w = res :: rest ->
  exists l,
    sent (snd (authenticate_login P config w))
    = (sent w
         ++ home_request
         :: page_request
              (authUrl_of config
                 (Codec.hex (map (entropy w) (seq (drawn w + 32) 16)))
                 (codeChallenge_of
                    (Codec.hex (map (entropy w) (seq (drawn w) 32)))))
         :: l)%list.
Proof.
  intros Hin. unfold authenticate_login, bind at 1.
  unfold fetch at 1. rewrite Hin.
  unfold bind at 1. cbn [randomBytes]. unfold bind at 1.
  cbn [randomBytes entropy drawn].
  match goal with
  | |- context [bind (followRedirects P ?u) ?k ?w2] =>
      assert (starts_with (page_request u) (bind (followRedirects P u) k))
        as Hstart;
      [| destruct (Hstart w2) as [l Hl]; exists l; rewrite Hl; cbn;
         now rewrite <- app_assoc ]
  end.
  apply starts_with_bind.
  - unfold followRedirects. cbn [followRedirects_loop].
    apply starts_with_fetch. intros a.
    apply (appends_of_quiet by_session). quiet_steps.
  - intros form. apply (appends_of_quiet by_session). quiet_steps.
Qed.

(** C3. Once the home page has answered, the second request of the flow
    goes to the authorize URL built from the attempt's state and code
    challenge; the challenge is base64url without padding (RFC 4648
    section 5) of the SHA-256 digest of the verifier, and it stands in the
    URL as it is, between [&code_challenge=] and the method parameter.
    The verifier is the 64-character hex text of 32 random bytes, all of
    which can be read back from it. *)
Theorem code_challenge_is_base64url_sha256 :
  forall (P : Platform) (config : TripItConfig) (w : World)
         (res : Response) (rest : list Response),
    inbox w = res :: rest ->
    let verifierBytes := map (entropy w) (seq (drawn w) 32) in
    let stateBytes := map (entropy w) (seq (drawn w + 32) 16) in
    let codeVerifier := Codec.hex verifierBytes in
    let challenge :=
      Codec.base64url_unpadded (Sha256.sha256 codeVerifier) in
    codeChallenge_of codeVerifier = challenge
    /\ (exists l,
           sent (snd (authenticate_login P config w))
           = (sent w
                ++ home_request
                :: page_request
                     (authUrl_of config (Codec.hex stateBytes) challenge)
                :: l)%list)
    /\ contains
         ("&code_challenge=" ++ challenge ++ "&code_challenge_method=S256")
         (authUrl_of config (Codec.hex stateBytes) challenge)
    /\ List.length verifierBytes = 32%nat
    /\ String.length codeVerifier = 64%nat
    /\ Codec.unhex codeVerifier = Some verifierBytes.
Proof.
  intros P config w res rest Hin verifierBytes stateBytes codeVerifier
         challenge.
  assert (List.length verifierBytes = 32%nat) as Hlen
    by (unfold verifierBytes; now rewrite length_map, length_seq).
  split; [|split; [|split; [|split; [|split]]]].
  - apply codeChallenge_of_spec.
  - unfold challenge. rewrite <- codeChallenge_of_spec.
    apply (login_requests_authorize_url P config w res rest Hin).
  - apply authUrl_holds_challenge.
  - exact Hlen.
  - unfold codeVerifier. now rewrite hex_length, Hlen.
  - apply unhex_hex.
Qed.

(** ** The login form resolver *)

Lemma loop_follows P remaining url w res rest loc next :
  inbox w = res :: rest ->
  status res = 302 \/ status res = 303 ->
  Js.truthy (location res) = Some loc ->
  URL_new P loc url = Some next ->
  followRedirects_loop P (S remaining) url w
  = followRedirects_loop P remaining (href next)
      (snd (fetch (page_request url) w)).
Proof.
  intros Hin Hst Hloc Hurl.
  cbn [followRedirects_loop]. unfold bind, fetch. rewrite Hin. cbn [snd].
  replace ((status res =? 302) || (status res =? 303)) with true
    by (destruct Hst as [-> | ->]; reflexivity).
  now rewrite Hloc, Hurl.
Qed.

Lemma loop_stops P remaining url w res rest :
  inbox w = res :: rest ->
  status res <> 302 -> status res <> 303 ->
  followRedirects_loop P (S remaining) url w
  = (if (count_inputs_named (cheerio_load P (body res)) "username" =? 0)%nat
        || (count_inputs_named (cheerio_load P (body res)) "password" =? 0)%nat
     then Threw (Error "Login form not found")
     else Ok (body res, url),
     snd (fetch (page_request url) w)).
Proof.
  intros Hin H302 H303.
  cbn [followRedirects_loop]. unfold bind, fetch. rewrite Hin. cbn [snd].
  replace ((status res =? 302) || (status res =? 303)) with false
    by (symmetry; apply orb_false_intro; now apply Z.eqb_neq).
  now destruct (_ || _).
Qed.

Lemma fetch_logs req w :
  sent (snd (fetch req w)) = (sent w ++ [req])%list.
Proof. unfold fetch. now destruct (inbox w). Qed.

Lemma fetch_takes req w res rest :
  inbox w = res :: rest -> inbox (snd (fetch req w)) = rest.
Proof. unfold fetch. now intros ->. Qed.

Lemma loop_starts_with P remaining url :
  starts_with (page_request url) (followRedirects_loop P (S remaining) url).
Proof.
  cbn [followRedirects_loop]. apply starts_with_fetch. intros a.
  apply (appends_of_quiet by_session). quiet_steps.
  apply quiet_followRedirects_loop.
Qed.

(** C4 (as the code has it). A 302 or 303 answer with a non-empty
    [Location] that resolves against the current URL is followed: the loop
    goes on at the resolved URL and, while the limit of five requests
    leaves a turn, the next request goes there.  An answer with any other
    status, other 3xx codes included, ends the loop after that one
    request: its body is searched for the login form. *)
Theorem only_302_and_303_are_followed :
  forall (P : Platform) (remaining : nat) (url : string) (w : World)
         (res : Response) (rest : list Response),
    inbox w = res :: rest ->
    (forall loc next,
        status res = 302 \/ status res = 303 ->
        Js.truthy (location res) = Some loc ->
        URL_new P loc url = Some next ->
        followRedirects_loop P (S remaining) url w
        = followRedirects_loop P remaining (href next)
            (snd (fetch (page_request url) w))
        /\ exists l,
            sent (snd (followRedirects_loop P (S (S remaining)) url w))
            = (sent w ++ page_request url
                 :: page_request (href next) :: l)%list)
    /\ (status res <> 302 -> status res <> 303 ->
        sent (snd (followRedirects_loop P (S remaining) url w))
        = (sent w ++ [page_request url])%list
        /\ (fst (followRedirects_loop P (S remaining) url w)
            = Ok (body res, url)
            \/ fst (followRedirects_loop P (S remaining) url w)
               = Threw (Error "Login form not found"))).
Proof.
  intros P remaining url w res rest Hin. split.
  - intros loc next Hst Hloc Hurl. split.
    + now apply loop_follows with res rest loc.
    + rewrite (loop_follows P (S remaining) url w res rest loc next)
        by assumption.
      destruct (loop_starts_with P remaining (href next)
                  (snd (fetch (page_request url) w))) as [l Hl].
      exists l. rewrite Hl, fetch_logs. now rewrite <- app_assoc.
  - intros H302 H303.
    rewrite (loop_stops P remaining url w res rest) by assumption.
    cbn [fst snd]. split; [apply fetch_logs|].
    destruct (_ || _); auto.
Qed.

Lemma loop_bound P n :
  forall url w,
    (List.length (sent (snd (followRedirects_loop P n url w)))
     <= List.length (sent w) + n)%nat.
Proof.
  induction n as [|n IH]; intros url w.
  - cbn. lia.
  - cbn [followRedirects_loop]. unfold bind.
    pose proof (fetch_logs (page_request url) w) as Hlog.
    destruct (fetch (page_request url) w) as [[res|e] w1]; cbn [snd] in *.
    + assert (List.length (sent w1) = S (List.length (sent w))) as Hlen
        by (rewrite Hlog, length_app; cbn; lia).
      destruct ((status res =? 302) || (status res =? 303)).
      * destruct (Js.truthy (location res)) as [loc|]; cbn; [|lia].
        destruct (URL_new P loc url) as [next|]; cbn; [|lia].
        specialize (IH (href next) w1). lia.
      * destruct (_ || _); cbn; lia.
    + rewrite Hlog, length_app. cbn. lia.
Qed.

Lemma loop_chain P n :
  forall url w,
    redirect_chain P n url (inbox w) = true ->
    exists w',
      followRedirects_loop P n url w
      = (Threw (Error "Too many redirects while getting login form"), w')
      /\ List.length (sent w') = (List.length (sent w) + n)%nat
      /\ inbox w' = skipn n (inbox w).
Proof.
  induction n as [|n IH]; intros url w Hchain.
  - exists w. cbn. repeat split. lia.
  - cbn [redirect_chain] in Hchain.
    destruct (inbox w) as [|res rest] eqn:Hin; [discriminate|].
    apply andb_prop in Hchain. destruct Hchain as [Hst Hchain].
    destruct (Js.truthy (location res)) as [loc|] eqn:Hloc; [|discriminate].
    destruct (URL_new P loc url) as [next|] eqn:Hurl; [|discriminate].
    assert (status res = 302 \/ status res = 303) as Hst'
      by (apply orb_prop in Hst; destruct Hst as [H|H];
          apply Z.eqb_eq in H; auto).
    rewrite (loop_follows P n url w res rest loc next) by assumption.
    destruct (IH (href next) (snd (fetch (page_request url) w)))
      as [w' [Hrun [Hlen Hbox]]].
    + now rewrite (fetch_takes _ _ _ _ Hin).
    + exists w'. split; [exact Hrun|]. split.
      * rewrite Hlen, fetch_logs, length_app. cbn. lia.
      * rewrite Hbox, (fetch_takes _ _ _ _ Hin). reflexivity.
Qed.

Lemma loop_along_chain P n :
  forall k url w,
    redirect_chain P n url (inbox w) = true ->
    exists w',
      followRedirects_loop P (n + k) url w
      = followRedirects_loop P k (Terms.chain_end P n url (inbox w)) w'
      /\ sent w'
         = (sent w
              ++ map page_request (Terms.chain_hops P n url (inbox w)))%list
      /\ inbox w' = skipn n (inbox w).
Proof.
  induction n as [|n IH]; intros k url w Hchain.
  - exists w. cbn. rewrite app_nil_r. auto.
  - cbn [redirect_chain] in Hchain.
    destruct (inbox w) as [|res rest] eqn:Hin; [discriminate|].
    apply andb_prop in Hchain. destruct Hchain as [Hst Hchain].
    cbn [Terms.chain_end Terms.chain_hops].
    destruct (Js.truthy (location res)) as [loc|] eqn:Hloc; [|discriminate].
    destruct (URL_new P loc url) as [next|] eqn:Hurl; [|discriminate].
    assert (status res = 302 \/ status res = 303) as Hst'
      by (apply orb_prop in Hst; destruct Hst as [H|H];
          apply Z.eqb_eq in H; auto).
    cbn [Nat.add].
    rewrite (loop_follows P (n + k) url w res rest loc next) by assumption.
    destruct (IH k (href next) (snd (fetch (page_request url) w)))
      as [w' [Hrun [Hsent Hbox]]].
    + now rewrite (fetch_takes _ _ _ _ Hin).
    + rewrite (fetch_takes _ _ _ _ Hin) in Hrun, Hsent, Hbox.
      exists w'. split; [exact Hrun|]. split; [|exact Hbox].
      rewrite Hsent, fetch_logs, <- app_assoc. reflexivity.
Qed.

Lemma chain_hops_length P n :
  forall url answers,
    redirect_chain P n url answers = true ->
    List.length (Terms.chain_hops P n url answers) = n.
Proof.
  induction n as [|n IH]; intros url answers Hchain; [reflexivity|].
  destruct answers as [|res rest]; [discriminate|].
  cbn [redirect_chain Terms.chain_hops] in Hchain |- *.
  apply andb_prop in Hchain. destruct Hchain as [_ Hchain].
  destruct (Js.truthy (location res)) as [loc|]; [|discriminate].
  destruct (URL_new P loc url) as [next|]; [|discriminate].
  cbn [List.length]. f_equal. now apply IH.
Qed.

(** Whatever the answers, the requests of the loop are page requests, at
    most as many as iterations are allowed, the first one to the URL it
    starts at. *)
Lemma loop_requests P n :
  forall url w,
    exists asked,
      sent (snd (followRedirects_loop P n url w))
      = (sent w ++ map page_request asked)%list
      /\ (List.length asked <= n)%nat
      /\ (n <> 0%nat -> hd_error asked = Some url).
Proof.
  induction n as [|n IH]; intros url w.
  - exists []. cbn. rewrite app_nil_r. repeat split; [lia|tauto].
  - assert (exists asked,
               (sent w ++ [page_request url])%list
               = (sent w ++ map page_request asked)%list
               /\ (List.length asked <= S n)%nat
               /\ (S n <> 0%nat -> hd_error asked = Some url)) as Hone.
    { exists [url]. cbn. repeat split. lia. }
    cbn [followRedirects_loop]. unfold bind.
    pose proof (fetch_logs (page_request url) w) as Hlog.
    destruct (fetch (page_request url) w) as [[res|e] w1]; cbn [snd] in *;
      [|rewrite Hlog; exact Hone].
    destruct ((status res =? 302) || (status res =? 303)).
    + destruct (Js.truthy (location res)) as [loc|]; cbn [snd throw];
        [|rewrite Hlog; exact Hone].
      destruct (URL_new P loc url) as [next|]; cbn [snd throw];
        [|rewrite Hlog; exact Hone].
      destruct (IH (href next) w1) as [asked [Hsent [Hlen _]]].
      exists (url :: asked). rewrite Hsent, Hlog, <- app_assoc.
      cbn. repeat split. lia.
    + destruct (_ || _); cbn [snd throw ret]; rewrite Hlog; exact Hone.
Qed.

(** C9 (as the code has it). [followRedirects] never issues more than
    five requests, all of them page requests, the first to the URL it is
    given; when the next five answers are all redirects it follows
    (status 302 or 303, with a location that resolves), it throws "Too
    many redirects while getting login form" after exactly five requests:
    one to the URL it is given and one to each of the first four
    locations, having consumed exactly those five answers. *)
Theorem redirect_chase_stops_at_five :
  forall (P : Platform) (url : string) (w : World),
    (List.length (sent (snd (followRedirects P url w)))
     <= List.length (sent w) + 5)%nat
    /\ (exists asked,
           sent (snd (followRedirects P url w))
           = (sent w ++ map page_request asked)%list
           /\ (List.length asked <= 5)%nat
           /\ hd_error asked = Some url)
    /\ (redirect_chain P 5 url (inbox w) = true ->
        exists w',
          followRedirects P url w
          = (Threw (Error "Too many redirects while getting login form"),
             w')
          /\ sent w'
             = (sent w
                  ++ map page_request (Terms.chain_hops P 5 url (inbox w)))%list
          /\ List.length (Terms.chain_hops P 5 url (inbox w)) = 5%nat
          /\ List.length (sent w') = (List.length (sent w) + 5)%nat
          /\ inbox w' = skipn 5 (inbox w)).
Proof.
  intros P url w. split; [|split].
  - apply loop_bound.
  - destruct (loop_requests P 5 url w) as [asked [Hsent [Hlen Hhead]]].
    exists asked. split; [exact Hsent|]. split; [exact Hlen|].
    apply Hhead. discriminate.
  - intros Hchain.
    destruct (loop_along_chain P 5 0 url w Hchain)
      as [w' [Hrun [Hsent Hbox]]].
    exists w'. split; [exact Hrun|]. split; [exact Hsent|].
    pose proof (chain_hops_length P 5 url (inbox w) Hchain) as Hlen.
    split; [exact Hlen|]. split; [|exact Hbox].
    rewrite Hsent, length_app, length_map, Hlen. reflexivity.
Qed.

(** ** The login submitter *)

Lemma redirect_in_page_world doc w : snd (redirect_in_page doc w) = w.
Proof.
  unfold redirect_in_page.
  destruct (negb _); [reflexivity|].
  destruct (match Js.truthy (meta_refresh_content doc) with
            | Some meta => match_meta_url meta
            | None => None
            end); [reflexivity|].
  now destruct (match_js_redirect (script_text doc)).
Qed.

(** With an action that resolves, [submitLogin] issues exactly one
    request: the form post. *)
Lemma submitLogin_posts P config formHtml formAction w action finalUrl :
  Js.truthy (first_form_action (cheerio_load P formHtml)) = Some action ->
  URL_new P action formAction = Some finalUrl ->
  sent (snd (submitLogin P config formHtml formAction w))
  = (sent w
       ++ [login_request (href finalUrl) formAction
             (submitData_of config (cheerio_load P formHtml))])%list.
Proof.
  intros Hact Hurl. unfold submitLogin. rewrite Hact, Hurl.
  unfold bind.
  pose proof (fetch_logs
                (login_request (href finalUrl) formAction
                   (submitData_of config (cheerio_load P formHtml))) w)
    as Hlog.
  destruct (fetch _ w) as [[res|e] w1]; cbn [snd] in *; [|exact Hlog].
  destruct (status res =? 403); [exact Hlog|].
  destruct ((status res =? 302) || (status res =? 303)).
  - now destruct (Js.truthy (location res)).
  - destruct (status res =? 200); [|exact Hlog].
    now rewrite redirect_in_page_world.
Qed.

Lemma submitLogin_without_action P config formHtml formAction w :
  Js.truthy (first_form_action (cheerio_load P formHtml)) = None ->
  submitLogin P config formHtml formAction w
  = (Threw (Error "No form action URL found"), w).
Proof. intros Hact. unfold submitLogin. now rewrite Hact. Qed.

Lemma collect_other_names name (l : list Input) :
  forall acc,
    (forall el, In el l -> Js.truthy (input_name el) <> Some name) ->
    Js.get (fold_left collectField l acc) name = Js.get acc name.
Proof.
  induction l as [|el l IH]; intros acc Hl; [reflexivity|].
  cbn [fold_left]. rewrite IH by (intros el' Hin; apply Hl; now right).
  unfold collectField.
  destruct (Js.truthy (input_name el)) as [n|] eqn:Hn; [|reflexivity].
  apply get_assign_other. intros ->. apply (Hl el); [now left|exact Hn].
Qed.

(** Nothing is captured under [__proto__], whatever the inputs. *)
Lemma collect_no_proto (l : list Input) :
  forall acc,
    Js.get acc "__proto__" = None ->
    Js.get (fold_left collectField l acc) "__proto__" = None.
Proof.
  induction l as [|el l IH]; intros acc Hacc; [exact Hacc|].
  cbn [fold_left]. apply IH. unfold collectField.
  destruct (Js.truthy (input_name el)); [|exact Hacc].
  now apply get_assign_proto.
Qed.

(** The value captured under a name is that of the last input with it,
    unless the name is [__proto__]. *)
Lemma collect_last_wins name before el after :
  Js.truthy (input_name el) = Some name ->
  (forall el', In el' after -> Js.truthy (input_name el') <> Some name) ->
  Js.get (collectFields (before ++ el :: after)) name
  = if String.eqb name "__proto__" then None else Some (field_value el).
Proof.
  intros Hname Hafter.
  destruct (String.eqb_spec name "__proto__") as [->|Hne].
  - now apply collect_no_proto.
  - unfold collectFields.
    rewrite fold_left_app. cbn [fold_left].
    rewrite collect_other_names by assumption.
    unfold collectField at 1. rewrite Hname. now apply get_assign_same.
Qed.

(** Nothing is captured under a name that no input carries. *)
Lemma collect_only_names name (inputs : list Input) :
  (forall el, In el inputs -> Js.truthy (input_name el) <> Some name) ->
  Js.get (collectFields inputs) name = None.
Proof.
  intros H. unfold collectFields. now rewrite collect_other_names.
Qed.

(** The names captured are those the inputs carry, [__proto__] left
    out, each once. *)
Lemma collect_named name (l : list Input) :
  forall acc,
    Js.get (fold_left collectField l acc) name <> None
    <-> Js.get acc name <> None
        \/ (name <> "__proto__"
            /\ exists el,
                In el l /\ Js.truthy (input_name el) = Some name).
Proof.
  induction l as [|el l IH]; intros acc; cbn [fold_left].
  - split; [now left|]. intros [H|[_ [el [[] _]]]]. exact H.
  - rewrite IH. unfold collectField.
    destruct (Js.truthy (input_name el)) as [n|] eqn:Hn.
    + rewrite get_assign_defined. split.
      * intros [[H|[-> Hproto]]|[Hproto [el' [Hin Hname]]]].
        -- now left.
        -- right. split; [exact Hproto|]. exists el. split; [now left|auto].
        -- right. split; [exact Hproto|]. exists el'. split; [now right|auto].
      * intros [H|[Hproto [el' [[<-|Hin] Hname]]]].
        -- left. now left.
        -- left. right. split; congruence.
        -- right. split; [exact Hproto|]. now exists el'.
    + split.
      * intros [H|[Hproto [el' [Hin Hname]]]]; [now left|].
        right. split; [exact Hproto|]. exists el'. split; [now right|auto].
      * intros [H|[Hproto [el' [[<-|Hin] Hname]]]]; [now left|congruence|].
        right. split; [exact Hproto|]. now exists el'.
Qed.

Lemma collect_NoDup (l : list Input) :
  forall acc,
    NoDup (Js.keys acc) -> NoDup (Js.keys (fold_left collectField l acc)).
Proof.
  induction l as [|el l IH]; intros acc Hacc; [exact Hacc|].
  cbn [fold_left]. apply IH. unfold collectField.
  destruct (Js.truthy (input_name el)); [|exact Hacc].
  now apply assign_NoDup.
Qed.

Lemma submitData_NoDup config doc :
  NoDup (Js.keys (submitData_of config doc)).
Proof.
  unfold submitData_of. do 2 apply assign_NoDup.
  apply collect_NoDup. constructor.
Qed.

(** The names posted: the two credentials and the names the inputs
    carry, [__proto__] left out. *)
Lemma submitData_names config doc name :
  In name (Js.keys (submitData_of config doc))
  <-> name = "username" \/ name = "password"
      \/ (name <> "__proto__"
          /\ exists el,
              In el (flat_map form_inputs (forms doc))
              /\ Js.truthy (input_name el) = Some name).
Proof.
  rewrite <- get_defined_keys. unfold submitData_of.
  rewrite !get_assign_defined. unfold collectFields.
  rewrite collect_named. cbn [Js.get].
  split.
  - intros [[[H|H]|[<- _]]|[<- _]]; auto. congruence.
  - intros [->|[->|H]].
    + left. right. split; [reflexivity|discriminate].
    + right. split; [reflexivity|discriminate].
    + left. left. now right.
Qed.

Lemma submitData_credentials config doc :
  Js.get (submitData_of config doc) "username" = Some (username config)
  /\ Js.get (submitData_of config doc) "password" = Some (password config).
Proof.
  unfold submitData_of. split.
  - rewrite get_assign_other by discriminate.
    apply get_assign_same. discriminate.
  - apply get_assign_same. discriminate.
Qed.

Lemma submitData_other config doc name :
  name <> "username" -> name <> "password" ->
  Js.get (submitData_of config doc) name
  = Js.get (collectFields (flat_map form_inputs (forms doc))) name.
Proof.
  intros Hu Hp. unfold submitData_of.
  rewrite !get_assign_other by congruence. reflexivity.
Qed.

Lemma submitData_no_proto config doc :
  Js.get (submitData_of config doc) "__proto__" = None.
Proof.
  rewrite submitData_other by discriminate. now apply collect_no_proto.
Qed.

(** Fields whose names are array indices go out first, in ascending
    order, as the object enumerates them. *)
Example numbered_fields_go_first :
  collectFields
    [ {| input_name := Some "b"; input_value := Some "1" |};
      {| input_name := Some "10"; input_value := Some "2" |};
      {| input_name := Some "2"; input_value := None |};
      {| input_name := None; input_value := Some "3" |} ]
  = [("2", ""); ("10", "2"); ("b", "1")].
Proof. reflexivity. Qed.

(** C5 (as the code has it). The posted body is the URL-encoding of the
    captured fields with [username] and [password] set to the
    credentials: every other name goes out with the value captured for
    it, which is the value of the (last) input carrying that name, and a
    name no input carries is not sent; each name goes out once.  The one
    exception is an input named [__proto__]: nothing is captured under
    that name and it is not sent.  On the sample form
    [{csrf_token: abc123, username, password}] with credentials
    user1/pass1 the body is
    [csrf_token=abc123&username=user1&password=pass1], and it is the same
    when the form has one more field, named [__proto__]. *)
Theorem login_form_fields_are_resubmitted :
  forall (P : Platform) (config : TripItConfig)
         (formHtml formAction : string) (w : World)
         (action : string) (finalUrl : URL),
    let doc := cheerio_load P formHtml in
    let inputs := flat_map form_inputs (forms doc) in
    let submitted := submitData_of config doc in
    Js.truthy (first_form_action doc) = Some action ->
    URL_new P action formAction = Some finalUrl ->
    (exists req,
        sent (snd (submitLogin P config formHtml formAction w))
        = (sent w ++ [req])%list
        /\ req_method req = POST
        /\ req_url req = href finalUrl
        /\ req_body req = Some (Codec.urlencoded submitted))
    /\ Js.get submitted "username" = Some (username config)
    /\ Js.get submitted "password" = Some (password config)
    /\ (forall name,
           name <> "username" -> name <> "password" ->
           Js.get submitted name = Js.get (collectFields inputs) name)
    /\ (forall name before el after,
           inputs = (before ++ el :: after)%list ->
           Js.truthy (input_name el) = Some name ->
           (forall el', In el' after ->
                        Js.truthy (input_name el') <> Some name) ->
           Js.get (collectFields inputs) name
           = if String.eqb name "__proto__" then None
             else Some (field_value el))
    /\ (forall name,
           (forall el, In el inputs ->
                       Js.truthy (input_name el) <> Some name) ->
           Js.get (collectFields inputs) name = None)
    /\ Js.get submitted "__proto__" = None
    /\ NoDup (Js.keys submitted)
    /\ (forall name,
           In name (Js.keys submitted)
           <-> name = "username" \/ name = "password"
               \/ (name <> "__proto__"
                   /\ exists el,
                       In el inputs
                       /\ Js.truthy (input_name el) = Some name))
    /\ submitData_of Sample.config Sample.login_doc
       = [ ("csrf_token", "abc123"); ("username", "user1");
           ("password", "pass1") ]
    /\ Codec.urlencoded (submitData_of Sample.config Sample.login_doc)
       = "csrf_token=abc123&username=user1&password=pass1"
    /\ map input_name
         (flat_map form_inputs (forms Sample.crafted_doc))
       = [ Some "csrf_token"; Some "__proto__"; Some "username";
           Some "password" ]
    /\ submitData_of Sample.config Sample.crafted_doc
       = [ ("csrf_token", "abc123"); ("username", "user1");
           ("password", "pass1") ]
    /\ Codec.urlencoded (submitData_of Sample.config Sample.crafted_doc)
       = "csrf_token=abc123&username=user1&password=pass1".
Proof.
  intros P config formHtml formAction w action finalUrl doc inputs
         submitted Hact Hurl.
  split; [|split; [|split; [|split; [|split; [|split; [|split;
    [|split; [|split]]]]]]]].
  - exists (login_request (href finalUrl) formAction submitted).
    split; [|repeat split].
    now apply submitLogin_posts with action.
  - apply submitData_credentials.
  - apply submitData_credentials.
  - intros name. apply submitData_other.
  - intros name before el after Heq Hname Hafter.
    rewrite Heq. now apply collect_last_wins.
  - intros name. apply collect_only_names.
  - apply submitData_no_proto.
  - apply submitData_NoDup.
  - intros name. apply submitData_names.
  - repeat split.
Qed.

(** C7 (as the code has it). The form is posted to the [action] attribute
    of the page's first form, resolved against the URL of the page that
    served it; when that attribute is missing or empty, [submitLogin]
    throws "No form action URL found" and posts nothing: there is no
    fallback to the page's own URL. *)
Theorem form_action_is_resolved_or_rejected :
  forall (P : Platform) (config : TripItConfig)
         (formHtml formAction : string) (w : World),
    let doc := cheerio_load P formHtml in
    (forall action finalUrl,
        Js.truthy (first_form_action doc) = Some action ->
        URL_new P action formAction = Some finalUrl ->
        exists req,
          sent (snd (submitLogin P config formHtml formAction w))
          = (sent w ++ [req])%list
          /\ req_method req = POST
          /\ req_url req = href finalUrl)
    /\ (Js.truthy (first_form_action doc) = None ->
        submitLogin P config formHtml formAction w
        = (Threw (Error "No form action URL found"), w)).
Proof.
  intros P config formHtml formAction w doc. split.
  - intros action finalUrl Hact Hurl.
    exists (login_request (href finalUrl) formAction
              (submitData_of config doc)).
    split; [|split; reflexivity].
    now apply submitLogin_posts with action.
  - apply submitLogin_without_action.
Qed.

(** ** The token exchanger and the cache write *)

Lemma exchange_rejected P config code verifier w res rest :
  inbox w = res :: rest -> ok res = false ->
  exchangeCodeForToken P config code verifier w
  = (Threw (Error ("Token exchange failed (" ++ Codec.decimal (status res)
                   ++ "): " ++ body res)),
     snd (fetch (token_request config code verifier) w)).
Proof.
  intros Hin Hok. unfold exchangeCodeForToken, bind, fetch.
  rewrite Hin. cbn [snd]. now rewrite Hok.
Qed.

Lemma exchange_accepted P config code verifier w res rest :
  inbox w = res :: rest -> ok res = true ->
  exchangeCodeForToken P config code verifier w
  = (match JSON_parse P (body res) with
     | Some tokenResponse => Ok tokenResponse
     | None => Threw JsonError
     end,
     snd (fetch (token_request config code verifier) w)).
Proof.
  intros Hin Hok. unfold exchangeCodeForToken, bind, fetch.
  rewrite Hin. cbn [snd]. rewrite Hok. cbn [negb].
  now destruct (JSON_parse P (body res)).
Qed.

Lemma fetch_keeps_cache req w :
  cache_file (snd (fetch req w)) = cache_file w.
Proof. unfold fetch. now destruct (inbox w). Qed.

Lemma cacheToken_run tokenResponse w :
  (disk_writable w = true ->
   fst (cacheToken tokenResponse w) = Ok tt
   /\ cache_file (snd (cacheToken tokenResponse w))
      = Stored (cached_of (now w) tokenResponse)
   /\ now (snd (cacheToken tokenResponse w)) = now w)
  /\ (disk_writable w = false ->
      cacheToken tokenResponse w = (Threw FsError, w)).
Proof.
  unfold cacheToken, bind, Date_now, writeTokenFile.
  split; intros ->; cbn; auto.
Qed.

(** The second half of the flow either leaves the cache file alone or
    succeeds, having stored a token whose expiry was computed from the
    clock at that moment. *)
Lemma redeem_cache_effect P config p w r w' :
  authenticate_redeem P config p w = (r, w') ->
  cache_file w' = cache_file w
  \/ (exists token tokenResponse,
         r = Ok token
         /\ cache_file w' = Stored (cached_of (now w') tokenResponse)).
Proof.
  unfold authenticate_redeem.
  destruct (URL_new P (redirectUrl p) "http://localhost") as [parsed|];
    [|intros [= <- <-]; now left].
  destruct (negb _); [intros [= <- <-]; now left|].
  destruct (Js.truthy (searchParams_get (searchParams parsed) "code"))
    as [code|]; [|intros [= <- <-]; now left].
  unfold bind at 1.
  destruct (exchangeCodeForToken P config code (codeVerifier p) w)
    as [[t|e] w2] eqn:Hex.
  - destruct (quiet_run _ _ _ _ _
                (quiet_exchangeCodeForToken P config code (codeVerifier p))
                Hex) as [Hcache [Hdisk _]].
    destruct (Js.truthy (tr_access_token t));
      [|intros [= <- <-]; now left].
    unfold bind, ret.
    destruct (cacheToken_run t w2) as [Hyes Hno].
    destruct (disk_writable w2) eqn:Hd.
    + destruct (Hyes eq_refl) as [Hr [Hfile Hnow]].
      destruct (cacheToken t w2) as [[u|e] w3]; cbn in *; [|discriminate].
      intros [= <- <-]. right. exists (tr_access_token t), t.
      split; [reflexivity|]. now rewrite Hfile, Hnow.
    + rewrite (Hno eq_refl). intros [= <- <-]. now left.
  - destruct (quiet_run _ _ _ _ _
                (quiet_exchangeCodeForToken P config code (codeVerifier p))
                Hex) as [Hcache _].
    intros [= <- <-]. now left.
Qed.

Lemma authenticate_cache_effect P config w r w' :
  authenticate P config w = (r, w') ->
  cache_file w' = cache_file w
  \/ (exists token tokenResponse,
         r = Ok token
         /\ cache_file w' = Stored (cached_of (now w') tokenResponse)).
Proof.
  destruct (cache_hit w) as [token|] eqn:Hhit.
  - rewrite (authenticate_hit _ _ _ _ Hhit). intros [= <- <-]. now left.
  - rewrite (authenticate_miss _ _ _ Hhit). unfold full_flow, bind.
    destruct (authenticate_login P config w) as [[p|e] w1] eqn:Hlogin.
    + destruct (quiet_run _ _ _ _ _ (quiet_authenticate_login P config)
                  Hlogin) as [Hcache _].
      intros Hredeem. rewrite <- Hcache.
      exact (redeem_cache_effect P config p w1 r w' Hredeem).
    + destruct (quiet_run _ _ _ _ _ (quiet_authenticate_login P config)
                  Hlogin) as [Hcache _].
      intros [= <- <-]. now left.
Qed.

Lemma contains_middle (a b c : string) : contains b (a ++ b ++ c).
Proof. now exists a, c. Qed.

Lemma contains_end (a b : string) : contains b (a ++ b).
Proof.
  exists a, "". f_equal. induction b as [|x b IH]; cbn; congruence.
Qed.

(** The second half of the flow, once the state and the code are in
    order, is the token exchange followed by the check of its answer. *)
Lemma redeem_reaches_exchange P config p parsed code w :
  URL_new P (redirectUrl p) "http://localhost" = Some parsed ->
  searchParams_get (searchParams parsed) "state" = Some (state p) ->
  Js.truthy (searchParams_get (searchParams parsed) "code") = Some code ->
  authenticate_redeem P config p w
  = bind (exchangeCodeForToken P config code (codeVerifier p))
      (fun tokenResponse =>
         match Js.truthy (tr_access_token tokenResponse) with
         | None => throw (Error "No access_token in response")
         | Some _ =>
             bind (cacheToken tokenResponse)
               (fun _ => ret (tr_access_token tokenResponse))
         end) w.
Proof.
  intros Hurl Hstate Hcode. unfold authenticate_redeem.
  rewrite Hurl, Hstate, Hcode, String.eqb_refl. reflexivity.
Qed.

(** C6. A token endpoint answer outside 200-299 makes the exchange throw
    "Token exchange failed (status): body", a message that holds both the
    status in decimal (400 reads "400") and the body; a 2xx answer whose
    JSON has no (or an empty) [access_token] makes [authenticate] throw
    "No access_token in response".  In both cases, and whenever
    [authenticate] throws, the cache file is what it was. *)
Theorem token_exchange_failure_caches_nothing :
  forall (P : Platform) (config : TripItConfig) (w : World),
    (forall code verifier res rest,
        inbox w = res :: rest -> ok res = false ->
        let message :=
          "Token exchange failed (" ++ Codec.decimal (status res)
          ++ "): " ++ body res in
        fst (exchangeCodeForToken P config code verifier w)
        = Threw (Error message)
        /\ contains (Codec.decimal (status res)) message
        /\ contains (body res) message
        /\ cache_file (snd (exchangeCodeForToken P config code verifier w))
           = cache_file w)
    /\ (forall p parsed code res rest,
           URL_new P (redirectUrl p) "http://localhost" = Some parsed ->
           searchParams_get (searchParams parsed) "state"
           = Some (state p) ->
           Js.truthy (searchParams_get (searchParams parsed) "code")
           = Some code ->
           inbox w = res :: rest ->
           (ok res = false ->
            fst (authenticate_redeem P config p w)
            = Threw (Error ("Token exchange failed ("
                            ++ Codec.decimal (status res)
                            ++ "): " ++ body res))
            /\ cache_file (snd (authenticate_redeem P config p w))
               = cache_file w)
           /\ (forall tokenResponse,
                  ok res = true ->
                  JSON_parse P (body res) = Some tokenResponse ->
                  Js.truthy (tr_access_token tokenResponse) = None ->
                  fst (authenticate_redeem P config p w)
                  = Threw (Error "No access_token in response")
                  /\ cache_file (snd (authenticate_redeem P config p w))
                     = cache_file w))
    /\ (forall e w',
           authenticate P config w = (Threw e, w') ->
           cache_file w' = cache_file w)
    /\ Codec.decimal 400 = "400".
Proof.
  intros P config w. split; [|split; [|split]].
  - intros code verifier res rest Hin Hok message.
    rewrite (exchange_rejected P config code verifier w res rest Hin Hok).
    cbn [fst snd]. split; [reflexivity|]. split; [|split].
    + apply contains_middle.
    + unfold message.
      rewrite <- append_assoc, <- append_assoc. apply contains_end.
    + apply fetch_keeps_cache.
  - intros p parsed code res rest Hurl Hstate Hcode Hin.
    rewrite (redeem_reaches_exchange P config p parsed code w)
      by assumption.
    unfold bind. split.
    + intros Hok.
      rewrite (exchange_rejected P config code _ w res rest Hin Hok).
      cbn [fst snd]. split; [reflexivity|apply fetch_keeps_cache].
    + intros tokenResponse Hok Hjson Hmissing.
      rewrite (exchange_accepted P config code _ w res rest Hin Hok).
      rewrite Hjson, Hmissing. cbn [fst snd throw].
      split; [reflexivity|apply fetch_keeps_cache].
  - intros e w' Hrun.
    destruct (authenticate_cache_effect P config w _ _ Hrun)
      as [Hsame|[token [t [Hr _]]]]; [exact Hsame|discriminate].
  - reflexivity.
Qed.

(** C8. When [cacheToken] writes the file, the stored token's
    [expiresAt] is the clock's reading plus [(expires_in - 30) * 1000]
    milliseconds, and its other members are those of the answer; and
    whenever [authenticate] changes the cache file, the file holds a
    token whose [expiresAt] was computed in that way from the clock at the
    end of the call. *)
Theorem cached_expiry_keeps_30s_margin :
  forall (tokenResponse : TokenResponse) (w : World),
    (forall seconds,
        disk_writable w = true ->
        tr_expires_in tokenResponse = Some seconds ->
        fst (cacheToken tokenResponse w) = Ok tt
        /\ exists cached,
            cache_file (snd (cacheToken tokenResponse w)) = Stored cached
            /\ expiresAt cached = Some (now w + (seconds - 30) * 1000)
            /\ expires_in cached = Some seconds
            /\ access_token cached = tr_access_token tokenResponse
            /\ token_type cached = tr_token_type tokenResponse
            /\ scope cached = tr_scope tokenResponse)
    /\ (forall P config r w',
           authenticate P config w = (r, w') ->
           cache_file w' <> cache_file w ->
           exists cached,
             cache_file w' = Stored cached
             /\ forall seconds,
                 expires_in cached = Some seconds ->
                 expiresAt cached = Some (now w' + (seconds - 30) * 1000)).
Proof.
  intros tokenResponse w. split.
  - intros seconds Hdisk Hexp.
    destruct (cacheToken_run tokenResponse w) as [Hyes _].
    destruct (Hyes Hdisk) as [Hr [Hfile _]].
    split; [exact Hr|].
    exists (cached_of (now w) tokenResponse).
    split; [exact Hfile|]. unfold cached_of. cbn. rewrite Hexp.
    repeat split.
  - intros P config r w' Hrun Hchanged.
    destruct (authenticate_cache_effect P config w _ _ Hrun)
      as [Hsame|[token [t [_ Hfile]]]]; [contradiction|].
    exists (cached_of (now w') t). split; [exact Hfile|].
    intros seconds. unfold cached_of. cbn. now intros ->.
Qed.

(** ** The statements on the sample data *)

(** C1 on three logins: the redirect returns [state=S1] while the
    generated state is thirty-two zeros; the redirect returns no state;
    the redirect returns the generated state in upper case. *)
Lemma state_mismatch_fails_closed_witness :
  (cache_hit Sample.mismatch_world = None
   /\ searchParams_get (searchParams Sample.mismatch_parsed) "state"
      = Some "S1"
   /\ state Sample.mismatch_pending = Sample.zero_state
   /\ authenticate Sample.platform Sample.config Sample.mismatch_world
      = (Threw (Error "OAuth state mismatch"), Sample.mismatch_after)
   /\ no_token_request_since Sample.mismatch_world Sample.mismatch_after
   /\ List.length (sent Sample.mismatch_after) = 4%nat)
  /\ (searchParams_get (searchParams Sample.stateless_parsed) "state" = None
      /\ authenticate Sample.platform Sample.config Sample.stateless_world
         = (Threw (Error "OAuth state mismatch"), Sample.stateless_after)
      /\ List.length (sent Sample.stateless_after) = 4%nat)
  /\ (searchParams_get (searchParams Sample.shouting_parsed) "state"
      = Some Sample.upper_state
      /\ state Sample.shouting_pending = Sample.lower_state
      /\ authenticate Sample.platform Sample.config Sample.shouting_world
         = (Threw (Error "OAuth state mismatch"), Sample.shouting_after)
      /\ List.length (sent Sample.shouting_after) = 4%nat).
Proof.
  split; [|split].
  - split; [reflexivity|]. split; [reflexivity|]. split; [reflexivity|].
    destruct (state_mismatch_fails_closed
                Sample.platform Sample.config
                Sample.mismatch_world Sample.mismatch_after
                Sample.mismatch_pending Sample.mismatch_parsed)
      as [Hrun [Hquiet _]].
    + reflexivity.
    + vm_compute. reflexivity.
    + vm_compute. reflexivity.
    + vm_compute. discriminate.
    + split; [exact Hrun|]. split; [exact Hquiet|]. reflexivity.
  - split; [reflexivity|].
    destruct (state_mismatch_fails_closed
                Sample.platform Sample.config
                Sample.stateless_world Sample.stateless_after
                Sample.stateless_pending Sample.stateless_parsed)
      as [Hrun _].
    + reflexivity.
    + vm_compute. reflexivity.
    + vm_compute. reflexivity.
    + vm_compute. discriminate.
    + split; [exact Hrun|]. reflexivity.
  - split; [reflexivity|]. split; [reflexivity|].
    destruct (state_mismatch_fails_closed
                Sample.platform Sample.config
                Sample.shouting_world Sample.shouting_after
                Sample.shouting_pending Sample.shouting_parsed)
      as [Hrun _].
    + reflexivity.
    + vm_compute. reflexivity.
    + vm_compute. reflexivity.
    + vm_compute. discriminate.
    + split; [exact Hrun|]. reflexivity.
Defined.

(** C2 on a token that expires one millisecond from now (returned, no
    request), on one that expires now (full flow) and on a machine
    without a cache file (full flow). *)
Lemma cached_token_short_circuits_witness :
  authenticate Sample.platform Sample.config Sample.fresh_world
  = (Ok (Some "tok-0"), Sample.fresh_world)
  /\ sent Sample.fresh_world = []
  /\ authenticate Sample.platform Sample.config Sample.stale_world
     = full_flow Sample.platform Sample.config Sample.stale_world
  /\ authenticate Sample.platform Sample.config Sample.first_world
     = full_flow Sample.platform Sample.config Sample.first_world
  /\ fst (full_flow Sample.platform Sample.config Sample.stale_world)
     = Ok (Some "tok-1").
Proof.
  destruct (cached_token_short_circuits
              Sample.platform Sample.config Sample.fresh_world)
    as [Hfresh _].
  destruct (cached_token_short_circuits
              Sample.platform Sample.config Sample.stale_world)
    as [_ [Hstale _]].
  destruct (cached_token_short_circuits
              Sample.platform Sample.config Sample.first_world)
    as [_ [_ [Hfirst _]]].
  split.
  - apply (Hfresh (Sample.stored_token 1700000000001) 1700000000001);
      [reflexivity|reflexivity|vm_compute; reflexivity].
  - split; [reflexivity|]. split.
    + apply (Hstale (Sample.stored_token 1700000000000) 1700000000000);
        [reflexivity|reflexivity|vm_compute; discriminate].
    + split; [apply Hfirst; left; reflexivity|].
      vm_compute. reflexivity.
Defined.

(** C3 on the all-zero random source: the challenge in the authorize URL
    is the base64url SHA-256 of sixty-four zeros. *)
Lemma code_challenge_is_base64url_sha256_witness :
  inbox Sample.first_world
  = Sample.answer 200 None "<html>home</html>"
      :: tl (inbox Sample.first_world)
  /\ codeChallenge_of
       "0000000000000000000000000000000000000000000000000000000000000000"
     = "YOBb0bGVry-UES-nGXpciCiQWIQM58bflpN1a8YlD1U"
  /\ contains
       "&code_challenge=YOBb0bGVry-UES-nGXpciCiQWIQM58bflpN1a8YlD1U&code_challenge_method=S256"
       (authUrl_of Sample.config Sample.zero_state
          "YOBb0bGVry-UES-nGXpciCiQWIQM58bflpN1a8YlD1U")
  /\ codeChallenge_of "dBjftJeZ4CVP-mB92K27uhbUJU1p1r_wW1gFWFOEjXk"
     = "E9Melhoa2OwvFrEMTJguCHaoeK1t8URWbuGJSstw-cM".
Proof.
  pose proof (code_challenge_is_base64url_sha256
                Sample.platform Sample.config Sample.first_world
                (Sample.answer 200 None "<html>home</html>")
                (tl (inbox Sample.first_world)) eq_refl)
    as [Hchallenge [_ [Hurl _]]].
  split; [reflexivity|]. split; [vm_compute; reflexivity|].
  split; [|vm_compute; reflexivity].
  exact Hurl.
Defined.

(** C4 (as the code has it) on the first of five redirects. *)
Lemma only_302_and_303_are_followed_witness :
  followRedirects_loop Sample.platform 5 "https://www.tripit.com/a"
    Sample.looping_world
  = followRedirects_loop Sample.platform 4 "https://www.tripit.com/b"
      (snd (fetch (page_request "https://www.tripit.com/a")
              Sample.looping_world))
  /\ sent (snd (followRedirects_loop Sample.platform 1
                  "https://www.tripit.com/a" Sample.moved_world))
     = [page_request "https://www.tripit.com/a"].
Proof.
  destruct (only_302_and_303_are_followed
              Sample.platform 4 "https://www.tripit.com/a"
              Sample.looping_world
              (Sample.answer 302 (Some "https://www.tripit.com/b") "")
              (tl (inbox Sample.looping_world)) eq_refl)
    as [Hfollow _].
  destruct (only_302_and_303_are_followed
              Sample.platform 0 "https://www.tripit.com/a"
              Sample.moved_world
              (Sample.answer 301
                 (Some "https://www.tripit.com/account/login") "")
              (tl (inbox Sample.moved_world)) eq_refl)
    as [_ Hstop].
  split.
  - apply (Hfollow "https://www.tripit.com/b"
             {| href := "https://www.tripit.com/b"; searchParams := [] |});
      [left; reflexivity|reflexivity|reflexivity].
  - apply Hstop; vm_compute; discriminate.
Defined.

(** C4 as the specification states it fails on a 301: the answer carries
    a [Location], a further answer (the login page) is waiting, and yet
    the resolver stops after one request with "Login form not found";
    so not every 3xx answer with a [Location] is followed. *)
Lemma redirect_301_is_not_followed :
  (status (Sample.answer 301
             (Some "https://www.tripit.com/account/login") "") = 301
   /\ inbox Sample.moved_world
      = [ Sample.answer 301
            (Some "https://www.tripit.com/account/login") "";
          Sample.answer 200 None Sample.login_html ]
   /\ fst (followRedirects Sample.platform "https://www.tripit.com/a"
             Sample.moved_world)
      = Threw (Error "Login form not found")
   /\ sent (snd (followRedirects Sample.platform "https://www.tripit.com/a"
                   Sample.moved_world))
      = [page_request "https://www.tripit.com/a"])
  /\ ~ (forall (P : Platform) (remaining : nat) (url : string) (w : World)
               (res : Response) (rest : list Response) (loc : string)
               (next : URL),
           inbox w = res :: rest ->
           300 <= status res < 400 ->
           Js.truthy (location res) = Some loc ->
           URL_new P loc url = Some next ->
           followRedirects_loop P (S remaining) url w
           = followRedirects_loop P remaining (href next)
               (snd (fetch (page_request url) w))).
Proof.
  split.
  - vm_compute. repeat split.
  - intros H.
    assert (300 <= 301 < 400) as Hrange by lia.
    specialize (H Sample.platform 4%nat "https://www.tripit.com/a"
                  Sample.moved_world
                  (Sample.answer 301
                     (Some "https://www.tripit.com/account/login") "")
                  [Sample.answer 200 None Sample.login_html]
                  "https://www.tripit.com/account/login"
                  {| href := "https://www.tripit.com/account/login";
                     searchParams := [] |}
                  eq_refl Hrange eq_refl eq_refl).
    vm_compute in H. discriminate.
Qed.

(** C5 on the sample login page, and on the page whose form has a field
    named [__proto__]: the body is the same. *)
Lemma login_form_fields_are_resubmitted_witness :
  (Js.truthy (first_form_action
                (cheerio_load Sample.platform Sample.login_html))
   = Some "https://www.tripit.com/account/login"
   /\ exists req,
       sent (snd (submitLogin Sample.platform Sample.config
                    Sample.login_html "https://www.tripit.com/account/login"
                    Sample.posting_world))
       = [req]
       /\ req_method req = POST
       /\ req_url req = "https://www.tripit.com/account/login"
       /\ req_body req
          = Some "csrf_token=abc123&username=user1&password=pass1")
  /\ (cheerio_load Sample.crafted_platform Sample.crafted_html
      = Sample.crafted_doc
      /\ exists req,
          sent (snd (submitLogin Sample.crafted_platform Sample.config
                       Sample.crafted_html
                       "https://www.tripit.com/account/login"
                       Sample.posting_world))
          = [req]
          /\ req_method req = POST
          /\ req_url req = "https://www.tripit.com/account/login"
          /\ req_body req
             = Some "csrf_token=abc123&username=user1&password=pass1").
Proof.
  split.
  - split; [reflexivity|].
    destruct (login_form_fields_are_resubmitted
                Sample.platform Sample.config Sample.login_html
                "https://www.tripit.com/account/login" Sample.posting_world
                "https://www.tripit.com/account/login"
                {| href := "https://www.tripit.com/account/login";
                   searchParams := [] |}
                eq_refl eq_refl)
      as [[req [Hsent [Hmethod [Hurl Hbody]]]] _].
    exists req. repeat split; assumption.
  - split; [reflexivity|].
    destruct (login_form_fields_are_resubmitted
                Sample.crafted_platform Sample.config Sample.crafted_html
                "https://www.tripit.com/account/login" Sample.posting_world
                "https://www.tripit.com/account/login"
                {| href := "https://www.tripit.com/account/login";
                   searchParams := [] |}
                eq_refl eq_refl)
      as [[req [Hsent [Hmethod [Hurl Hbody]]]] _].
    exists req. repeat split; assumption.
Defined.

(** C6 on a 400 answer with an OAuth error object, and on a 200 answer
    with the same object. *)
Lemma token_exchange_failure_caches_nothing_witness :
  ok (Sample.answer 400 None Sample.invalid_grant_json) = false
  /\ fst (authenticate_redeem Sample.platform Sample.config
            Sample.good_pending Sample.refusing_world)
     = Threw (Error ("Token exchange failed (400): "
                     ++ Sample.invalid_grant_json))
  /\ cache_file (snd (authenticate_redeem Sample.platform Sample.config
                        Sample.good_pending Sample.refusing_world))
     = Absent
  /\ fst (authenticate_redeem Sample.platform Sample.config
            Sample.good_pending Sample.evasive_world)
     = Threw (Error "No access_token in response")
  /\ cache_file (snd (authenticate_redeem Sample.platform Sample.config
                        Sample.good_pending Sample.evasive_world))
     = Absent.
Proof.
  destruct (token_exchange_failure_caches_nothing
              Sample.platform Sample.config Sample.refusing_world)
    as [_ [Hrefused _]].
  destruct (token_exchange_failure_caches_nothing
              Sample.platform Sample.config Sample.evasive_world)
    as [_ [Hevasive _]].
  destruct (Hrefused Sample.good_pending Sample.good_parsed "XYZ"
              (Sample.answer 400 None Sample.invalid_grant_json) []
              eq_refl eq_refl eq_refl eq_refl)
    as [H400 _].
  destruct (Hevasive Sample.good_pending Sample.good_parsed "XYZ"
              (Sample.answer 200 None Sample.invalid_grant_json) []
              eq_refl eq_refl eq_refl eq_refl)
    as [_ H200].
  destruct (H400 eq_refl) as [Hmsg Hcache].
  destruct (H200 Sample.invalid_grant_value eq_refl eq_refl eq_refl)
    as [Hmsg' Hcache'].
  split; [reflexivity|]. repeat split; assumption.
Defined.

(** C7 (as the code has it) on the sample page and on the page whose form
    has no action. *)
Lemma form_action_is_resolved_or_rejected_witness :
  (exists req,
      sent (snd (submitLogin Sample.platform Sample.config
                   Sample.login_html "https://www.tripit.com/account/login"
                   Sample.posting_world))
      = [req]
      /\ req_method req = POST
      /\ req_url req = "https://www.tripit.com/account/login")
  /\ submitLogin Sample.platform Sample.config Sample.bare_html
       "https://www.tripit.com/account/login" Sample.posting_world
     = (Threw (Error "No form action URL found"), Sample.posting_world).
Proof.
  destruct (form_action_is_resolved_or_rejected
              Sample.platform Sample.config Sample.login_html
              "https://www.tripit.com/account/login" Sample.posting_world)
    as [Hposted _].
  destruct (form_action_is_resolved_or_rejected
              Sample.platform Sample.config Sample.bare_html
              "https://www.tripit.com/account/login" Sample.posting_world)
    as [_ Hrejected].
  split.
  - apply (Hposted "https://www.tripit.com/account/login"
             {| href := "https://www.tripit.com/account/login";
                searchParams := [] |});
      reflexivity.
  - apply Hrejected. reflexivity.
Defined.

(** C7 as the specification states it fails on a form without an
    [action]: nothing is posted, to the page's URL or elsewhere, and the
    submission fails. *)
Lemma missing_action_is_not_defaulted :
  (first_form_action (cheerio_load Sample.platform Sample.bare_html) = None
   /\ submitLogin Sample.platform Sample.config Sample.bare_html
        "https://www.tripit.com/account/login" Sample.posting_world
      = (Threw (Error "No form action URL found"), Sample.posting_world)
   /\ sent Sample.posting_world = [])
  /\ ~ (forall (P : Platform) (config : TripItConfig)
               (formHtml formAction : string) (w : World),
           first_form_action (cheerio_load P formHtml) = None ->
           exists req,
             sent (snd (submitLogin P config formHtml formAction w))
             = (sent w ++ [req])%list
             /\ req_url req = formAction).
Proof.
  split.
  - vm_compute. repeat split.
  - intros H.
    destruct (H Sample.platform Sample.config Sample.bare_html
                "https://www.tripit.com/account/login"
                Sample.posting_world eq_refl)
      as [req [Hsent _]].
    vm_compute in Hsent. discriminate.
Qed.

(** C8 on a one-hour token cached at 1700000000000: it is held to expire
    3570 seconds later. *)
Lemma cached_expiry_keeps_30s_margin_witness :
  exists cached,
    cache_file (snd (cacheToken Sample.token_value Sample.refusing_world))
    = Stored cached
    /\ expiresAt cached = Some 1700003570000
    /\ expires_in cached = Some 3600.
Proof.
  destruct (cached_expiry_keeps_30s_margin
              Sample.token_value Sample.refusing_world)
    as [Hstored _].
  destruct (Hstored 3600 eq_refl eq_refl)
    as [_ [cached [Hfile [Hexpiry [Hin _]]]]].
  exists cached. split; [exact Hfile|]. split; [exact Hexpiry|exact Hin].
Defined.

(** C9 on five redirects in a row. *)
Lemma redirect_chase_stops_at_five_witness :
  redirect_chain Sample.platform 5 "https://www.tripit.com/a"
    (inbox Sample.looping_world) = true
  /\ exists w',
      followRedirects Sample.platform "https://www.tripit.com/a"
        Sample.looping_world
      = (Threw (Error "Too many redirects while getting login form"), w')
      /\ sent w'
         = map page_request
             [ "https://www.tripit.com/a"; "https://www.tripit.com/b";
               "https://www.tripit.com/c"; "https://www.tripit.com/d";
               "https://www.tripit.com/e" ]
      /\ List.length (sent w') = 5%nat
      /\ inbox w' = [Sample.answer 200 None Sample.login_html].
Proof.
  split; [reflexivity|].
  destruct (redirect_chase_stops_at_five
              Sample.platform "https://www.tripit.com/a"
              Sample.looping_world)
    as [_ [_ Hchain]].
  destruct (Hchain eq_refl) as [w' [Hrun [Hsent [_ [Hlen Hbox]]]]].
  exists w'. split; [exact Hrun|]. split; [exact Hsent|].
  split; [exact Hlen|exact Hbox].
Defined.

(** C9 as the specification states it fails on redirects of another
    kind: the next five answers are all redirects to a new location that
    resolves (301, 307, 308, 301, 307), and yet the resolver stops after
    one request with "Login form not found", leaving the four other
    answers unread; so not every chain of redirects ends in "Too many
    redirects". *)
Lemma other_redirects_end_the_chase_at_once :
  (any_redirect_chain Sample.platform 5 "https://www.tripit.com/a"
     (inbox Sample.relocated_world) = true
   /\ map status (firstn 5 (inbox Sample.relocated_world))
      = [301; 307; 308; 301; 307]
   /\ fst (followRedirects Sample.platform "https://www.tripit.com/a"
             Sample.relocated_world)
      = Threw (Error "Login form not found")
   /\ sent (snd (followRedirects Sample.platform "https://www.tripit.com/a"
                   Sample.relocated_world))
      = [page_request "https://www.tripit.com/a"]
   /\ inbox (snd (followRedirects Sample.platform
                    "https://www.tripit.com/a" Sample.relocated_world))
      = tl (inbox Sample.relocated_world))
  /\ ~ (forall (P : Platform) (url : string) (w : World),
           any_redirect_chain P 5 url (inbox w) = true ->
           exists w',
             followRedirects P url w
             = (Threw (Error "Too many redirects while getting login form"),
                w'))
  /\ ~ (forall (P : Platform) (url : string) (w : World),
           any_redirect_chain P 5 url (inbox w) = true ->
           List.length (sent (snd (followRedirects P url w)))
           = (List.length (sent w) + 5)%nat).
Proof.
  split; [|split].
  - vm_compute. repeat split.
  - intros H.
    destruct (H Sample.platform "https://www.tripit.com/a"
                Sample.relocated_world eq_refl) as [w' Hrun].
    vm_compute in Hrun. discriminate.
  - intros H.
    specialize (H Sample.platform "https://www.tripit.com/a"
                  Sample.relocated_world eq_refl).
    vm_compute in H. discriminate.
Qed.

(** C10 on a trip record and the trip's field order. *)
Lemma orderObjectByKeys_keeps_listed_fields_witness :
  forallb Js.ordinary Utils.TRIP_UPDATE_FIELD_ORDER = true
  /\ Js.keys
       (Utils.orderObjectByKeys_any (fun _ => Utils.VUndefined)
          [ ("id", Utils.VStr "42");
            ("description", Utils.VStr "A week away");
            ("display_name", Utils.VStr "Lisbon") ]
          Utils.TRIP_UPDATE_FIELD_ORDER)
     = [ "display_name"; "description" ]
  /\ Utils.orderObjectByKeys_any (fun _ => Utils.VUndefined)
       [ ("id", Utils.VStr "42");
         ("description", Utils.VStr "A week away");
         ("display_name", Utils.VStr "Lisbon") ]
       Utils.TRIP_UPDATE_FIELD_ORDER
     = [ ("display_name", Utils.VStr "Lisbon");
         ("description", Utils.VStr "A week away") ].
Proof.
  split; [reflexivity|].
  destruct orderObjectByKeys_keeps_listed_fields as [Hany _].
  destruct (Hany Utils.value (fun _ => Utils.VUndefined)
              [ ("id", Utils.VStr "42");
                ("description", Utils.VStr "A week away");
                ("display_name", Utils.VStr "Lisbon") ]
              Utils.TRIP_UPDATE_FIELD_ORDER)
    as [_ Hordinary].
  destruct (Hordinary eq_refl) as [Hkeys [_ Hsame]].
  split; [exact Hkeys|]. rewrite Hsame. reflexivity.
Defined.

(** C10 as the specification states it fails on other names: an array
    index is filed before the other names, whatever the order list says,
    and a name that every object inherits is found in an object that
    does not have it. *)
Lemma orderObjectByKeys_files_indices_first :
  (Js.keys
     (Utils.orderObjectByKeys_any (fun _ => 0)
        [("2", 3); ("10", 2); ("b", 1)] ["b"; "10"; "2"])
   = ["2"; "10"; "b"]
   /\ Js.first_occurrences
        (filter (Js.has [("2", 3); ("10", 2); ("b", 1)]) ["b"; "10"; "2"])
      = ["b"; "10"; "2"]
   /\ Js.keys
        (Utils.orderObjectByKeys_any (fun _ => 0)
           [("a", 1)] ["toString"; "a"])
      = ["toString"; "a"]
   /\ Js.keys [("a", 1)] = ["a"])
  /\ ~ (forall (V : Type) (inherited : string -> V) (o : Js.obj V)
               (order : list string),
           Js.keys (Utils.orderObjectByKeys_any inherited o order)
           = Js.first_occurrences (filter (Js.has o) order)).
Proof.
  split.
  - repeat split.
  - intros H.
    specialize (H Z (fun _ => 0) [("2", 3); ("10", 2); ("b", 1)]
                  ["b"; "10"; "2"]).
    vm_compute in H. discriminate.
Qed.

(* ================================================================== *)
(** * Further properties: payload helpers *)
(* ================================================================== *)

Import Utils.
Import Terms.

(** Induction over a value and, with it, over the values it holds. *)
Lemma value_induction (Q : value -> Prop) :
  Q VUndefined -> Q VNull ->
  (forall b, Q (VBool b)) -> (forall n, Q (VNum n)) ->
  (forall s, Q (VStr s)) ->
  (forall items, Forall Q items -> Q (VArr items)) ->
  (forall fields, Forall (fun kv => Q (snd kv)) fields -> Q (VObj fields)) ->
  forall v, Q v.
Proof.
  intros Hu Hn Hb Hz Hs Ha Ho.
  refine (fix IH (v : value) : Q v :=
            match v with
            | VUndefined => Hu
            | VNull => Hn
            | VBool b => Hb b
            | VNum n => Hz n
            | VStr s => Hs s
            | VArr items =>
                Ha items
                  ((fix all (l : list value) : Forall Q l :=
                      match l with
                      | [] => Forall_nil Q
                      | x :: rest => Forall_cons x (IH x) (all rest)
                      end) items)
            | VObj fields =>
                Ho fields
                  ((fix all (l : list (string * value))
                      : Forall (fun kv => Q (snd kv)) l :=
                      match l with
                      | [] => Forall_nil _
                      | kv :: rest =>
                          Forall_cons kv (IH (snd kv)) (all rest)
                      end) fields)
            end).
Qed.

Lemma clean_object fields :
  clean (VObj fields) = VObj (fold_left clean_member fields []).
Proof. reflexivity. Qed.

Lemma clean_array items :
  clean (VArr items) = VArr (filter present (map clean items)).
Proof. reflexivity. Qed.

Lemma clean_present v : present (clean v) = present v.
Proof. destruct v; reflexivity. Qed.

Lemma set_Forall {V} (Q : string * V -> Prop) (o : Js.obj V) k v :
  Forall Q o -> (forall k', Q (k', v)) -> Forall Q (Js.set o k v).
Proof.
  intros Ho Hv. induction o as [|[k' w] o IH]; cbn.
  - constructor; auto.
  - inversion Ho; subst. destruct (String.eqb k' k); constructor; auto.
Qed.

Lemma clean_fold_Forall (Q : string * value -> Prop) fields :
  forall acc,
    Forall Q acc ->
    Forall (fun kv => present (snd kv) = true ->
                      forall k, Q (k, clean (snd kv))) fields ->
    Forall Q (fold_left clean_member fields acc).
Proof.
  induction fields as [|kv fields IH]; intros acc Hacc Hall; cbn; auto.
  inversion Hall; subst. apply IH; auto.
  unfold clean_member. destruct (present (snd kv)) eqn:Hp; auto.
  apply set_Forall; auto.
Qed.

Lemma forallb_Forall {A} (p : A -> bool) l :
  forallb p l = true <-> Forall (fun x => p x = true) l.
Proof.
  rewrite forallb_forall, Forall_forall. reflexivity.
Qed.

Lemma clean_tidy (v : value) : tidy (clean v) = true.
Proof.
  induction v as [| | b | n | s | items IH | fields IH]
    using value_induction; try reflexivity.
  - rewrite clean_array. cbn [tidy]. apply forallb_Forall.
    induction items as [|x items IHl]; cbn; [constructor|].
    inversion IH; subst.
    destruct (present (clean x)) eqn:Hp; auto.
    constructor; auto. now rewrite Hp.
  - rewrite clean_object. cbn [tidy]. apply forallb_Forall.
    apply (clean_fold_Forall
             (fun kv => present (snd kv) && tidy (snd kv) = true));
      [constructor|].
    eapply Forall_impl; [|exact IH].
    intros kv Hkv Hp k. cbn. now rewrite clean_present, Hp, Hkv.
Qed.

(** X1. Whatever goes in, what [clean] returns holds no [null] and no
    [undefined] below its top: not as a member of an object, not as an
    element of an array, at any depth. *)
Theorem clean_leaves_no_null_inside :
  forall v : value, tidy (clean v) = true.
Proof. exact clean_tidy. Qed.

Lemma set_fresh {V} (o : Js.obj V) k v :
  ~ In k (Js.keys o) -> Js.set o k v = (o ++ [(k, v)])%list.
Proof.
  unfold Js.keys. induction o as [|[k' w] o IH]; cbn; intros Hk; auto.
  destruct (String.eqb_spec k' k) as [->|Hne]; [tauto|].
  rewrite IH; tauto.
Qed.

(** On a record whose names are distinct, the [reduce] of [clean] adds
    the members that are not [null] or [undefined], cleaned, in order. *)
Lemma clean_fold_distinct fields :
  forall acc,
    NoDup (Js.keys fields) ->
    (forall k, In k (Js.keys fields) -> ~ In k (Js.keys acc)) ->
    fold_left clean_member fields acc
    = (acc ++ map (fun kv => (fst kv, clean (snd kv)))
             (filter (fun kv => present (snd kv)) fields))%list.
Proof.
  induction fields as [|[k v] fields IH]; intros acc Hnd Hfresh; cbn.
  - now rewrite app_nil_r.
  - cbn in Hnd. inversion Hnd as [|? ? Hk Hnd']; subst.
    unfold clean_member at 2. cbn [fst snd].
    destruct (present v) eqn:Hp; cbn.
    + rewrite set_fresh by (apply Hfresh; now left).
      rewrite IH; auto.
      * now rewrite <- app_assoc.
      * intros k' Hin Hacc. unfold Js.keys in Hacc.
        rewrite map_app, in_app_iff in Hacc. cbn in Hacc.
        destruct Hacc as [Hacc|[<-|[]]]; [|tauto].
        apply (Hfresh k'); [now right|exact Hacc].
    + apply IH; auto. intros k' Hin. apply Hfresh. now right.
Qed.

Lemma clean_object_distinct (fields : Js.obj value) :
  NoDup (Js.keys fields) ->
  clean (VObj fields)
  = VObj (map (fun kv => (fst kv, clean (snd kv)))
            (filter (fun kv => present (snd kv)) fields)).
Proof.
  intros Hnd. rewrite clean_object.
  rewrite clean_fold_distinct; auto.
Qed.

(** On a value whose member names are plain at every depth, [clean] on
    any names is [clean] on records. *)
Lemma clean_any_plain (v : value) :
  plain_names v = true -> clean_any v = clean v.
Proof.
  induction v as [| | b | n | s | items IH | fields IH]
    using value_induction; try reflexivity; intros Hplain.
  - cbn [clean_any clean plain_names] in *. f_equal. f_equal.
    apply map_ext_in. intros x Hx.
    rewrite Forall_forall in IH. rewrite forallb_forall in Hplain. auto.
  - cbn [clean_any clean plain_names] in *. f_equal.
    generalize (@nil (string * value)).
    induction fields as [|kv fields IHf]; intros acc; [reflexivity|].
    cbn [forallb] in Hplain. apply andb_prop in Hplain.
    destruct Hplain as [Hkv Hrest]. apply andb_prop in Hkv.
    destruct Hkv as [Hname Hval].
    inversion IH as [|? ? Hhead Htail]; subst.
    cbn [fold_left]. rewrite (Hhead Hval).
    destruct (present (snd kv)).
    + rewrite assign_appended by assumption. now apply IHf.
    + now apply IHf.
Qed.

Lemma plain_names_member fields kv :
  plain_names (VObj fields) = true -> In kv fields ->
  plain_names (snd kv) = true.
Proof.
  cbn [plain_names]. rewrite forallb_forall. intros Hall Hin.
  specialize (Hall kv Hin). apply andb_prop in Hall. tauto.
Qed.

(** What [clean] on any names does with the other names: a member called
    [__proto__] is not kept and array indices are filed first. *)
Example clean_any_on_other_names :
  clean_any (VObj [ ("a", VNum 1);
                    ("__proto__", VObj [("b", VNum 2)]);
                    ("c", VNull); ("d", VNum 4) ])
  = VObj [ ("a", VNum 1); ("d", VNum 4) ]
  /\ clean (VObj [ ("a", VNum 1);
                   ("__proto__", VObj [("b", VNum 2)]);
                   ("c", VNull); ("d", VNum 4) ])
     = VObj [ ("a", VNum 1); ("__proto__", VObj [("b", VNum 2)]);
              ("d", VNum 4) ]
  /\ clean_any (VObj [ ("1", VStr "x"); ("7", VNull); ("b", VStr "y") ])
     = VObj [ ("1", VStr "x"); ("b", VStr "y") ].
Proof. repeat split. Qed.

(** X2. On an object with distinct member names, none of them (at any
    depth) an array index or [__proto__], [clean] returns the members
    that are neither [null] nor [undefined], each cleaned in turn, in
    their original order, and nothing else; on such an object [clean] on
    any names and [clean] on records are one. *)
Theorem clean_keeps_the_defined_members :
  forall fields : Js.obj value,
    NoDup (Js.keys fields) ->
    plain_names (VObj fields) = true ->
    clean_any (VObj fields)
    = VObj (map (fun kv => (fst kv, clean_any (snd kv)))
              (filter (fun kv => present (snd kv)) fields))
    /\ clean_any (VObj fields) = clean (VObj fields)
    /\ clean (VObj fields)
       = VObj (map (fun kv => (fst kv, clean (snd kv)))
                 (filter (fun kv => present (snd kv)) fields)).
Proof.
  intros fields Hnd Hplain.
  split; [|split].
  - rewrite (clean_any_plain _ Hplain), clean_object_distinct by assumption.
    f_equal. apply map_ext_in. intros kv Hin.
    apply filter_In in Hin. destruct Hin as [Hin _].
    now rewrite (clean_any_plain _ (plain_names_member _ _ Hplain Hin)).
  - now apply clean_any_plain.
  - now apply clean_object_distinct.
Qed.

Lemma clean_fold_NoDup fields :
  forall acc,
    NoDup (Js.keys acc) ->
    NoDup (Js.keys (fold_left clean_member fields acc)).
Proof.
  induction fields as [|kv fields IH]; intros acc Hacc; cbn; auto.
  apply IH. unfold clean_member.
  destruct (present (snd kv)); auto using keys_set_NoDup.
Qed.

Lemma map_filter_fixed (l : list value) :
  Forall (fun x => clean (clean x) = clean x) l ->
  filter present (map clean (filter present (map clean l)))
  = filter present (map clean l).
Proof.
  induction l as [|x l IH]; intros Hall; cbn; [reflexivity|].
  inversion Hall; subst.
  destruct (present (clean x)) eqn:Hp; cbn; auto.
  rewrite H1, Hp. f_equal. auto.
Qed.

Lemma map_clean_fixed (l : Js.obj value) :
  Forall (fun kv => present (snd kv) = true
                    /\ clean (snd kv) = snd kv) l ->
  map (fun kv => (fst kv, clean (snd kv)))
    (filter (fun kv => present (snd kv)) l) = l.
Proof.
  induction l as [|[k v] l IH]; intros Hall; cbn; [reflexivity|].
  inversion Hall as [|? ? [Hp Hc] Hrest]; subst. cbn in Hp, Hc.
  rewrite Hp. cbn. rewrite Hc. f_equal. auto.
Qed.

Lemma clean_twice (v : value) : clean (clean v) = clean v.
Proof.
  induction v as [| | b | n | s | items IH | fields IH]
    using value_induction; try reflexivity.
  - rewrite clean_array, clean_array. f_equal.
    now apply map_filter_fixed.
  - rewrite clean_object.
    rewrite clean_object_distinct
      by (apply clean_fold_NoDup; constructor).
    f_equal. apply map_clean_fixed.
    apply (clean_fold_Forall
             (fun kv => present (snd kv) = true
                        /\ clean (snd kv) = snd kv));
      [constructor|].
    eapply Forall_impl; [|exact IH].
    intros kv Hkv Hp k. cbn. split; [now rewrite clean_present|exact Hkv].
Qed.

(** X3. [clean] is idempotent: cleaning a cleaned value changes nothing. *)
Theorem clean_is_idempotent :
  forall v : value, clean (clean v) = clean v.
Proof. exact clean_twice. Qed.

(** ** [normalizeTime] *)

Import Helpers.

Lemma colons_app a b : colons (a ++ b) = (colons a + colons b)%nat.
Proof.
  induction a as [|c a IH]; cbn; [reflexivity|].
  destruct (Ascii.eqb c ":"); cbn; now rewrite IH.
Qed.

Lemma append_empty a b : a ++ b = "" -> a = "".
Proof. destruct a; [reflexivity|discriminate]. Qed.

Lemma normalizeTime_shape :
  forall time : string,
    (normalizeTime time = None <-> time = "")
    /\ (time <> "" ->
        exists r,
          normalizeTime time = Some r
          /\ r = (if (colons time =? 1)%nat then time ++ ":00" else time)
          /\ colons r <> 1%nat
          /\ normalizeTime r = Some r).
Proof.
  intros time. unfold normalizeTime. split.
  - destruct (String.eqb_spec time "") as [->|Hne]; [tauto|].
    destruct (colons time + 1 =? 2)%nat; split; congruence.
  - intros Hne.
    destruct (String.eqb_spec time "") as [->|_]; [tauto|].
    replace (colons time + 1 =? 2)%nat with (colons time =? 1)%nat
      by (destruct (Nat.eqb_spec (colons time) 1),
                   (Nat.eqb_spec (colons time + 1) 2); lia).
    destruct (Nat.eqb_spec (colons time) 1) as [H1|H1].
    + exists (time ++ ":00"). repeat split.
      * rewrite colons_app. cbn. lia.
      * destruct (String.eqb_spec (time ++ ":00") "") as [He|_];
          [apply append_empty in He; tauto|].
        rewrite colons_app. cbn.
        destruct (Nat.eqb_spec (colons time + 1 + 1) 2); [lia|reflexivity].
    + exists time. repeat split; auto.
      destruct (String.eqb_spec time "") as [He|_]; [tauto|].
      destruct (Nat.eqb_spec (colons time + 1) 2); [lia|reflexivity].
Qed.

(** X4. [normalizeTime] gives [undefined] for the empty text only; a text
    with exactly one colon (hours and minutes) gets [":00"] appended, any
    other text is returned as it is.  The result never has exactly one
    colon, so normalising it again changes nothing. *)
Theorem normalizeTime_completes_hours_and_minutes :
  forall time : string,
    (normalizeTime time = None <-> time = "")
    /\ (time <> "" ->
        exists r,
          normalizeTime time = Some r
          /\ r = (if (colons time =? 1)%nat then time ++ ":00" else time)
          /\ colons r <> 1%nat
          /\ normalizeTime r = Some r).
Proof. exact normalizeTime_shape. Qed.

(* ================================================================== *)
(** * Further properties: the API client *)
(* ================================================================== *)

Import Values.
Import Client.

(** ** Reading and posting *)

Lemma apiGet_refused R c path w :
  Js.truthy (accessToken c) = None ->
  apiGet R c path w = (Failed not_authenticated, w).
Proof.
  intros Hc. unfold apiGet, andThen, getAccessToken. now rewrite Hc.
Qed.

Lemma apiPost_refused R c path payload w :
  Js.truthy (accessToken c) = None ->
  apiPost R c path payload w = (Failed not_authenticated, w).
Proof.
  intros Hc. unfold apiPost, andThen, getAccessToken. now rewrite Hc.
Qed.

Lemma read_answer_pure R res w :
  read_answer R res w = (fst (read_answer R res w), w).
Proof.
  unfold read_answer. destruct (negb (ok res)); [reflexivity|].
  now destruct (JSON_parse_value R (body res)).
Qed.

Lemma read_answer_anywhere R res w w' :
  read_answer R res w' = (fst (read_answer R res w), w').
Proof.
  unfold read_answer. destruct (negb (ok res)); [reflexivity|].
  now destruct (JSON_parse_value R (body res)).
Qed.

Lemma apiGet_answered R c path w token res rest :
  Js.truthy (accessToken c) = Some token ->
  inbox w = res :: rest ->
  apiGet R c path w
  = (fst (read_answer R res w), snd (fetch (get_request token path) w)).
Proof.
  intros Hc Hin. unfold apiGet, andThen, getAccessToken.
  rewrite Hc. cbn [done]. unfold lift, fetch. rewrite Hin. cbn [snd].
  apply read_answer_anywhere.
Qed.

Lemma apiGet_sends R c path w token :
  Js.truthy (accessToken c) = Some token ->
  sent (snd (apiGet R c path w))
  = (sent w ++ [get_request token path])%list.
Proof.
  intros Hc. unfold apiGet, andThen, getAccessToken, lift.
  rewrite Hc. cbn [done].
  pose proof (fetch_logs (get_request token path) w) as Hlog.
  destruct (fetch (get_request token path) w) as [[res|e] w1];
    cbn [snd] in *; [|exact Hlog].
  rewrite read_answer_pure. exact Hlog.
Qed.

Lemma apiPost_sends R c path payload w token :
  Js.truthy (accessToken c) = Some token ->
  sent (snd (apiPost R c path payload w))
  = (sent w ++ [post_request token path payload])%list.
Proof.
  intros Hc. unfold apiPost, andThen, getAccessToken, lift.
  rewrite Hc. cbn [done].
  pose proof (fetch_logs (post_request token path payload) w) as Hlog.
  destruct (fetch (post_request token path payload) w) as [[res|e] w1];
    cbn [snd] in *; [|exact Hlog].
  rewrite read_answer_pure. exact Hlog.
Qed.

(** X5. A client without a (non-empty) access token, such as a newly
    built one, sends nothing: every reading, creating and deleting
    operation fails with "Not authenticated. Call authenticate() first."
    and leaves the world as it was, and so do the update operations once
    they are given an identifier. *)
Theorem unauthenticated_client_sends_nothing :
  forall (R : Runtime) (c : TripIt) (w : World),
    Js.truthy (accessToken c) = None ->
    let refused := (Failed not_authenticated, w) in
    (forall pageSize pageNum past,
        listTrips R c pageSize pageNum past w = refused)
    /\ (forall id, getTrip R c id w = refused)
    /\ (forall params, createTrip R c params w = refused)
    /\ (forall id, deleteTrip R c id w = refused)
    /\ (forall id, getHotel R c id w = refused)
    /\ (forall params, createHotel R c params w = refused)
    /\ (forall id, deleteHotel R c id w = refused)
    /\ (forall id, getFlight R c id w = refused)
    /\ (forall id, deleteFlight R c id w = refused)
    /\ (forall id, getTransport R c id w = refused)
    /\ (forall id, deleteTransport R c id w = refused)
    /\ (forall id, getActivity R c id w = refused)
    /\ (forall id, deleteActivity R c id w = refused)
    /\ (forall params, createFlight R c params w = refused)
    /\ (forall params, createTransport R c params w = refused)
    /\ (forall params, createActivity R c params w = refused)
    /\ (forall params identifier,
           Js.truthy (identifier_of (ut_uuid params) (ut_id params))
           = Some identifier ->
           updateTrip R c params w = refused)
    /\ (forall params identifier,
           Js.truthy (identifier_of (uh_uuid params) (uh_id params))
           = Some identifier ->
           updateHotel R c params w = refused)
    /\ (forall params identifier,
           Js.truthy (identifier_of (uf_uuid params) (uf_id params))
           = Some identifier ->
           updateFlight R c params w = refused)
    /\ (forall params identifier,
           Js.truthy (identifier_of (ux_uuid params) (ux_id params))
           = Some identifier ->
           updateTransport R c params w = refused)
    /\ (forall params identifier,
           Js.truthy (identifier_of (ua_uuid params) (ua_id params))
           = Some identifier ->
           updateActivity R c params w = refused)
    /\ (forall cfg, Js.truthy (accessToken (new_client cfg)) = None).
Proof.
  intros R c w Hc refused.
  repeat match goal with |- _ /\ _ => split end;
    try (intros; first [now apply apiGet_refused
                       |now apply apiPost_refused]).
  - intros id. unfold getTrip, andThen. now rewrite apiGet_refused.
  - intros params identifier Hid. unfold updateTrip. rewrite Hid.
    unfold andThen. now rewrite apiGet_refused.
  - intros params identifier Hid. unfold updateHotel. rewrite Hid.
    unfold andThen, getHotel. now rewrite apiGet_refused.
  - intros params identifier Hid. unfold updateFlight. rewrite Hid.
    unfold andThen, getFlight. now rewrite apiGet_refused.
  - intros params identifier Hid. unfold updateTransport. rewrite Hid.
    unfold andThen, getTransport. now rewrite apiGet_refused.
  - intros params identifier Hid. unfold updateActivity. rewrite Hid.
    unfold andThen, getActivity. now rewrite apiGet_refused.
  - reflexivity.
Qed.

(** X6. An update that names its target neither by a non-empty [uuid]
    nor by a non-empty [id] fails with "Either uuid or id parameter is
    required" before anything is sent, signed in or not; an empty [uuid]
    falls back to the [id]. *)
Theorem update_requires_an_identifier :
  forall (R : Runtime) (c : TripIt) (w : World),
    (forall params,
        (ut_uuid params = None \/ ut_uuid params = Some "") ->
        (ut_id params = None \/ ut_id params = Some "") ->
        updateTrip R c params w
        = (Failed (Raised (Error "Either uuid or id parameter is required")),
           w))
    /\ (forall params,
           (uh_uuid params = None \/ uh_uuid params = Some "") ->
           (uh_id params = None \/ uh_id params = Some "") ->
           updateHotel R c params w
           = (Failed
                (Raised (Error "Either uuid or id parameter is required")),
              w))
    /\ (forall params,
           (uf_uuid params = None \/ uf_uuid params = Some "") ->
           (uf_id params = None \/ uf_id params = Some "") ->
           updateFlight R c params w
           = (Failed
                (Raised (Error "Either uuid or id parameter is required")),
              w))
    /\ (forall params,
           (ux_uuid params = None \/ ux_uuid params = Some "") ->
           (ux_id params = None \/ ux_id params = Some "") ->
           updateTransport R c params w
           = (Failed
                (Raised (Error "Either uuid or id parameter is required")),
              w))
    /\ (forall params,
           (ua_uuid params = None \/ ua_uuid params = Some "") ->
           (ua_id params = None \/ ua_id params = Some "") ->
           updateActivity R c params w
           = (Failed
                (Raised (Error "Either uuid or id parameter is required")),
              w))
    /\ (forall uuid id,
           (uuid = None \/ uuid = Some "") ->
           identifier_of uuid id = id).
Proof.
  intros R c w. split; [|split; [|split; [|split; [|split]]]].
  - intros params [Hu|Hu] [Hi|Hi]; unfold updateTrip;
      rewrite Hu, Hi; reflexivity.
  - intros params [Hu|Hu] [Hi|Hi]; unfold updateHotel;
      rewrite Hu, Hi; reflexivity.
  - intros params [Hu|Hu] [Hi|Hi]; unfold updateFlight;
      rewrite Hu, Hi; reflexivity.
  - intros params [Hu|Hu] [Hi|Hi]; unfold updateTransport;
      rewrite Hu, Hi; reflexivity.
  - intros params [Hu|Hu] [Hi|Hi]; unfold updateActivity;
      rewrite Hu, Hi; reflexivity.
  - intros uuid id [->| ->]; reflexivity.
Qed.

(** The first half of [updateTrip]: the trip on record, once the read
    has been answered. *)
Lemma updateTrip_after_read R c params w token identifier res rest :
  Js.truthy (accessToken c) = Some token ->
  Js.truthy (identifier_of (ut_uuid params) (ut_id params))
  = Some identifier ->
  inbox w = res :: rest ->
  updateTrip R c params w
  = andThen (read_answer R res)
      (fun existingTripResponse =>
         andThen (read_member existingTripResponse "Trip")
           (fun existingTrip =>
              if negb (truthy (member existingTrip "uuid")) then
                raise ("Trip with identifier " ++ identifier
                       ++ " not found")
              else
                apiPost R c
                  (endpoint "v2"
                     ("replace/trip/uuid/"
                      ++ to_text (member existingTrip "uuid")))
                  (VObj (updateTrip_payload
                           (tripData_of params existingTrip)))))
      (snd (fetch
              (get_request token (identifierEndpoint "get" "trip" identifier))
              w)).
Proof.
  intros Hc Hid Hin. unfold updateTrip. rewrite Hid.
  unfold andThen at 1.
  rewrite (apiGet_answered R c _ w token res rest Hc Hin).
  symmetry. unfold andThen at 1.
  rewrite (read_answer_anywhere R res w). cbn [fst snd].
  now destruct (fst (read_answer R res w)).
Qed.

(** X7. [updateTrip] does not write unless the read found the trip: when
    the read is refused (status outside 200-299), or its answer is the
    JSON [null], or the answer has no trip with a [uuid], the operation
    fails with, in turn, "API error (status): body", a [TypeError],
    "Trip with identifier ... not found", and the read is the only
    request it has sent. *)
Theorem updateTrip_stops_after_a_failed_read :
  forall (R : Runtime) (c : TripIt) (params : UpdateTripParams)
         (w : World) (token identifier : string) (res : Response)
         (rest : list Response),
    Js.truthy (accessToken c) = Some token ->
    Js.truthy (identifier_of (ut_uuid params) (ut_id params))
    = Some identifier ->
    inbox w = res :: rest ->
    let read :=
      get_request token (identifierEndpoint "get" "trip" identifier) in
    let after := snd (fetch read w) in
    sent after = (sent w ++ [read])%list
    /\ (ok res = false ->
        updateTrip R c params w
        = (Failed (Raised (Error ("API error ("
                                  ++ Codec.decimal (status res)
                                  ++ "): " ++ body res))),
           after))
    /\ (ok res = true -> JSON_parse_value R (body res) = Some VNull ->
        updateTrip R c params w = (Failed TypeError, after))
    /\ (forall response,
           ok res = true ->
           JSON_parse_value R (body res) = Some response ->
           present response = true ->
           truthy (member (member response "Trip") "uuid") = false ->
           updateTrip R c params w
           = (Failed (Raised (Error ("Trip with identifier " ++ identifier
                                     ++ " not found"))),
              after)).
Proof.
  intros R c params w token identifier res rest Hc Hid Hin read after.
  split; [apply fetch_logs|].
  rewrite (updateTrip_after_read R c params w token identifier res rest)
    by assumption.
  fold read. fold after. unfold andThen at 1, read_answer.
  split; [|split].
  - intros Hok. now rewrite Hok.
  - intros Hok Hjson. now rewrite Hok, Hjson.
  - intros response Hok Hjson Hpresent Huuid. rewrite Hok, Hjson.
    cbn [negb done]. unfold andThen, read_member.
    destruct response; try discriminate; cbn [done];
      rewrite Huuid; reflexivity.
Qed.

(** ** What an update posts *)

Lemma keys_map_filter (l : Js.obj value) k :
  ~ In k (Js.keys l) ->
  Js.get (map (fun kv => (fst kv, clean (snd kv)))
            (filter (fun kv => present (snd kv)) l)) k = None.
Proof.
  unfold Js.keys. induction l as [|[k' v] l IH]; cbn; intros Hk; auto.
  destruct (present v); cbn.
  - destruct (String.eqb_spec k' k) as [->|Hne]; [tauto|].
    apply IH. tauto.
  - apply IH. tauto.
Qed.

Lemma get_map_filter (l : Js.obj value) k :
  NoDup (Js.keys l) ->
  Js.get (map (fun kv => (fst kv, clean (snd kv)))
            (filter (fun kv => present (snd kv)) l)) k
  = match Js.get l k with
    | Some v => if present v then Some (clean v) else None
    | None => None
    end.
Proof.
  induction l as [|[k' v] l IH]; cbn; intros Hnd; auto.
  inversion Hnd as [|? ? Hk Hnd']; subst.
  destruct (String.eqb_spec k' k) as [->|Hne].
  - destruct (present v); cbn.
    + now rewrite String.eqb_refl.
    + now apply keys_map_filter.
  - destruct (present v); cbn; auto.
    destruct (String.eqb_spec k' k); [contradiction|auto].
Qed.





Ltac distinct_names :=
  repeat (constructor; [cbn; intuition congruence|]); constructor.






(** ** What [updateHotel] posts *)


Lemma read_member_present response name w :
  present response = true ->
  read_member response name w = (Returned (member response name), w).
Proof. destruct response; try discriminate; reflexivity. Qed.






Lemma member_clean_record (record : Js.obj value) k :
  NoDup (Js.keys record) ->
  member (clean (VObj record)) k = cleaned (member (VObj record) k).
Proof.
  intros Hnd. rewrite clean_object_distinct by assumption.
  unfold member. rewrite get_map_filter by assumption. unfold cleaned.
  destruct (Js.get record k) as [v|]; [|reflexivity].
  now destruct (present v).
Qed.







(** ** The token that [authenticate] returns *)

(** A successful second half of the flow: the token is the answer's
    non-empty [access_token] and has been written to a writable disk. *)
Lemma redeem_success P config p w token w' :
  authenticate_redeem P config p w = (Ok token, w') ->
  exists tokenResponse,
    token = tr_access_token tokenResponse
    /\ Js.truthy token <> None
    /\ cache_file w' = Stored (cached_of (now w') tokenResponse)
    /\ disk_writable w = true.
Proof.
  unfold authenticate_redeem.
  destruct (URL_new P (redirectUrl p) "http://localhost") as [parsed|];
    [|discriminate].
  destruct (negb _); [discriminate|].
  destruct (Js.truthy (searchParams_get (searchParams parsed) "code"))
    as [code|]; [|discriminate].
  unfold bind at 1.
  destruct (exchangeCodeForToken P config code (codeVerifier p) w)
    as [[t|e] w2] eqn:Hex; [|discriminate].
  destruct (quiet_run _ _ _ _ _
              (quiet_exchangeCodeForToken P config code (codeVerifier p))
              Hex) as [_ [Hdisk _]].
  destruct (Js.truthy (tr_access_token t)) as [text|] eqn:Htoken;
    [|discriminate].
  unfold bind, ret.
  destruct (cacheToken_run t w2) as [Hyes Hno].
  destruct (disk_writable w2) eqn:Hd.
  - destruct (Hyes eq_refl) as [Hr [Hfile Hnow]].
    destruct (cacheToken t w2) as [[u|e] w3]; cbn in *; [|discriminate].
    intros [= <- <-]. exists t.
    split; [reflexivity|]. split; [congruence|].
    split; [now rewrite Hfile, Hnow | now rewrite <- Hdisk].
  - rewrite (Hno eq_refl). discriminate.
Qed.

Lemma full_flow_success P config w token w' :
  full_flow P config w = (Ok token, w') ->
  exists tokenResponse,
    token = tr_access_token tokenResponse
    /\ Js.truthy token <> None
    /\ cache_file w' = Stored (cached_of (now w') tokenResponse)
    /\ disk_writable w = true.
Proof.
  unfold full_flow, bind.
  destruct (authenticate_login P config w) as [[p|e] w1] eqn:Hlogin;
    [|discriminate].
  destruct (quiet_run _ _ _ _ _ (quiet_authenticate_login P config) Hlogin)
    as [_ [Hdisk _]].
  intros Hredeem.
  destruct (redeem_success P config p w1 token w' Hredeem)
    as [t [Htoken [Htruthy [Hfile Hd]]]].
  exists t. rewrite <- Hdisk. auto.
Qed.

(** X12. Whatever token [authenticate] returns is the [access_token] of
    the cache file as the call leaves it.  A token that did not come from
    a valid cache entry is a non-empty string and the disk took the
    write: when the cache cannot be written, a login that the server
    accepted still ends in an exception and no token is returned. *)
Theorem returned_token_is_the_cached_one :
  forall (P : Platform) (config : TripItConfig) (w w' : World)
         (token : option string),
    authenticate P config w = (Ok token, w') ->
    (exists cached,
        cache_file w' = Stored cached /\ access_token cached = token)
    /\ (cache_hit w = None ->
        (exists text, token = Some text /\ text <> "")
        /\ disk_writable w = true).
Proof.
  intros P config w w' token Hrun.
  destruct (cache_hit w) as [cached|] eqn:Hhit.
  - rewrite (authenticate_hit _ _ _ _ Hhit) in Hrun.
    injection Hrun as <- <-. split; [|discriminate].
    exists cached. split; [|reflexivity].
    unfold cache_hit in Hhit.
    destruct (cache_file w) as [| |stored]; try discriminate.
    destruct (expiresAt stored); try discriminate.
    destruct (_ >? _); now inversion Hhit.
  - rewrite (authenticate_miss _ _ _ Hhit) in Hrun.
    destruct (full_flow_success P config w token w' Hrun)
      as [t [Htoken [Htruthy [Hfile Hd]]]].
    split.
    + exists (cached_of (now w') t). split; [exact Hfile|].
      now rewrite Htoken.
    + intros _. split; [|exact Hd].
      destruct token as [text|]; [|now contradict Htruthy].
      exists text. split; [reflexivity|].
      intros ->. now contradict Htruthy.
Qed.

(** X13. After a login through the full flow, the token is handed out
    again, with nothing sent, to every later call that finds the same
    cache file while the clock is still before the time of the login plus
    [expires_in - 30] seconds, whichever account the later call is for:
    the cache entry does not record whose token it is.  From that moment
    on, and always when the token endpoint gave no [expires_in], a later
    call runs the full flow again. *)
Theorem fresh_token_is_reused_until_it_expires :
  forall (P : Platform) (config : TripItConfig) (w w' : World)
         (token : option string),
    cache_hit w = None ->
    authenticate P config w = (Ok token, w') ->
    exists cached,
      cache_file w' = Stored cached
      /\ forall (P2 : Platform) (config2 : TripItConfig) (later : World),
          cache_file later = cache_file w' ->
          (forall seconds,
              expires_in cached = Some seconds ->
              now later < now w' + (seconds - 30) * 1000 ->
              authenticate P2 config2 later = (Ok token, later))
          /\ (forall seconds,
                 expires_in cached = Some seconds ->
                 now w' + (seconds - 30) * 1000 <= now later ->
                 authenticate P2 config2 later
                 = full_flow P2 config2 later)
          /\ (expires_in cached = None ->
              authenticate P2 config2 later = full_flow P2 config2 later).
Proof.
  intros P config w w' token Hmiss Hrun.
  rewrite (authenticate_miss _ _ _ Hmiss) in Hrun.
  destruct (full_flow_success P config w token w' Hrun)
    as [t [Htoken [_ [Hfile _]]]].
  exists (cached_of (now w') t). split; [exact Hfile|].
  intros P2 config2 later Hsame.
  rewrite Hfile in Hsame. cbn [cached_of expires_in].
  split; [|split].
  - intros seconds Hsec Hnow. rewrite Htoken.
    apply (authenticate_hit P2 config2 later (cached_of (now w') t)).
    unfold cache_hit. rewrite Hsame. cbn. rewrite Hsec. cbn.
    destruct (Z.gtb_spec (now w' + (seconds - 30) * 1000) (now later));
      [reflexivity | lia].
  - intros seconds Hsec Hnow. apply authenticate_miss.
    unfold cache_hit. rewrite Hsame. cbn. rewrite Hsec. cbn.
    destruct (Z.gtb_spec (now w' + (seconds - 30) * 1000) (now later));
      [lia | reflexivity].
  - intros Hnone. apply authenticate_miss.
    unfold cache_hit. rewrite Hsame. cbn. now rewrite Hnone.
Qed.

(** ** What the flow uses of the configuration, and how it ends *)

(** X14. The client secret takes no part in authentication: two
    configurations with the same client id, user name and password make
    [authenticate] behave alike in every world, whatever their
    secrets. *)
Theorem client_secret_is_never_used :
  forall (P : Platform) (config other : TripItConfig) (w : World),
    clientId config = clientId other ->
    username config = username other ->
    password config = password other ->
    authenticate P config w = authenticate P other w.
Proof.
  intros P [id secret user pass] [id' secret' user' pass'] w.
  cbn [clientId username password]. intros <- <- <-.
  unfold authenticate, full_flow, authenticate_login, authenticate_redeem,
    submitLogin, submitData_of, authUrl_of, exchangeCodeForToken,
    token_request.
  cbn [clientId username password]. reflexivity.
Qed.

Lemma redeem_without_code P config p parsed w :
  URL_new P (redirectUrl p) "http://localhost" = Some parsed ->
  searchParams_get (searchParams parsed) "state" = Some (state p) ->
  Js.truthy (searchParams_get (searchParams parsed) "code") = None ->
  authenticate_redeem P config p w
  = (Threw (Error "Authorization code not found in redirect"), w).
Proof.
  intros Hurl Hstate Hcode. unfold authenticate_redeem.
  rewrite Hurl, Hstate, Hcode, String.eqb_refl. reflexivity.
Qed.

(** X15. When the final redirect carries the right [state] but no
    [code], or an empty one, [authenticate] throws "Authorization code
    not found in redirect": the token endpoint is not asked and the cache
    file stays as it was. *)
Theorem missing_code_stops_before_the_exchange :
  forall (P : Platform) (config : TripItConfig) (w w1 : World)
         (p : Pending) (parsed : URL),
    cache_hit w = None ->
    authenticate_login P config w = (Ok p, w1) ->
    URL_new P (redirectUrl p) "http://localhost" = Some parsed ->
    searchParams_get (searchParams parsed) "state" = Some (state p) ->
    (searchParams_get (searchParams parsed) "code" = None
     \/ searchParams_get (searchParams parsed) "code" = Some "") ->
    authenticate P config w
    = (Threw (Error "Authorization code not found in redirect"), w1)
    /\ no_token_request_since w w1
    /\ cache_file w1 = cache_file w.
Proof.
  intros P config w w1 p parsed Hmiss Hlogin Hurl Hstate Hcode.
  destruct (quiet_run _ _ _ _ _ (quiet_authenticate_login P config) Hlogin)
    as [Hcache [_ Hsent]].
  split; [|split; assumption].
  rewrite (authenticate_miss _ _ _ Hmiss).
  unfold full_flow, bind. rewrite Hlogin.
  apply redeem_without_code with parsed; try assumption.
  now destruct Hcode as [-> | ->].
Qed.

Lemma login_needs_an_answer P config w p w1 :
  authenticate_login P config w = (Ok p, w1) ->
  exists res rest, inbox w = res :: rest.
Proof.
  unfold authenticate_login, bind at 1, fetch at 1.
  destruct (inbox w) as [|res rest]; [discriminate|].
  intros _. now exists res, rest.
Qed.

(** X16. A login that goes through: with the right [state] and a code in
    the final redirect, an accepting token endpoint and a writable disk,
    [authenticate] returns the answer's [access_token].  It sends one
    request after the login, outside the session client, to redeem the
    code together with the verifier, and that verifier is the one whose
    challenge the authorize URL announced; everything before went
    through the session client.  The cache then holds the answer, dated
    at the moment the token request was answered. *)
Theorem login_redeems_the_code_with_its_verifier :
  forall (P : Platform) (config : TripItConfig) (w w1 : World)
         (p : Pending) (parsed : URL) (code text : string)
         (res : Response) (rest : list Response)
         (tokenResponse : TokenResponse),
    cache_hit w = None ->
    disk_writable w = true ->
    authenticate_login P config w = (Ok p, w1) ->
    URL_new P (redirectUrl p) "http://localhost" = Some parsed ->
    searchParams_get (searchParams parsed) "state" = Some (state p) ->
    Js.truthy (searchParams_get (searchParams parsed) "code") = Some code ->
    inbox w1 = res :: rest ->
    ok res = true ->
    JSON_parse P (body res) = Some tokenResponse ->
    Js.truthy (tr_access_token tokenResponse) = Some text ->
    let verifier := Codec.hex (map (entropy w) (seq (drawn w) 32)) in
    let redeem := token_request config code verifier in
    fst (authenticate P config w) = Ok (Some text)
    /\ sent (snd (authenticate P config w)) = (sent w1 ++ [redeem])%list
    /\ req_client redeem = Direct
    /\ (exists l,
           sent w1
           = (sent w
                ++ home_request
                :: page_request
                     (authUrl_of config (state p)
                        (codeChallenge_of verifier))
                :: l)%list
           /\ Forall by_session l)
    /\ cache_file (snd (authenticate P config w))
       = Stored (cached_of (now w1 + elapsed res) tokenResponse).
Proof.
  intros P config w w1 p parsed code text res rest tokenResponse Hmiss
         Hdisk Hlogin Hurl Hstate Hcode Hin Hok Hjson Htoken verifier redeem.
  destruct (authenticate_login_material _ _ _ _ _ Hlogin)
    as [Hverifier Hstate_p].
  destruct (quiet_run _ _ _ _ _ (quiet_authenticate_login P config) Hlogin)
    as [_ [Hdisk1 [l1 [Hsent1 Hall1]]]].
  assert (tr_access_token tokenResponse = Some text) as Haccess.
  { destruct (tr_access_token tokenResponse) as [[|a s]|];
      cbn in Htoken; congruence. }
  assert (authenticate P config w
          = bind (cacheToken tokenResponse)
              (fun _ => ret (tr_access_token tokenResponse))
              (snd (fetch redeem w1))) as Hrun.
  { rewrite (authenticate_miss _ _ _ Hmiss).
    unfold full_flow, bind at 1. rewrite Hlogin.
    rewrite (redeem_reaches_exchange P config p parsed code w1)
      by assumption.
    unfold bind at 1.
    rewrite (exchange_accepted P config code _ w1 res rest Hin Hok).
    rewrite Hjson, Htoken, Hverifier. reflexivity. }
  assert (disk_writable (snd (fetch redeem w1)) = true) as Hdisk2.
  { unfold fetch. rewrite Hin. cbn. congruence. }
  destruct (cacheToken_run tokenResponse (snd (fetch redeem w1)))
    as [Hyes _].
  destruct (Hyes Hdisk2) as [Hr [Hfile Hnow]].
  assert (sent (snd (cacheToken tokenResponse (snd (fetch redeem w1))))
          = sent (snd (fetch redeem w1))) as Hquiet.
  { unfold cacheToken, bind, Date_now, writeTokenFile.
    rewrite Hdisk2. reflexivity. }
  rewrite Hrun. unfold bind, ret.
  destruct (cacheToken tokenResponse (snd (fetch redeem w1)))
    as [[u|e] w3] eqn:Hcache; cbn [fst snd] in *; [|discriminate].
  split; [now rewrite Haccess|].
  split; [now rewrite Hquiet, fetch_logs|].
  split; [reflexivity|].
  split.
  - destruct (login_needs_an_answer _ _ _ _ _ Hlogin) as [r0 [rest0 Hin0]].
    destruct (login_requests_authorize_url P config w r0 rest0 Hin0)
      as [l Hl].
    rewrite Hlogin in Hl. cbn [snd] in Hl. rewrite Hstate_p.
    exists l. split; [exact Hl|].
    rewrite Hl in Hsent1. apply app_inv_head in Hsent1. subst l1.
    inversion Hall1 as [|? ? _ Hrest]; subst.
    now inversion Hrest.
  - rewrite Hfile. f_equal. f_equal.
    unfold fetch. rewrite Hin. reflexivity.
Qed.

(** ** The client after [authenticate] *)

(** X17. After [client.authenticate()] has returned, every request of
    the client carries the returned token as [Authorization: Bearer]
    header; a token that came from a login (not from the cache file) is
    non-empty, so that the client does not answer "Not authenticated"
    then.  A cache file with a valid date and no usable [access_token]
    makes [authenticate] succeed and the next operation fail that way. *)
Theorem authenticated_client_presents_its_token :
  forall (P : Platform) (R : Runtime) (c c' : TripIt) (w w1 : World)
         (token : option string),
    client_authenticate P c w = (Returned (token, c'), w1) ->
    config c' = config c
    /\ accessToken c' = token
    /\ (forall text,
           Js.truthy token = Some text ->
           (forall path w2,
               sent (snd (apiGet R c' path w2))
               = (sent w2 ++ [get_request text path])%list)
           /\ (forall path payload w2,
                  sent (snd (apiPost R c' path payload w2))
                  = (sent w2 ++ [post_request text path payload])%list)
           /\ (forall path,
                  Js.get (req_headers (get_request text path))
                    "Authorization"
                  = Some ("Bearer " ++ text)))
    /\ (Js.truthy token = None ->
        forall path w2,
          apiGet R c' path w2 = (Failed not_authenticated, w2))
    /\ (cache_hit w = None -> Js.truthy token <> None).
Proof.
  intros P R c c' w w1 token Hrun.
  unfold client_authenticate, andThen, lift in Hrun.
  destruct (authenticate P (config c) w) as [[t|e] w'] eqn:Hauth;
    [|discriminate].
  cbn in Hrun. injection Hrun as -> <- <-.
  split; [reflexivity|]. split; [reflexivity|].
  split; [|split].
  - intros text Htext. split; [|split].
    + intros path w2. now apply apiGet_sends.
    + intros path payload w2. now apply apiPost_sends.
    + reflexivity.
  - intros Hnone path w2. now apply apiGet_refused.
  - intros Hmiss. rewrite (authenticate_miss _ _ _ Hmiss) in Hauth.
    destruct (full_flow_success _ _ _ _ _ Hauth) as [_ [_ [Ht _]]].
    exact Ht.
Qed.

(** ** [getTrip] *)

Lemma includes_char c b s :
  includes (String c "") (String b s)
  = Ascii.eqb c b || includes (String c "") s.
Proof. cbn. now destruct (Ascii.eqb c b). Qed.

(** A pattern with one [c], matched against a text whose first [c] comes
    after [id]: the part before [c] is [id]. *)
Lemma strip_prefix_up_to c a b id rest x :
  includes (String c "") a = false ->
  includes (String c "") id = false ->
  strip_prefix (a ++ String c b) (id ++ String c rest) = Some x ->
  id = a /\ strip_prefix b rest = Some x.
Proof.
  revert id. induction a as [|e a IH]; intros [|d id] Ha Hid; cbn.
  - rewrite Ascii.eqb_refl. auto.
  - rewrite includes_char in Hid. apply orb_false_elim in Hid.
    destruct Hid as [-> _]. discriminate.
  - rewrite includes_char in Ha. apply orb_false_elim in Ha.
    destruct Ha as [Hce _]. rewrite Ascii.eqb_sym, Hce. discriminate.
  - rewrite includes_char in Ha, Hid.
    apply orb_false_elim in Ha. apply orb_false_elim in Hid.
    destruct (Ascii.eqb_spec e d) as [->|]; [|discriminate].
    intros Hx. destruct (IH id (proj2 Ha) (proj2 Hid) Hx) as [-> Hb].
    auto.
Qed.

Lemma strip_prefix_self p : strip_prefix p p = Some "".
Proof. induction p as [|a p IH]; cbn; [|rewrite Ascii.eqb_refl]; auto. Qed.

Lemma append_nothing (s : string) : s ++ "" = s.
Proof. induction s as [|a s IH]; cbn; congruence. Qed.

(** The pattern begins with a character the text before it lacks: the
    first occurrence is the one at the end. *)
Lemma replace_first_at_end c pattern replacement id :
  includes (String c "") id = false ->
  replace_first (String c pattern) replacement (id ++ String c pattern)
  = id ++ replacement.
Proof.
  intros Hid. induction id as [|d id IH].
  - cbn [append replace_first].
    rewrite strip_prefix_self. apply append_nothing.
  - rewrite includes_char in Hid. apply orb_false_elim in Hid.
    destruct Hid as [Hcd Hid].
    cbn [append replace_first strip_prefix]. rewrite Hcd.
    now rewrite (IH Hid).
Qed.

Lemma replace_first_miss pattern replacement c s :
  strip_prefix pattern (String c s) = None ->
  replace_first pattern replacement (String c s)
  = String c (replace_first pattern replacement s).
Proof. intros Hmiss. cbn [replace_first]. now rewrite Hmiss. Qed.

Lemma getTrip_url_plain id :
  includes "/" id = false ->
  getTrip_url id
  = if includes "-" id
    then "https://api.tripit.com/v2/get/trip/uuid/" ++ id
         ++ "/include_objects/true/format/json"
    else "https://api.tripit.com/v1/get/trip/id/" ++ id
         ++ "/include_objects/true/format/json".
Proof.
  intros Hid.
  assert (strip_prefix "format/json" (id ++ "/format/json") = None)
    as Hnone.
  { destruct (strip_prefix "format/json" (id ++ "/format/json"))
      as [x|] eqn:Hx; [|reflexivity].
    destruct (strip_prefix_up_to "/" "format" "json" id "format/json" x
                eq_refl Hid Hx) as [_ Hbad].
    discriminate. }
  unfold getTrip_url, identifierEndpoint, endpoint.
  destruct (includes "-" id); cbn [append];
    repeat (rewrite replace_first_miss by (reflexivity || exact Hnone));
    rewrite (replace_first_at_end "/" "format/json"
               "/include_objects/true/format/json" id Hid);
    reflexivity.
Qed.

Lemma get_remove_same {V} (o : Js.obj V) k : Js.get (remove o k) k = None.
Proof.
  induction o as [|[k' v] o IH]; cbn; [reflexivity|].
  destruct (String.eqb k' k) eqn:E; [exact IH|]. cbn. now rewrite E.
Qed.

Lemma get_remove_other {V} (o : Js.obj V) k k' :
  k <> k' -> Js.get (remove o k) k' = Js.get o k'.
Proof.
  intros Hne. induction o as [|[k0 v] o IH]; cbn; [reflexivity|].
  destruct (String.eqb_spec k0 k) as [->|Hk0].
  - rewrite IH. destruct (String.eqb_spec k k'); [contradiction|auto].
  - cbn. now rewrite IH.
Qed.

(** X18. [getTrip] asks, with one request, for the trip together with
    its objects: when the identifier holds no slash, the URL is that of
    the trip with [/include_objects/true] put before [/format/json].  It
    returns the answer without its [Profile] member, every other member
    as it came; an answer without a (truthy) [Profile] comes back
    unchanged, and the answer [null] is a [TypeError]. *)
Theorem getTrip_includes_objects_and_drops_the_profile :
  forall (R : Runtime) (c : TripIt) (id : string) (w : World)
         (token : string) (res : Response) (rest : list Response),
    Js.truthy (accessToken c) = Some token ->
    inbox w = res :: rest ->
    ok res = true ->
    let asked := get_request token (getTrip_url id) in
    sent (snd (getTrip R c id w)) = (sent w ++ [asked])%list
    /\ (includes "/" id = false ->
        req_url asked
        = if includes "-" id
          then "https://api.tripit.com/v2/get/trip/uuid/" ++ id
               ++ "/include_objects/true/format/json"
          else "https://api.tripit.com/v1/get/trip/id/" ++ id
               ++ "/include_objects/true/format/json")
    /\ (forall answer,
           JSON_parse_value R (body res) = Some answer ->
           present answer = true ->
           exists data,
             fst (getTrip R c id w) = Returned data
             /\ (truthy (member answer "Profile") = true ->
                 member data "Profile" = VUndefined)
             /\ (truthy (member answer "Profile") = false ->
                 data = answer)
             /\ (forall k, k <> "Profile" ->
                           member data k = member answer k))
    /\ (JSON_parse_value R (body res) = Some VNull ->
        fst (getTrip R c id w) = Failed TypeError).
Proof.
  intros R c id w token res rest Hc Hin Hok asked.
  assert (getTrip R c id w
          = andThen (read_answer R res)
              (fun data =>
                 andThen (read_member data "Profile")
                   (fun _ => done (drop_profile data)))
              (snd (fetch asked w))) as Hrun.
  { unfold getTrip. unfold andThen at 1.
    rewrite (apiGet_answered R c _ w token res rest Hc Hin).
    symmetry. unfold andThen at 1.
    rewrite (read_answer_anywhere R res w). cbn [fst snd].
    now destruct (fst (read_answer R res w)). }
  split; [|split; [|split]].
  - unfold getTrip. unfold andThen at 1.
    pose proof (apiGet_sends R c (getTrip_url id) w token Hc) as Hsent.
    destruct (apiGet R c (getTrip_url id) w) as [[data|f] w1];
      cbn [snd] in *; [|exact Hsent].
    unfold andThen, read_member, done.
    destruct data; exact Hsent.
  - intros Hid. exact (getTrip_url_plain id Hid).
  - intros answer Hjson Hpresent. rewrite Hrun.
    unfold andThen at 1, read_answer. rewrite Hok, Hjson. cbn [negb done].
    unfold andThen. rewrite read_member_present by assumption.
    cbn [done fst]. exists (drop_profile answer).
    split; [reflexivity|]. unfold drop_profile.
    split; [|split].
    + intros Htruthy. rewrite Htruthy.
      destruct answer; try reflexivity.
      cbn [member]. now rewrite get_remove_same.
    + intros Hfalsy. now rewrite Hfalsy.
    + intros k Hk.
      destruct (truthy (member answer "Profile")); [|reflexivity].
      destruct answer; try reflexivity.
      cbn [member]. rewrite get_remove_other by congruence. reflexivity.
  - intros Hjson. rewrite Hrun.
    unfold andThen at 1, read_answer. rewrite Hok, Hjson. reflexivity.
Qed.

(** ** The command line's client *)

Lemma requiredEnv_set env name val :
  Js.truthy (Js.get env name) = Some val ->
  Cli.requiredEnv env name = Ok val.
Proof. unfold Cli.requiredEnv. now intros ->. Qed.

Lemma requiredEnv_unset env name :
  Js.truthy (Js.get env name) = None ->
  Cli.requiredEnv env name
  = Threw (Error ("Missing required env var: " ++ name)).
Proof. unfold Cli.requiredEnv. now intros ->. Qed.

(** X19. The command line builds its client from four environment
    variables.  A client is built exactly when all four are set and not
    empty; it then holds their values and no token.  Otherwise the
    failure names the first variable, in the order client id, client
    secret, user name, password, that is unset or empty. *)
Theorem createClient_needs_the_four_variables :
  forall env : Cli.Env,
    let names :=
      [ "TRIPIT_CLIENT_ID"; "TRIPIT_CLIENT_SECRET"; "TRIPIT_USERNAME";
        "TRIPIT_PASSWORD" ] in
    let set name := Js.truthy (Js.get env name) <> None in
    ((exists client, Cli.createClient env = Ok client)
     <-> Forall set names)
    /\ (forall client,
           Cli.createClient env = Ok client ->
           accessToken client = None
           /\ Js.get env "TRIPIT_CLIENT_ID"
              = Some (clientId (config client))
           /\ Js.get env "TRIPIT_CLIENT_SECRET"
              = Some (clientSecret (config client))
           /\ Js.get env "TRIPIT_USERNAME"
              = Some (username (config client))
           /\ Js.get env "TRIPIT_PASSWORD"
              = Some (password (config client)))
    /\ (forall before name after,
           names = (before ++ name :: after)%list ->
           Forall set before ->
           ~ set name ->
           Cli.createClient env
           = Threw (Error ("Missing required env var: " ++ name))).
Proof.
  intros env names set.
  assert (forall name val,
             Js.truthy (Js.get env name) = Some val ->
             Js.get env name = Some val) as Hval.
  { intros name val. destruct (Js.get env name) as [[|a s]|]; cbn;
      congruence. }
  assert (forall name, ~ set name -> Js.truthy (Js.get env name) = None)
    as Hunset.
  { intros name Hname. unfold set in Hname.
    destruct (Js.truthy (Js.get env name)); [|reflexivity].
    exfalso. apply Hname. discriminate. }
  split; [|split].
  - split.
    + intros [client Hclient]. unfold Cli.createClient in Hclient.
      unfold names, set.
      destruct (Js.truthy (Js.get env "TRIPIT_CLIENT_ID")) eqn:H1;
        [|rewrite (requiredEnv_unset _ _ H1) in Hclient; discriminate].
      destruct (Js.truthy (Js.get env "TRIPIT_CLIENT_SECRET")) eqn:H2;
        [|rewrite (requiredEnv_unset _ _ H2) in Hclient;
          destruct (Cli.requiredEnv env "TRIPIT_CLIENT_ID");
          discriminate].
      destruct (Js.truthy (Js.get env "TRIPIT_USERNAME")) eqn:H3;
        [|rewrite (requiredEnv_unset _ _ H3) in Hclient;
          destruct (Cli.requiredEnv env "TRIPIT_CLIENT_ID");
          [destruct (Cli.requiredEnv env "TRIPIT_CLIENT_SECRET")|];
          discriminate].
      destruct (Js.truthy (Js.get env "TRIPIT_PASSWORD")) eqn:H4;
        [|rewrite (requiredEnv_unset _ _ H4) in Hclient;
          destruct (Cli.requiredEnv env "TRIPIT_CLIENT_ID");
          [destruct (Cli.requiredEnv env "TRIPIT_CLIENT_SECRET");
           [destruct (Cli.requiredEnv env "TRIPIT_USERNAME")|]|];
          discriminate].
      repeat constructor; congruence.
    + intros Hall. unfold names in Hall.
      inversion Hall as [|? ? H1 Hall1]; subst.
      inversion Hall1 as [|? ? H2 Hall2]; subst.
      inversion Hall2 as [|? ? H3 Hall3]; subst.
      inversion Hall3 as [|? ? H4 _]; subst.
      unfold set in H1, H2, H3, H4. unfold Cli.createClient.
      destruct (Js.truthy (Js.get env "TRIPIT_CLIENT_ID")) as [id|] eqn:E1;
        [|congruence].
      destruct (Js.truthy (Js.get env "TRIPIT_CLIENT_SECRET"))
        as [secret|] eqn:E2; [|congruence].
      destruct (Js.truthy (Js.get env "TRIPIT_USERNAME")) as [user|]
        eqn:E3; [|congruence].
      destruct (Js.truthy (Js.get env "TRIPIT_PASSWORD")) as [pass|]
        eqn:E4; [|congruence].
      rewrite (requiredEnv_set _ _ _ E1), (requiredEnv_set _ _ _ E2),
        (requiredEnv_set _ _ _ E3), (requiredEnv_set _ _ _ E4).
      eexists. reflexivity.
  - intros client. unfold Cli.createClient, Cli.requiredEnv.
    destruct (Js.truthy (Js.get env "TRIPIT_CLIENT_ID")) as [id|] eqn:E1;
      [|discriminate].
    destruct (Js.truthy (Js.get env "TRIPIT_CLIENT_SECRET"))
      as [secret|] eqn:E2; [|discriminate].
    destruct (Js.truthy (Js.get env "TRIPIT_USERNAME")) as [user|]
      eqn:E3; [|discriminate].
    destruct (Js.truthy (Js.get env "TRIPIT_PASSWORD")) as [pass|]
      eqn:E4; [|discriminate].
    intros [= <-]. cbn. auto 6.
  - intros before name after Hnames Hbefore Hname.
    apply Hunset in Hname. unfold names in Hnames.
    assert (forall n, In n before ->
                      exists val, Cli.requiredEnv env n = Ok val) as Hok.
    { intros n Hn. rewrite Forall_forall in Hbefore.
      specialize (Hbefore n Hn). unfold set in Hbefore.
      destruct (Js.truthy (Js.get env n)) as [val|] eqn:En;
        [|congruence].
      exists val. now apply requiredEnv_set. }
    unfold Cli.createClient.
    destruct before as [|n1 before]; cbn in Hnames.
    { injection Hnames as <- _.
      now rewrite (requiredEnv_unset _ _ Hname). }
    injection Hnames as <- Hnames.
    destruct (Hok "TRIPIT_CLIENT_ID" (or_introl eq_refl)) as [v1 ->].
    destruct before as [|n2 before]; cbn in Hnames.
    { injection Hnames as <- _.
      now rewrite (requiredEnv_unset _ _ Hname). }
    injection Hnames as <- Hnames.
    destruct (Hok "TRIPIT_CLIENT_SECRET" (or_intror (or_introl eq_refl)))
      as [v2 ->].
    destruct before as [|n3 before]; cbn in Hnames.
    { injection Hnames as <- _.
      now rewrite (requiredEnv_unset _ _ Hname). }
    injection Hnames as <- Hnames.
    destruct (Hok "TRIPIT_USERNAME"
                (or_intror (or_intror (or_introl eq_refl)))) as [v3 ->].
    destruct before as [|n4 before]; cbn in Hnames.
    { injection Hnames as <- _.
      now rewrite (requiredEnv_unset _ _ Hname). }
    destruct before; discriminate.
Qed.

(** ** What the create operations post *)

(** X20. [createHotel] sends one POST to the v2 [create/lodging]
    endpoint.  In the posted hotel nothing is [null] or [undefined] at
    any depth; the trip is named under [trip_uuid] when the identifier
    holds a hyphen and under [trip_id] otherwise, never under both; a
    check-in time of hours and minutes is completed with seconds and an
    empty one is left out; the optional members of the address are there
    only when given. *)
Theorem createHotel_posts_a_record_without_gaps :
  forall (R : Runtime) (c : TripIt) (params : CreateHotelParams)
         (w : World) (token : string),
    Js.truthy (accessToken c) = Some token ->
    let posted := member (createHotel_payload params) "LodgingObject" in
    let start := member posted "StartDateTime" in
    let address := member posted "Address" in
    sent (snd (createHotel R c params w))
    = (sent w
         ++ [ post_request token
                "https://api.tripit.com/v2/create/lodging/format/json"
                (VObj [("LodgingObject", posted)]) ])%list
    /\ tidy posted = true
    /\ (if includes "-" (ch_tripId params)
        then member posted "trip_uuid" = VStr (ch_tripId params)
             /\ member posted "trip_id" = VUndefined
        else member posted "trip_id" = VStr (ch_tripId params)
             /\ member posted "trip_uuid" = VUndefined)
    /\ member posted "supplier_name" = VStr (ch_hotelName params)
    /\ member start "time"
       = (if String.eqb (ch_checkInTime params) "" then VUndefined
          else if (colons (ch_checkInTime params) =? 1)%nat
               then VStr (ch_checkInTime params ++ ":00")
               else VStr (ch_checkInTime params))
    /\ member start "timezone" = VStr (ch_timezone params)
    /\ member address "address" = VStr (ch_street params)
    /\ member address "state" = of_string (ch_state params)
    /\ member address "zip" = of_string (ch_zip params).
Proof.
  intros R c params w token Hc posted start address.
  assert (start
          = clean
              (VObj
                 [ ("date", VStr (ch_checkInDate params));
                   ("time",
                    of_string
                      (Helpers.normalizeTime (ch_checkInTime params)));
                   ("timezone", VStr (ch_timezone params)) ])) as Hstart.
  { unfold start, posted, createHotel_payload.
    cbn [member Js.get String.eqb Ascii.eqb Bool.eqb].
    destruct (includes "-" (ch_tripId params));
      rewrite member_clean_record by (cbn; distinct_names);
      reflexivity. }
  assert (address
          = clean
              (VObj
                 [ ("address", VStr (ch_street params));
                   ("city", VStr (ch_city params));
                   ("state", of_string (ch_state params));
                   ("zip", of_string (ch_zip params));
                   ("country", VStr (ch_country params)) ])) as Haddress.
  { unfold address, posted, createHotel_payload.
    cbn [member Js.get String.eqb Ascii.eqb Bool.eqb].
    destruct (includes "-" (ch_tripId params));
      rewrite member_clean_record by (cbn; distinct_names);
      cbn [member Js.get String.eqb Ascii.eqb Bool.eqb];
      unfold cleaned; rewrite clean_present; cbn [present];
      apply clean_twice. }
  assert (forall k, In k ["trip_uuid"; "trip_id"; "supplier_name"] ->
                    member posted k
                    = cleaned
                        (member
                           (VObj
                              [ (if includes "-" (ch_tripId params)
                                 then "trip_uuid" else "trip_id",
                                 VStr (ch_tripId params));
                                ("supplier_name",
                                 VStr (ch_hotelName params)) ])
                           k)) as Hplain.
  { intros k Hk. unfold posted, createHotel_payload.
    cbn [member Js.get String.eqb Ascii.eqb Bool.eqb].
    cbn in Hk.
    destruct (includes "-" (ch_tripId params));
      rewrite member_clean_record by (cbn; distinct_names);
      destruct Hk as [<-|[<-|[<-|[]]]]; reflexivity. }
  split; [|split; [|split; [|split; [|split; [|split; [|split;
    [|split]]]]]]].
  - unfold createHotel. rewrite (apiPost_sends R c _ _ _ token Hc).
    reflexivity.
  - unfold posted, createHotel_payload.
    cbn [member Js.get String.eqb Ascii.eqb Bool.eqb].
    apply clean_tidy.
  - rewrite (Hplain "trip_uuid"), (Hplain "trip_id") by (cbn; tauto).
    destruct (includes "-" (ch_tripId params)); split; reflexivity.
  - rewrite (Hplain "supplier_name") by (cbn; tauto).
    destruct (includes "-" (ch_tripId params)); reflexivity.
  - rewrite Hstart, member_clean_record by (cbn; distinct_names).
    cbn [member Js.get String.eqb Ascii.eqb Bool.eqb].
    unfold Helpers.normalizeTime.
    destruct (String.eqb (ch_checkInTime params) ""); [reflexivity|].
    replace (colons (ch_checkInTime params) + 1 =? 2)%nat
      with (colons (ch_checkInTime params) =? 1)%nat
      by (destruct (Nat.eqb_spec (colons (ch_checkInTime params)) 1),
                   (Nat.eqb_spec (colons (ch_checkInTime params) + 1) 2);
          lia).
    now destruct (colons (ch_checkInTime params) =? 1)%nat.
  - rewrite Hstart, member_clean_record by (cbn; distinct_names).
    reflexivity.
  - rewrite Haddress, member_clean_record by (cbn; distinct_names).
    reflexivity.
  - rewrite Haddress, member_clean_record by (cbn; distinct_names).
    cbn [member Js.get String.eqb Ascii.eqb Bool.eqb].
    now destruct (ch_state params).
  - rewrite Haddress, member_clean_record by (cbn; distinct_names).
    cbn [member Js.get String.eqb Ascii.eqb Bool.eqb].
    now destruct (ch_zip params).
Qed.

(** X21. [createTrip] sends one POST to the v2 [create/trip] endpoint;
    its body is the form field [json] holding the JSON text of the trip:
    name and dates always, in that order, and the primary location only
    when one was given (no [null] is written for it). *)
Theorem createTrip_sends_the_trip_as_json :
  forall (R : Runtime) (c : TripIt) (params : CreateTripParams)
         (w : World) (token : string),
    Js.truthy (accessToken c) = Some token ->
    let object members := "{" ++ String.concat "," members ++ "}" in
    let entry name text := json_quote name ++ ":" ++ text in
    let text :=
      object
        [ entry "Trip"
            (object
               ([ entry "display_name"
                    (json_quote (ct_displayName params));
                  entry "start_date" (json_quote (ct_startDate params));
                  entry "end_date" (json_quote (ct_endDate params)) ]
                ++ match ct_primaryLocation params with
                   | Some place =>
                       [entry "primary_location" (json_quote place)]
                   | None => []
                   end)%list) ] in
    exists request,
      sent (snd (createTrip R c params w)) = (sent w ++ [request])%list
      /\ req_method request = POST
      /\ req_url request
         = "https://api.tripit.com/v2/create/trip/format/json"
      /\ Js.get (req_headers request) "Authorization"
         = Some ("Bearer " ++ token)
      /\ req_body request = Some ("json=" ++ Codec.form_encode text).
Proof.
  intros R c params w token Hc object entry text.
  exists (post_request token (endpoint "v2" "create/trip")
            (createTrip_payload params)).
  split; [|split; [|split; [|split]]]; try reflexivity.
  - unfold createTrip. apply (apiPost_sends R c _ _ _ token Hc).
  - assert (json_text (createTrip_payload params) = text) as Htext.
    { unfold text, object, entry, json_text, createTrip_payload.
      destruct (ct_primaryLocation params); reflexivity. }
    unfold post_request, req_body, Codec.urlencoded. rewrite Htext.
    reflexivity.
Qed.

(** ** The end of a redirect chain *)

(** X22. When the first [n] answers, fewer than five, are redirects the
    resolver follows and the next answer is not a redirect, that answer
    is the login page: [followRedirects] returns its body together with
    the URL the chain ended at (each [Location] resolved against the URL
    of the hop before), provided the page has a form input named
    [username] and one named [password], and throws "Login form not
    found" otherwise.  A 302 or 303 without a (non-empty) [Location]
    ends the chase with "Redirect without location header".  In both
    cases the requests sent are those of the hops and of the final URL,
    [n + 1] in all. *)
Theorem login_page_is_taken_at_the_end_of_the_chain :
  forall (P : Platform) (n : nat) (url : string) (w : World)
         (page : Response) (rest : list Response),
    (n < 5)%nat ->
    redirect_chain P n url (inbox w) = true ->
    skipn n (inbox w) = page :: rest ->
    let final := chain_end P n url (inbox w) in
    let asked :=
      map page_request (chain_hops P n url (inbox w) ++ [final]) in
    let doc := cheerio_load P (body page) in
    List.length asked = S n
    /\ (status page <> 302 -> status page <> 303 ->
        exists w',
          followRedirects P url w
          = (if (count_inputs_named doc "username" =? 0)%nat
                || (count_inputs_named doc "password" =? 0)%nat
             then Threw (Error "Login form not found")
             else Ok (body page, final),
             w')
          /\ sent w' = (sent w ++ asked)%list
          /\ inbox w' = rest)
    /\ (status page = 302 \/ status page = 303 ->
        Js.truthy (location page) = None ->
        exists w',
          followRedirects P url w
          = (Threw (Error "Redirect without location header"), w')
          /\ sent w' = (sent w ++ asked)%list
          /\ inbox w' = rest).
Proof.
  intros P n url w page rest Hn Hchain Hpage final asked doc.
  assert (forall answers u,
             redirect_chain P n u answers = true ->
             List.length (chain_hops P n u answers) = n) as Hlen.
  { clear. induction n as [|n IH]; intros answers u Hc; [reflexivity|].
    destruct answers as [|res tail]; [discriminate|].
    cbn in Hc |- *. apply andb_prop in Hc. destruct Hc as [_ Hc].
    destruct (Js.truthy (location res)) as [loc|]; [|discriminate].
    destruct (URL_new P loc u); [|discriminate].
    cbn. f_equal. now apply IH. }
  destruct (loop_along_chain P n (5 - n) url w Hchain)
    as [w1 [Hrun [Hsent Hbox]]].
  replace (n + (5 - n))%nat with 5%nat in Hrun by lia.
  destruct (5 - n)%nat as [|k] eqn:Hk; [lia|].
  rewrite Hpage in Hbox. fold final in Hrun.
  unfold followRedirects. rewrite Hrun.
  assert (sent (snd (fetch (page_request final) w1))
          = (sent w ++ asked)%list) as Hasked.
  { rewrite fetch_logs, Hsent. unfold asked.
    now rewrite map_app, app_assoc. }
  split; [|split].
  - unfold asked. rewrite length_map, length_app, (Hlen _ _ Hchain).
    cbn. lia.
  - intros H302 H303.
    exists (snd (fetch (page_request final) w1)).
    rewrite (loop_stops P k final w1 page rest) by assumption.
    split; [reflexivity|]. split; [exact Hasked|].
    now apply fetch_takes with page.
  - intros Hst Hloc.
    exists (snd (fetch (page_request final) w1)).
    split; [|split; [exact Hasked | now apply fetch_takes with page]].
    cbn [followRedirects_loop]. unfold bind, fetch. rewrite Hbox.
    cbn [snd].
    replace ((status page =? 302) || (status page =? 303)) with true
      by (destruct Hst as [-> | ->]; reflexivity).
    now rewrite Hloc.
Qed.

(** ** The meta refresh pattern *)

Lemma strip_prefix_splits p : forall s r,
  strip_prefix p s = Some r -> s = p ++ r.
Proof.
  induction p as [|a p IH]; intros s r; cbn.
  - now intros [= ->].
  - destruct s as [|b s]; [discriminate|].
    destruct (Ascii.eqb_spec a b) as [->|]; [|discriminate].
    intros H. now rewrite (IH _ _ H).
Qed.

Lemma strip_prefix_append p r : strip_prefix p (p ++ r) = Some r.
Proof.
  induction p as [|a p IH]; cbn; [reflexivity|].
  now rewrite Ascii.eqb_refl.
Qed.

Lemma length_of_append (a b : string) :
  String.length (a ++ b) = (String.length a + String.length b)%nat.
Proof. induction a as [|c a IH]; cbn; congruence. Qed.

(** Of two ways to cut a text, the one with the longer head has the
    shorter tail, which ends the other tail. *)
Lemma later_tail a : forall p t target,
  a ++ t = p ++ target ->
  (String.length p <= String.length a)%nat ->
  exists extra, target = extra ++ t.
Proof.
  induction a as [|c a IH]; intros p t target Heq Hlen.
  - destruct p; [|cbn in Hlen; lia]. exists "". cbn in *. congruence.
  - destruct p as [|d p].
    + exists (String c a). cbn in *. congruence.
    + cbn in Heq, Hlen. injection Heq as _ Heq.
      apply (IH p t target Heq). lia.
Qed.

(** X23. The target that [submitLogin] takes from a meta refresh is the
    rest of the [content] after an occurrence of [URL=] (in capitals),
    up to its end: it is not empty and spans no line break, and quotes
    or blanks around it are kept as they are.  Whenever the content ends
    in [URL=] followed by such a rest, a target is found, and it ends
    with that rest. *)
Theorem meta_refresh_target_is_the_rest_after_URL :
  (forall content target,
      match_meta_url content = Some target ->
      target <> ""
      /\ has_line_terminator target = false
      /\ exists before, content = before ++ "URL=" ++ target)
  /\ (forall before rest,
         rest <> "" ->
         has_line_terminator rest = false ->
         exists extra,
           match_meta_url (before ++ "URL=" ++ rest) = Some (extra ++ rest)).
Proof.
  split.
  - intros content. induction content as [|c content IH]; intros target;
      [discriminate|].
    cbn [match_meta_url].
    assert (match_meta_url content = Some target ->
            target <> "" /\ has_line_terminator target = false
            /\ exists before,
                String c content = before ++ "URL=" ++ target) as Hlater.
    { intros H. destruct (IH _ H) as [Hne [Hline [before ->]]].
      split; [exact Hne|]. split; [exact Hline|].
      now exists (String c before). }
    destruct (strip_prefix "URL=" (String c content)) as [found|] eqn:Hp;
      [|exact Hlater].
    destruct (String.eqb_spec found "") as [->|Hne]; [exact Hlater|].
    destruct (has_line_terminator found) eqn:Hline; [exact Hlater|].
    cbn [negb andb]. intros [= <-].
    split; [exact Hne|]. split; [exact Hline|].
    exists "". exact (strip_prefix_splits _ _ _ Hp).
  - intros before rest Hne Hline.
    induction before as [|c before IH].
    + exists "". cbn [append]. cbn [match_meta_url].
      change (String "U" (String "R" (String "L" (String "=" rest))))
        with ("URL=" ++ rest).
      rewrite strip_prefix_append, Hline.
      destruct (String.eqb_spec rest ""); [contradiction|reflexivity].
    + destruct IH as [extra IH].
      change (String c before ++ "URL=" ++ rest)
        with (String c (before ++ "URL=" ++ rest)).
      cbn [match_meta_url]. rewrite IH.
      destruct (strip_prefix "URL="
                  (String c (before ++ "URL=" ++ rest)))
        as [found|] eqn:Hp; [|now exists extra].
      destruct (negb (String.eqb found "")
                && negb (has_line_terminator found)); [|now exists extra].
      apply strip_prefix_splits in Hp.
      destruct (later_tail (String c (before ++ "URL=")) "URL=" rest found)
        as [more Hmore].
      * rewrite <- Hp.
        change (String c (before ++ "URL=") ++ rest)
          with (String c ((before ++ "URL=") ++ rest)).
        now rewrite append_assoc.
      * cbn [String.length]. rewrite (length_of_append before "URL="). cbn. lia.
      * exists more. now rewrite Hmore.
Qed.

(** ** The small helpers *)

(** X24. [toBoolean] and [normalizeArray] settle after one pass: a flag
    read by [toBoolean] is [undefined] exactly when the value was [null]
    or [undefined] and a boolean otherwise, which reading again does not
    change (of the texts only ["true"] reads as true); the list
    [normalizeArray] makes of a value is the list it makes of that list,
    and it is empty exactly for a falsy value and for the empty array. *)
Theorem helpers_settle_after_one_pass :
  forall v : value,
    Helpers.toBoolean (Helpers.toBoolean v) = Helpers.toBoolean v
    /\ (Helpers.toBoolean v = VUndefined <-> present v = false)
    /\ (present v = true -> exists b, Helpers.toBoolean v = VBool b)
    /\ (forall s, Helpers.toBoolean (VStr s) = VBool true <-> s = "true")
    /\ Helpers.normalizeArray (VArr (Helpers.normalizeArray v))
       = Helpers.normalizeArray v
    /\ (Helpers.normalizeArray v = []
        <-> truthy v = false \/ v = VArr []).
Proof.
  intros v. split; [|split; [|split; [|split; [|split]]]].
  - now destruct v.
  - destruct v; cbn; split; congruence.
  - destruct v; cbn; try discriminate; intros _; eexists; reflexivity.
  - intros s. cbn. split.
    + intros [= H]. now apply String.eqb_eq.
    + intros ->. reflexivity.
  - reflexivity.
  - unfold Helpers.normalizeArray.
    destruct (truthy v) eqn:Hv; cbn [negb]; [|tauto].
    destruct v; split; try discriminate;
      try (intros [H|H]; discriminate).
    + intros ->. now right.
    + intros [H|[= ->]]; [discriminate | reflexivity].
Qed.

(** ** What is posted holds no [null] *)

Lemma get_In {V} (o : Js.obj V) k v : Js.get o k = Some v -> In (k, v) o.
Proof.
  induction o as [|[k' w] o IH]; cbn; [discriminate|].
  destruct (String.eqb_spec k' k) as [->|_].
  - intros [= ->]. now left.
  - intros H. right. auto.
Qed.

Lemma order_Forall {V} (Q : V -> Prop) (o : Js.obj V) order :
  Forall (fun kv => Q (snd kv)) o ->
  Forall (fun kv => Q (snd kv)) (orderObjectByKeys o order).
Proof.
  intros Ho. unfold orderObjectByKeys.
  assert (forall acc : Js.obj V,
             Forall (fun kv => Q (snd kv)) acc ->
             Forall (fun kv => Q (snd kv))
               (fold_left
                  (fun ordered key =>
                     match Js.get o key with
                     | Some v => Js.set ordered key v
                     | None => ordered
                     end) order acc)) as Hfold.
  { induction order as [|x order IH]; intros acc Hacc; cbn; auto.
    apply IH. destruct (Js.get o x) as [v|] eqn:Hx; auto.
    apply set_Forall; auto. intros k'. cbn.
    rewrite Forall_forall in Ho. exact (Ho _ (get_In _ _ _ Hx)). }
  apply Hfold. constructor.
Qed.

Lemma ordered_clean_tidy record order :
  tidy (ordered_clean record order) = true.
Proof.
  unfold ordered_clean. cbn [tidy]. apply forallb_Forall.
  apply (order_Forall (fun v => present v && tidy v = true)).
  apply forallb_Forall.
  pose proof (clean_tidy (VObj record)) as Htidy.
  rewrite clean_object in Htidy |- *. exact Htidy.
Qed.

(** X25. What the five update operations post holds no [null] and no
    [undefined], at any depth: putting the record in field order after
    cleaning it brings none back. *)
Theorem update_payloads_hold_no_null :
  forall record : Js.obj value,
    (forall order, tidy (ordered_clean record order) = true)
    /\ tidy (VObj (updateTrip_payload record)) = true
    /\ tidy (VObj (updateHotel_payload record)) = true
    /\ tidy (VObj (updateFlight_payload record)) = true
    /\ tidy (VObj (updateTransport_payload record)) = true
    /\ tidy (VObj (updateActivity_payload record)) = true.
Proof.
  intros record.
  assert (forall name order,
             tidy (VObj [(name, ordered_clean record order)]) = true)
    as Hone.
  { intros name order. cbn [tidy forallb snd].
    rewrite ordered_clean_tidy. reflexivity. }
  split; [intros order; apply ordered_clean_tidy|].
  repeat split; apply Hone.
Qed.

(** ** Form bodies *)

Lemma occurrences_app c a b :
  occurrences c (a ++ b) = (occurrences c a + occurrences c b)%nat.
Proof.
  induction a as [|x a IH]; cbn; [reflexivity|].
  destruct (Ascii.eqb x c); cbn; now rewrite IH.
Qed.

Lemma form_encode_one c :
  forallb form_safe
    (list_ascii_of_string
       (if Codec.is_alnum c || Codec.one_of "*-._" c then String c ""
        else if Ascii.eqb c " " then "+"
        else Codec.percent_byte c))
  = true.
Proof.
  destruct c as [[] [] [] [] [] [] [] []]; vm_compute; reflexivity.
Qed.

Lemma safe_text_has_no_separator s :
  forallb form_safe (list_ascii_of_string s) = true ->
  occurrences "=" s = 0%nat /\ occurrences "&" s = 0%nat.
Proof.
  induction s as [|c s IH]; cbn; [auto|].
  intros H. apply andb_prop in H. destruct H as [Hc Hs].
  destruct (IH Hs) as [He Ha].
  destruct (Ascii.eqb_spec c "=") as [->|_]; [discriminate|].
  destruct (Ascii.eqb_spec c "&") as [->|_]; [discriminate|].
  auto.
Qed.

Lemma chars_app a b :
  list_ascii_of_string (a ++ b)
  = (list_ascii_of_string a ++ list_ascii_of_string b)%list.
Proof. induction a as [|c a IH]; cbn; congruence. Qed.

Lemma form_encode_safe s :
  forallb form_safe (list_ascii_of_string (Codec.form_encode s)) = true.
Proof.
  induction s as [|c s IH]; [reflexivity|].
  cbn [Codec.form_encode]. rewrite chars_app, forallb_app, IH.
  now rewrite form_encode_one.
Qed.

Lemma urlencoded_separators pairs :
  occurrences "=" (Codec.urlencoded pairs) = List.length pairs
  /\ occurrences "&" (Codec.urlencoded pairs) = pred (List.length pairs).
Proof.
  induction pairs as [|[k v] pairs IH]; [split; reflexivity|].
  destruct (safe_text_has_no_separator _ (form_encode_safe k))
    as [Hke Hka].
  destruct (safe_text_has_no_separator _ (form_encode_safe v))
    as [Hve Hva].
  destruct pairs as [|p pairs].
  - cbn [Codec.urlencoded List.length pred].
    rewrite !occurrences_app, Hke, Hka, Hve, Hva. split; reflexivity.
  - destruct IH as [IHe IHa].
    change (Codec.urlencoded ((k, v) :: p :: pairs))
      with (Codec.form_encode k ++ "=" ++ Codec.form_encode v ++ "&"
            ++ Codec.urlencoded (p :: pairs)).
    rewrite !occurrences_app, Hke, Hka, Hve, Hva, IHe, IHa.
    cbn. split; reflexivity.
Qed.

(** X26. No value can add a field to a form body.  Whatever the page's
    fields, the user name and the password hold, the body of the login
    post has one [=] for each field of the submitted record and one [&]
    between two fields; the body of the token request has its five
    fields whatever the code and the client id are; the body of an API
    post is the single field [json] whatever the payload holds. *)
Theorem form_bodies_keep_their_fields :
  (forall finalUrl formAction submitData,
      exists text,
        req_body (login_request finalUrl formAction submitData) = Some text
        /\ occurrences "=" text = List.length submitData
        /\ occurrences "&" text = pred (List.length submitData))
  /\ (forall config code verifier,
         exists text,
           req_body (token_request config code verifier) = Some text
           /\ occurrences "=" text = 5%nat
           /\ occurrences "&" text = 4%nat)
  /\ (forall token path payload,
         exists text,
           req_body (post_request token path payload) = Some text
           /\ occurrences "=" text = 1%nat
           /\ occurrences "&" text = 0%nat
           /\ strip_prefix "json=" text
              = Some (Codec.form_encode (json_text payload))).
Proof.
  split; [|split].
  - intros finalUrl formAction submitData.
    exists (Codec.urlencoded submitData). split; [reflexivity|].
    apply urlencoded_separators.
  - intros config code verifier. eexists. split; [reflexivity|].
    apply (urlencoded_separators
             [ ("grant_type", "authorization_code"); ("code", code);
               ("redirect_uri", REDIRECT_URI);
               ("client_id", clientId config);
               ("code_verifier", verifier) ]).
  - intros token path payload. eexists. split; [reflexivity|].
    destruct (urlencoded_separators [("json", json_text payload)])
      as [He Ha].
    split; [exact He|]. split; [exact Ha|]. reflexivity.
Qed.

(** ** The script pattern *)

(** One white-space character is one to three bytes, whatever follows. *)
Lemma strip_space_splits s r :
  strip_space s = Some r ->
  exists ch,
    s = ch ++ r
    /\ (1 <= String.length ch)%nat
    /\ forall r', strip_space (ch ++ r') = Some r'.
Proof.
  unfold strip_space. destruct s as [|a r1]; [discriminate|].
  destruct (((9 <=? code a) && (code a <=? 13)) || (code a =? 32)) eqn:H1.
  - intros [= <-]. exists (String a ""). split; [reflexivity|].
    split; [cbn; lia|]. intros r'. cbn [append]. now rewrite H1.
  - destruct r1 as [|b r2]; [discriminate|].
    destruct ((code a =? 194) && (code b =? 160)) eqn:H2.
    + intros [= <-]. exists (String a (String b "")).
      split; [reflexivity|]. split; [cbn; lia|].
      intros r'. cbn [append]. now rewrite H1, H2.
    + destruct r2 as [|c r3]; [discriminate|].
      destruct (wide_space (code a) (code b) (code c)) eqn:H3;
        [|discriminate].
      intros [= <-]. exists (String a (String b (String c ""))).
      split; [reflexivity|]. split; [cbn; lia|].
      intros r'. cbn [append]. now rewrite H1, H2, H3.
Qed.

Lemma skip_spaces_upto_splits fuel :
  forall s,
    exists sp,
      s = sp ++ skip_spaces_upto fuel s
      /\ forall fuel', (String.length sp <= fuel')%nat ->
                       skip_spaces_upto fuel' sp = "".
Proof.
  induction fuel as [|fuel IH]; intros s.
  - exists "". split; [reflexivity|]. intros [|f] _; reflexivity.
  - cbn [skip_spaces_upto].
    destruct (strip_space s) as [r|] eqn:Hs.
    + destruct (strip_space_splits _ _ Hs) as [ch [-> [Hlen Hch]]].
      destruct (IH r) as [sp [Hr Hsp]].
      exists (ch ++ sp). split.
      * rewrite append_assoc. now rewrite <- Hr.
      * intros fuel' Hfuel. rewrite length_of_append in Hfuel.
        destruct fuel' as [|f]; [lia|].
        cbn [skip_spaces_upto]. rewrite Hch. apply Hsp. lia.
    + exists "". split; [reflexivity|]. intros [|f] _; reflexivity.
Qed.

Lemma skip_spaces_splits s :
  exists sp, s = sp ++ skip_spaces s /\ blank sp = true.
Proof.
  destruct (skip_spaces_upto_splits (String.length s) s) as [sp [Hs Hsp]].
  exists sp. split; [exact Hs|].
  unfold blank, skip_spaces. now rewrite Hsp.
Qed.

Lemma take_unquoted_splits s :
  forall run after,
    take_unquoted s = (run, after) ->
    s = run ++ after
    /\ unquoted run = true
    /\ (after = ""
        \/ exists q rest, after = String q rest /\ is_quote q = true).
Proof.
  induction s as [|c s IH]; intros run after; cbn [take_unquoted].
  - intros [= <- <-]. auto.
  - destruct (is_quote c) eqn:Hc.
    + intros [= <- <-]. split; [reflexivity|]. split; [reflexivity|].
      right. now exists c, s.
    + destruct (take_unquoted s) as [run' after'].
      intros [= <- <-].
      destruct (IH run' after' eq_refl) as [-> [Hrun Hafter]].
      split; [reflexivity|]. split; [|exact Hafter].
      unfold unquoted. cbn. now rewrite Hc.
Qed.

Lemma assignment_target_splits s target :
  assignment_target s = Some target ->
  exists sp1 sp2 q1 q2 after,
    s = sp1 ++ "=" ++ sp2 ++ String q1 (target ++ String q2 after)
    /\ blank sp1 = true /\ blank sp2 = true
    /\ is_quote q1 = true /\ is_quote q2 = true
    /\ target <> "" /\ unquoted target = true.
Proof.
  unfold assignment_target.
  destruct (skip_spaces_splits s) as [sp1 [Hs Hsp1]].
  destruct (skip_spaces s) as [|eq s1]; [discriminate|].
  destruct (Ascii.eqb_spec eq "=") as [->|]; [|discriminate].
  destruct (skip_spaces_splits s1) as [sp2 [Hs1 Hsp2]].
  destruct (skip_spaces s1) as [|q s2]; [discriminate|].
  destruct (is_quote q) eqn:Hq; [|discriminate].
  destruct (take_unquoted s2) as [run after] eqn:Htake.
  destruct (take_unquoted_splits _ _ _ Htake) as [Hs2 [Hrun Hafter]].
  destruct run as [|c run]; [discriminate|].
  destruct after as [|q2 after]; [discriminate|].
  intros [= <-].
  destruct Hafter as [|[q' [rest' [[= <- <-] Hq2]]]]; [discriminate|].
  exists sp1, sp2, q, q2, after.
  split; [|repeat split; auto; discriminate].
  rewrite Hs at 1. rewrite Hs1 at 1. rewrite Hs2 at 1. reflexivity.
Qed.

(** X27. The target that [submitLogin] takes from the scripts of the
    answer stands in an assignment to [window.location] or to
    [window.location.href]: after that name come optional white space,
    an equals sign, optional white space, a quote and the target, which
    is not empty, holds no quote and is followed by a quote.  The two
    quotes need not be of the same kind. *)
Theorem script_redirect_target_is_a_quoted_assignment :
  forall scripts target : string,
    match_js_redirect scripts = Some target ->
    target <> ""
    /\ unquoted target = true
    /\ exists before property sp1 sp2 q1 q2 after,
        scripts
        = before ++ "window.location" ++ property ++ sp1 ++ "=" ++ sp2
          ++ String q1 (target ++ String q2 after)
        /\ (property = "" \/ property = ".href")
        /\ blank sp1 = true /\ blank sp2 = true
        /\ is_quote q1 = true /\ is_quote q2 = true.
Proof.
  intros scripts. induction scripts as [|c scripts IH]; intros target;
    [discriminate|].
  cbn [match_js_redirect].
  assert (match_js_redirect scripts = Some target ->
          target <> "" /\ unquoted target = true
          /\ exists before property sp1 sp2 q1 q2 after,
              String c scripts
              = before ++ "window.location" ++ property ++ sp1 ++ "="
                ++ sp2 ++ String q1 (target ++ String q2 after)
              /\ (property = "" \/ property = ".href")
              /\ blank sp1 = true /\ blank sp2 = true
              /\ is_quote q1 = true /\ is_quote q2 = true) as Hlater.
  { intros H.
    destruct (IH _ H)
      as [Hne [Hun [before [property [sp1 [sp2 [q1 [q2 [after
            [-> Hrest]]]]]]]]]].
    split; [exact Hne|]. split; [exact Hun|].
    now exists (String c before), property, sp1, sp2, q1, q2, after. }
  destruct (strip_prefix "window.location" (String c scripts))
    as [tail|] eqn:Hp; [|exact Hlater].
  apply strip_prefix_splits in Hp.
  destruct (assignment_target tail) as [found|] eqn:Hfound.
  - intros [= <-].
    destruct (assignment_target_splits _ _ Hfound)
      as [sp1 [sp2 [q1 [q2 [after [-> [H1 [H2 [H3 [H4 [H5 H6]]]]]]]]]]].
    split; [exact H5|]. split; [exact H6|].
    exists "", "", sp1, sp2, q1, q2, after.
    split; [exact Hp|]. auto.
  - destruct (strip_prefix ".href" tail) as [tail'|] eqn:Hp';
      [|exact Hlater].
    apply strip_prefix_splits in Hp'.
    destruct (assignment_target tail') as [found|] eqn:Hfound';
      [|exact Hlater].
    intros [= <-].
    destruct (assignment_target_splits _ _ Hfound')
      as [sp1 [sp2 [q1 [q2 [after [-> [H1 [H2 [H3 [H4 [H5 H6]]]]]]]]]]].
    split; [exact H5|]. split; [exact H6|].
    exists "", ".href", sp1, sp2, q1, q2, after.
    split; [|auto]. rewrite Hp, Hp'. reflexivity.
Qed.

(** ** Flights and transport: the segment that is kept *)




Lemma updateFlight_after_read R c params w token identifier res rest :
  Js.truthy (accessToken c) = Some token ->
  Js.truthy (identifier_of (uf_uuid params) (uf_id params))
  = Some identifier ->
  inbox w = res :: rest ->
  updateFlight R c params w
  = andThen (read_answer R res)
      (fun existingFlightResponse =>
         andThen (read_member existingFlightResponse "AirObject")
           (fun existingFlight =>
              if negb (truthy (member existingFlight "uuid")) then
                raise ("Flight with identifier " ++ identifier
                       ++ " not found")
              else
                let existingSegment :=
                  first_segment (member existingFlight "Segment") in
                if negb (truthy existingSegment) then
                  raise ("Flight with identifier " ++ identifier
                         ++ " has no segment")
                else
                  let tripId :=
                    or_else
                      (or_else (of_string (uf_tripId params))
                         (member existingFlight "trip_uuid"))
                      (member existingFlight "trip_id") in
                  andThen (tripKey_of tripId)
                    (fun tripKey =>
                       apiPost R c
                         (endpoint "v2"
                            ("replace/air/uuid/"
                             ++ to_text (member existingFlight "uuid")))
                         (VObj (updateFlight_payload
                                  (airObject_of params existingFlight
                                     existingSegment tripId tripKey))))))
      (snd (fetch
              (get_request token
                 (identifierEndpoint "get" "air" identifier))
              w)).
Proof.
  intros Hc Hid Hin. unfold updateFlight. rewrite Hid.
  unfold andThen at 1. unfold getFlight.
  rewrite (apiGet_answered R c _ w token res rest Hc Hin).
  symmetry. unfold andThen at 1.
  rewrite (read_answer_anywhere R res w). cbn [fst snd].
  now destruct (fst (read_answer R res w)).
Qed.

Lemma updateTransport_after_read R c params w token identifier res rest :
  Js.truthy (accessToken c) = Some token ->
  Js.truthy (identifier_of (ux_uuid params) (ux_id params))
  = Some identifier ->
  inbox w = res :: rest ->
  updateTransport R c params w
  = andThen (read_answer R res)
      (fun existingTransportResponse =>
         andThen (read_member existingTransportResponse "TransportObject")
           (fun existingTransport =>
              if negb (truthy (member existingTransport "uuid")) then
                raise ("Transport with identifier " ++ identifier
                       ++ " not found")
              else
                let existingSegment :=
                  first_segment (member existingTransport "Segment") in
                if negb (truthy existingSegment) then
                  raise ("Transport with identifier " ++ identifier
                         ++ " has no segment")
                else
                  let tripId :=
                    or_else
                      (or_else (of_string (ux_tripId params))
                         (member existingTransport "trip_uuid"))
                      (member existingTransport "trip_id") in
                  andThen (tripKey_of tripId)
                    (fun tripKey =>
                       apiPost R c
                         (endpoint "v2"
                            ("replace/transport/uuid/"
                             ++ to_text (member existingTransport "uuid")))
                         (VObj (updateTransport_payload
                                  (transportObject_of params
                                     existingTransport existingSegment
                                     tripId tripKey))))))
      (snd (fetch
              (get_request token
                 (identifierEndpoint "get" "transport" identifier))
              w)).
Proof.
  intros Hc Hid Hin. unfold updateTransport. rewrite Hid.
  unfold andThen at 1. unfold getTransport.
  rewrite (apiGet_answered R c _ w token res rest Hc Hin).
  symmetry. unfold andThen at 1.
  rewrite (read_answer_anywhere R res w). cbn [fst snd].
  now destruct (fst (read_answer R res w)).
Qed.


(** X29. A flight or a transport whose record holds no segment is not
    rewritten: when the [Segment] on record is missing, an empty array,
    or begins with a falsy element, the update fails with "... has no
    segment" and the read is the only request it has sent. *)
Theorem update_without_segment_is_refused :
  forall (R : Runtime) (c : TripIt) (w : World) (token identifier : string)
         (res : Response) (rest : list Response) (response : value),
    Js.truthy (accessToken c) = Some token ->
    inbox w = res :: rest ->
    ok res = true ->
    JSON_parse_value R (body res) = Some response ->
    present response = true ->
    (forall params,
        Js.truthy (identifier_of (uf_uuid params) (uf_id params))
        = Some identifier ->
        truthy (member (member response "AirObject") "uuid") = true ->
        truthy
          (first_segment (member (member response "AirObject") "Segment"))
        = false ->
        let read :=
          get_request token (identifierEndpoint "get" "air" identifier) in
        updateFlight R c params w
        = (Failed (Raised (Error ("Flight with identifier " ++ identifier
                                  ++ " has no segment"))),
           snd (fetch read w))
        /\ sent (snd (fetch read w)) = (sent w ++ [read])%list)
    /\ (forall params,
           Js.truthy (identifier_of (ux_uuid params) (ux_id params))
           = Some identifier ->
           truthy (member (member response "TransportObject") "uuid")
           = true ->
           truthy
             (first_segment
                (member (member response "TransportObject") "Segment"))
           = false ->
           let read :=
             get_request token
               (identifierEndpoint "get" "transport" identifier) in
           updateTransport R c params w
           = (Failed
                (Raised (Error ("Transport with identifier " ++ identifier
                                ++ " has no segment"))),
              snd (fetch read w))
           /\ sent (snd (fetch read w)) = (sent w ++ [read])%list)
    /\ (forall node,
           truthy (first_segment node) = false
           <-> truthy node = false
               \/ node = VArr []
               \/ exists x items, node = VArr (x :: items)
                                  /\ truthy x = false).
Proof.
  intros R c w token identifier res rest response Hc Hin Hok Hjson
         Hpresent.
  split; [|split].
  - intros params Hid Huuid Hnone read. split; [|apply fetch_logs].
    rewrite (updateFlight_after_read R c params w token identifier res rest)
      by assumption.
    unfold andThen at 1, read_answer. rewrite Hok, Hjson. cbn [negb done].
    unfold andThen at 1. rewrite read_member_present by assumption.
    rewrite Huuid. cbn [negb]. cbv zeta. rewrite Hnone. reflexivity.
  - intros params Hid Huuid Hnone read. split; [|apply fetch_logs].
    rewrite (updateTransport_after_read R c params w token identifier res
               rest) by assumption.
    unfold andThen at 1, read_answer. rewrite Hok, Hjson. cbn [negb done].
    unfold andThen at 1. rewrite read_member_present by assumption.
    rewrite Huuid. cbn [negb]. cbv zeta. rewrite Hnone. reflexivity.
  - intros node. unfold first_segment, Helpers.normalizeArray.
    assert (forall v : value,
               ~ (v = VArr []
                  \/ exists x items, v = VArr (x :: items)
                                     /\ truthy x = false) ->
               truthy v = true ->
               (true = false
                <-> truthy v = false
                    \/ v = VArr []
                    \/ exists x items, v = VArr (x :: items)
                                       /\ truthy x = false)) as Hother.
    { intros v Hv Ht. split; [discriminate|].
      intros [H|H]; [congruence | contradiction]. }
    destruct node as [| | flag | n | s | items | fields].
    + split; [intros _; now left | reflexivity].
    + split; [intros _; now left | reflexivity].
    + destruct flag; cbn.
      * apply (Hother (VBool true)); [|reflexivity].
        intros [H|[x [l [H _]]]]; discriminate.
      * split; [intros _; now left | reflexivity].
    + cbn. destruct (n =? 0) eqn:Hn; cbn.
      * split; [intros _; now left | reflexivity].
      * rewrite Hn. cbn. split; [discriminate|].
        intros [H|[H|[x [l [H _]]]]]; discriminate.
    + cbn. destruct (String.eqb s "") eqn:Hs; cbn.
      * split; [intros _; now left | reflexivity].
      * rewrite Hs. cbn. split; [discriminate|].
        intros [H|[H|[x [l [H _]]]]]; discriminate.
    + destruct items as [|x items]; cbn.
      * split; [intros _; right; now left | reflexivity].
      * split.
        -- intros H. right. right. now exists x, items.
        -- intros [H|[H|[x' [items' [[= <- <-] H]]]]];
             [discriminate | discriminate | exact H].
    + cbn. split; [discriminate|].
      intros [H|[H|[x [l [H _]]]]]; discriminate.
Qed.

(** ** Created transports and flights *)

Lemma concat_nonempty sep (l : list string) :
  Forall (fun s => s <> "") l -> l <> [] -> String.concat sep l <> "".
Proof.
  destruct l as [|a [|b l]]; cbn; intros Hall Hne; [congruence| |].
  - now inversion Hall.
  - inversion Hall as [|? ? Ha _]; subst.
    destruct a; [contradiction|discriminate].
Qed.

(** X30. A transport is never created without a name: [display_name] is
    the given name when it is not empty; else the start and end places
    (location name, else address) that are not empty, joined by the
    separator; else ["Transport"].  It is filed under [trip_uuid] or
    [trip_id] by the hyphen rule, with one segment.  A flight is filed
    under [trip_uuid] whatever its trip identifier looks like, with one
    posted segment for each one given, in the same order. *)
Theorem created_transport_is_named_and_flight_filed_by_uuid :
  (forall params : CreateTransportParams,
      let posted :=
        member (createTransport_payload params) "TransportObject" in
      member posted "display_name" = VStr (transport_name params)
      /\ transport_name params <> ""
      /\ (forall name,
             Js.truthy (cx_displayName params) = Some name ->
             transport_name params = name)
      /\ (Js.truthy (cx_displayName params) = None ->
          forall a b,
            Js.truthy (cx_startLocationName params) = Some a ->
            Js.truthy (cx_endLocationName params) = Some b ->
            transport_name params = a ++ places_separator ++ b)
      /\ (Js.truthy (cx_displayName params) = None ->
          Js.truthy (cx_startLocationName params) = None ->
          Js.truthy (cx_endLocationName params) = None ->
          cx_startAddress params = "" -> cx_endAddress params = "" ->
          transport_name params = "Transport")
      /\ member posted
           (if includes "-" (cx_tripId params)
            then "trip_uuid" else "trip_id")
         = VStr (cx_tripId params)
      /\ exists segment, member posted "Segment" = VArr [segment])
  /\ (forall params : CreateFlightParams,
         let posted := member (createFlight_payload params) "AirObject" in
         member posted "trip_uuid" = VStr (cf_tripId params)
         /\ member posted "trip_id" = VUndefined
         /\ member posted "Segment"
            = VArr (map createFlight_segment (cf_segments params))
         /\ tidy posted = true).
Proof.
  split.
  - intros params posted.
    assert (transport_name params <> "") as Hname.
    { unfold transport_name, text_or.
      destruct (Js.truthy (cx_displayName params)) as [name|] eqn:Hd.
      - destruct (cx_displayName params) as [[|a s]|]; cbn in Hd;
          try discriminate.
        injection Hd as <-. discriminate.
      - match goal with
        | |- (if String.eqb ?j "" then _ else _) <> "" =>
            destruct (String.eqb_spec j ""); [discriminate | assumption]
        end. }
    split; [|split; [exact Hname|split; [|split; [|split; [|split]]]]].
    + unfold posted, createTransport_payload.
      cbn [member Js.get String.eqb Ascii.eqb Bool.eqb].
      destruct (includes "-" (cx_tripId params));
        rewrite member_clean_record by (cbn; distinct_names);
        reflexivity.
    + intros name Hd. unfold transport_name, text_or. now rewrite Hd.
    + intros Hd a b Ha Hb. unfold transport_name, text_or.
      rewrite Hd, Ha, Hb.
      assert (a <> "" /\ b <> "") as [Hane Hbne].
      { split.
        - destruct (cx_startLocationName params) as [[|x s]|];
            cbn in Ha; try discriminate. injection Ha as <-. discriminate.
        - destruct (cx_endLocationName params) as [[|x s]|];
            cbn in Hb; try discriminate. injection Hb as <-. discriminate. }
      cbn [filter].
      destruct (String.eqb_spec a ""); [contradiction|].
      destruct (String.eqb_spec b ""); [contradiction|].
      cbn [negb String.concat].
      destruct (String.eqb_spec (a ++ places_separator ++ b) "")
        as [Hempty|_]; [|reflexivity].
      destruct a; [contradiction | discriminate].
    + intros Hd Ha Hb Hsa Hea. unfold transport_name, text_or.
      rewrite Hd, Ha, Hb, Hsa, Hea. reflexivity.
    + unfold posted, createTransport_payload.
      cbn [member Js.get String.eqb Ascii.eqb Bool.eqb].
      destruct (includes "-" (cx_tripId params));
        rewrite member_clean_record by (cbn; distinct_names);
        reflexivity.
    + unfold posted, createTransport_payload.
      cbn [member Js.get String.eqb Ascii.eqb Bool.eqb].
      destruct (includes "-" (cx_tripId params));
        rewrite member_clean_record by (cbn; distinct_names);
        cbn [member Js.get String.eqb Ascii.eqb Bool.eqb cleaned present];
        rewrite clean_array; cbn [map filter];
        rewrite clean_present; cbn [present];
        eexists; reflexivity.
  - intros params posted.
    assert (forall k,
               member posted k
               = cleaned
                   (member
                      (VObj
                         [ ("trip_uuid", VStr (cf_tripId params));
                           ("display_name", VStr (cf_displayName params));
                           ("supplier_name",
                            VStr (cf_supplierName params));
                           ("supplier_conf_num",
                            of_string (cf_supplierConfNum params));
                           ("notes", of_string (cf_notes params));
                           ("total_cost", of_string (cf_totalCost params));
                           ("Segment",
                            VArr (map createFlight_segment
                                    (cf_segments params))) ]) k))
      as Hread.
    { intros k. unfold posted, createFlight_payload.
      cbn [member Js.get String.eqb Ascii.eqb Bool.eqb].
      apply member_clean_record. cbn. distinct_names. }
    split; [|split; [|split]].
    + rewrite Hread. reflexivity.
    + rewrite Hread. reflexivity.
    + rewrite Hread.
      cbn [member Js.get String.eqb Ascii.eqb Bool.eqb cleaned present].
      rewrite clean_array. f_equal. clear Hread.
      induction (cf_segments params) as [|s l IH]; [reflexivity|].
      assert (clean (createFlight_segment s) = createFlight_segment s)
        as Hfixed by (unfold createFlight_segment; apply clean_twice).
      assert (present (createFlight_segment s) = true) as Hthere
        by (unfold createFlight_segment; now rewrite clean_present).
      cbn [map filter]. rewrite Hfixed, Hthere, IH. reflexivity.
    + unfold posted, createFlight_payload.
      cbn [member Js.get String.eqb Ascii.eqb Bool.eqb].
      apply clean_tidy.
Qed.

(* ================================================================== *)
(** * The further properties on the sample data *)
(* ================================================================== *)

(** X2 on a record with a [null] member and a nested [undefined]. *)
Lemma clean_keeps_the_defined_members_witness :
  NoDup (Js.keys [ ("a", VNull); ("b", VStr "x");
                   ("c", VObj [("d", VUndefined); ("e", VNum 1)]) ])
  /\ plain_names (VObj [ ("a", VNull); ("b", VStr "x");
                         ("c", VObj [("d", VUndefined); ("e", VNum 1)]) ])
     = true
  /\ clean_any (VObj [ ("a", VNull); ("b", VStr "x");
                       ("c", VObj [("d", VUndefined); ("e", VNum 1)]) ])
     = VObj [ ("b", VStr "x"); ("c", VObj [("e", VNum 1)]) ].
Proof.
  assert (NoDup (Js.keys [ ("a", VNull); ("b", VStr "x");
                           ("c", VObj [("d", VUndefined); ("e", VNum 1)]) ]))
    as Hdistinct by (cbn; distinct_names).
  split; [exact Hdistinct|]. split; [reflexivity|].
  destruct (clean_keeps_the_defined_members _ Hdistinct eq_refl)
    as [Hany _].
  rewrite Hany. reflexivity.
Defined.

(** X4 on a time of hours and minutes. *)
Lemma normalizeTime_completes_hours_and_minutes_witness :
  Helpers.normalizeTime "15:30" = Some "15:30:00"
  /\ Helpers.normalizeTime "15:30:00" = Some "15:30:00".
Proof.
  destruct (normalizeTime_completes_hours_and_minutes "15:30")
    as [_ Hshape].
  destruct Hshape as [r [Hr [Heq [_ Hagain]]]]; [discriminate|].
  cbn in Heq. subst r. split; assumption.
Defined.

(** X5 on a newly built client. *)
Lemma unauthenticated_client_sends_nothing_witness :
  Js.truthy (accessToken (new_client Sample.config)) = None
  /\ getTrip Records.runtime (new_client Sample.config) "abc-1"
       (Records.api_world "TRIP" "UPDATED")
     = (Failed not_authenticated, Records.api_world "TRIP" "UPDATED")
  /\ updateTrip Records.runtime (new_client Sample.config) Records.rename
       (Records.api_world "TRIP" "UPDATED")
     = (Failed not_authenticated, Records.api_world "TRIP" "UPDATED")
  /\ sent (Records.api_world "TRIP" "UPDATED") = [].
Proof.
  destruct (unauthenticated_client_sends_nothing
              Records.runtime (new_client Sample.config)
              (Records.api_world "TRIP" "UPDATED") eq_refl)
    as [_ [Hget [_ [_ [_ [_ [_ [_ [_ [_ [_ [_ [_ [_ [_ [_ [Hupdate _]]]]]]]]]]]]]]]]].
  split; [reflexivity|]. split; [apply Hget|].
  split; [|reflexivity].
  apply (Hupdate Records.rename "abc-1"). reflexivity.
Defined.

(** X6 on an update whose [uuid] is empty and whose [id] is missing. *)
Lemma update_requires_an_identifier_witness :
  ut_uuid Records.nameless = Some ""
  /\ ut_id Records.nameless = None
  /\ updateTrip Records.runtime Records.signed_in Records.nameless
       (Records.api_world "TRIP" "UPDATED")
     = (Failed (Raised (Error "Either uuid or id parameter is required")),
        Records.api_world "TRIP" "UPDATED").
Proof.
  destruct (update_requires_an_identifier
              Records.runtime Records.signed_in
              (Records.api_world "TRIP" "UPDATED")) as [Htrip _].
  split; [reflexivity|]. split; [reflexivity|].
  apply Htrip; [right | left]; reflexivity.
Defined.

(** X7 on a read that the API answers with 404. *)
Lemma updateTrip_stops_after_a_failed_read_witness :
  fst (updateTrip Records.runtime Records.signed_in Records.rename
         Records.refusing_api)
  = Failed (Raised (Error "API error (404): Not found"))
  /\ List.length
       (sent (snd (updateTrip Records.runtime Records.signed_in
                     Records.rename Records.refusing_api)))
     = 1%nat.
Proof.
  destruct (updateTrip_stops_after_a_failed_read
              Records.runtime Records.signed_in Records.rename
              Records.refusing_api "tok-1" "abc-1"
              (Sample.answer 404 None "Not found") []
              eq_refl eq_refl eq_refl)
    as [Hsent [Hrefused _]].
  rewrite (Hrefused eq_refl). cbn [fst snd].
  split; [reflexivity|]. rewrite Hsent. reflexivity.
Defined.





(** X12 on a first login: the returned token is the one in the file. *)
Lemma returned_token_is_the_cached_one_witness :
  authenticate Sample.platform Sample.config Sample.first_world
  = (Ok (Some "tok-1"), Records.signed_world)
  /\ cache_hit Sample.first_world = None
  /\ (exists cached,
         cache_file Records.signed_world = Stored cached
         /\ access_token cached = Some "tok-1")
  /\ disk_writable Sample.first_world = true.
Proof.
  assert (authenticate Sample.platform Sample.config Sample.first_world
          = (Ok (Some "tok-1"), Records.signed_world)) as Hrun
    by (vm_compute; reflexivity).
  destruct (returned_token_is_the_cached_one
              Sample.platform Sample.config Sample.first_world
              Records.signed_world (Some "tok-1") Hrun)
    as [Hcached Hfresh].
  split; [exact Hrun|]. split; [reflexivity|].
  split; [exact Hcached|].
  exact (proj2 (Hfresh eq_refl)).
Defined.

(** X13 on the same login: fifty-nine and a half minutes later minus a
    second the token is handed out again, also to another account; a
    second later the flow starts anew. *)
Lemma fresh_token_is_reused_until_it_expires_witness :
  authenticate Sample.platform Records.other_secret
    (Records.in_time Records.signed_world)
  = (Ok (Some "tok-1"), Records.in_time Records.signed_world)
  /\ authenticate Sample.platform Sample.config
       (Records.too_late Records.signed_world)
     = full_flow Sample.platform Sample.config
         (Records.too_late Records.signed_world).
Proof.
  destruct (fresh_token_is_reused_until_it_expires
              Sample.platform Sample.config Sample.first_world
              Records.signed_world (Some "tok-1"))
    as [cached [Hfile Hlater]].
  - reflexivity.
  - vm_compute. reflexivity.
  - injection Hfile as <-. split.
    + destruct (Hlater Sample.platform Records.other_secret
                  (Records.in_time Records.signed_world) eq_refl)
        as [Hreuse _].
      apply (Hreuse 3600); [reflexivity | vm_compute; reflexivity].
    + destruct (Hlater Sample.platform Sample.config
                  (Records.too_late Records.signed_world) eq_refl)
        as [_ [Hagain _]].
      apply (Hagain 3600); [reflexivity | vm_compute; discriminate].
Defined.

(** X14 on two configurations that differ in the secret only. *)
Lemma client_secret_is_never_used_witness :
  clientSecret Sample.config <> clientSecret Records.other_secret
  /\ authenticate Sample.platform Sample.config Sample.first_world
     = authenticate Sample.platform Records.other_secret Sample.first_world.
Proof.
  split; [discriminate|].
  apply client_secret_is_never_used; reflexivity.
Defined.

(** X15 on a login whose redirect carries the state and no code. *)
Lemma missing_code_stops_before_the_exchange_witness :
  searchParams_get (searchParams Records.codeless_parsed) "code" = None
  /\ authenticate Records.codeless_platform Sample.config
       Records.codeless_world
     = (Threw (Error "Authorization code not found in redirect"),
        Records.codeless_after)
  /\ List.length (sent Records.codeless_after) = 4%nat
  /\ cache_file Records.codeless_after = Absent.
Proof.
  destruct (missing_code_stops_before_the_exchange
              Records.codeless_platform Sample.config
              Records.codeless_world Records.codeless_after
              Records.codeless_pending Records.codeless_parsed)
    as [Hrun [_ Hcache]].
  - reflexivity.
  - vm_compute. reflexivity.
  - vm_compute. reflexivity.
  - reflexivity.
  - left. reflexivity.
  - split; [reflexivity|]. split; [exact Hrun|].
    split; [reflexivity | exact Hcache].
Defined.

(** X16 on a whole login with the all-zero random source. *)
Lemma login_redeems_the_code_with_its_verifier_witness :
  fst (authenticate Sample.platform Sample.config Sample.first_world)
  = Ok (Some "tok-1")
  /\ List.length
       (sent (snd (authenticate Sample.platform Sample.config
                     Sample.first_world)))
     = 5%nat
  /\ cache_file
       (snd (authenticate Sample.platform Sample.config Sample.first_world))
     = Stored (cached_of 1700000000500 Sample.token_value).
Proof.
  destruct (login_redeems_the_code_with_its_verifier
              Sample.platform Sample.config Sample.first_world
              Records.first_after Sample.good_pending Sample.good_parsed
              "XYZ" "tok-1" (Sample.answer 200 None Sample.token_json) []
              Sample.token_value)
    as [Hrun [Hsent [_ [_ Hfile]]]].
  - reflexivity.
  - reflexivity.
  - vm_compute. reflexivity.
  - vm_compute. reflexivity.
  - reflexivity.
  - reflexivity.
  - reflexivity.
  - reflexivity.
  - vm_compute. reflexivity.
  - reflexivity.
  - split; [exact Hrun|]. split; [now rewrite Hsent | exact Hfile].
Defined.

(** X17 on a client that has just signed in. *)
Lemma authenticated_client_presents_its_token_witness :
  client_authenticate Sample.platform (new_client Sample.config)
    Sample.first_world
  = (Returned (Some "tok-1", Records.signed_in), Records.signed_world)
  /\ sent (snd (deleteTrip Records.runtime Records.signed_in "abc-1"
                  Records.signed_world))
     = (sent Records.signed_world
          ++ [ get_request "tok-1"
                 "https://api.tripit.com/v2/delete/trip/uuid/abc-1/format/json"
             ])%list.
Proof.
  assert (client_authenticate Sample.platform (new_client Sample.config)
            Sample.first_world
          = (Returned (Some "tok-1", Records.signed_in),
             Records.signed_world)) as Hrun
    by (vm_compute; reflexivity).
  destruct (authenticated_client_presents_its_token
              Sample.platform Records.runtime (new_client Sample.config)
              Records.signed_in Sample.first_world Records.signed_world
              (Some "tok-1") Hrun)
    as [_ [_ [Hbearer _]]].
  split; [exact Hrun|].
  destruct (Hbearer "tok-1" eq_refl) as [Hget _].
  exact (Hget "https://api.tripit.com/v2/delete/trip/uuid/abc-1/format/json"
           Records.signed_world).
Defined.

(** X18 on an answer that carries a profile. *)
Lemma getTrip_includes_objects_and_drops_the_profile_witness :
  map req_url
    (sent (snd (getTrip Records.runtime Records.signed_in "abc-1"
                  (Records.api_world "UPDATED" "TRIP"))))
  = [ "https://api.tripit.com/v2/get/trip/uuid/abc-1/include_objects/true/format/json" ]
  /\ exists data,
       fst (getTrip Records.runtime Records.signed_in "abc-1"
              (Records.api_world "UPDATED" "TRIP"))
       = Returned data
       /\ member data "Profile" = VUndefined
       /\ member data "Trip" = Records.trip_on_record.
Proof.
  destruct (getTrip_includes_objects_and_drops_the_profile
              Records.runtime Records.signed_in "abc-1"
              (Records.api_world "UPDATED" "TRIP") "tok-1"
              (Sample.answer 200 None "UPDATED")
              [Sample.answer 200 None "TRIP"] eq_refl eq_refl eq_refl)
    as [Hsent [_ [Hanswer _]]].
  split.
  - rewrite Hsent. reflexivity.
  - destruct (Hanswer
                (VObj [ ("Trip", Records.trip_on_record);
                        ("Profile", VObj [("x", VNum 1)]) ])
                eq_refl eq_refl)
      as [data [Hdata [Hprofile [_ Hothers]]]].
    exists data. split; [exact Hdata|].
    split; [exact (Hprofile eq_refl)|].
    rewrite (Hothers "Trip") by discriminate. reflexivity.
Defined.

(** X19 on a configured shell and on one whose user name is empty. *)
Lemma createClient_needs_the_four_variables_witness :
  (exists client,
      Cli.createClient Records.full_env = Ok client
      /\ accessToken client = None
      /\ Js.get Records.full_env "TRIPIT_USERNAME"
         = Some (username (config client)))
  /\ Cli.createClient Records.partial_env
     = Threw (Error "Missing required env var: TRIPIT_USERNAME").
Proof.
  destruct (createClient_needs_the_four_variables Records.full_env)
    as [[_ Hbuilt] [Hholds _]].
  destruct (createClient_needs_the_four_variables Records.partial_env)
    as [_ [_ Hnamed]].
  split.
  - destruct Hbuilt as [client Hclient].
    + repeat constructor; discriminate.
    + exists client. destruct (Hholds client Hclient)
        as [Htoken [_ [_ [Huser _]]]].
      auto.
  - apply (Hnamed ["TRIPIT_CLIENT_ID"; "TRIPIT_CLIENT_SECRET"]
             "TRIPIT_USERNAME" ["TRIPIT_PASSWORD"]).
    + reflexivity.
    + repeat constructor; discriminate.
    + intros Hset. apply Hset. reflexivity.
Defined.

(** X20 on a hotel for a trip named by uuid, with no check-out time. *)
Lemma createHotel_posts_a_record_without_gaps_witness :
  let posted :=
    member (createHotel_payload Records.new_hotel) "LodgingObject" in
  List.length
    (sent (snd (createHotel Records.runtime Records.signed_in
                  Records.new_hotel (Records.api_world "HOTEL" "TRIP"))))
  = 1%nat
  /\ member posted "trip_uuid" = VStr "abc-1"
  /\ member posted "trip_id" = VUndefined
  /\ member (member posted "StartDateTime") "time" = VStr "15:00:00"
  /\ member (member posted "EndDateTime") "time" = VUndefined
  /\ member (member posted "Address") "state" = VUndefined.
Proof.
  destruct (createHotel_posts_a_record_without_gaps
              Records.runtime Records.signed_in Records.new_hotel
              (Records.api_world "HOTEL" "TRIP") "tok-1" eq_refl)
    as [Hsent [_ [Hkey [_ [Htime [_ [_ [Hstate _]]]]]]]].
  cbv zeta. split; [now rewrite Hsent|].
  split; [exact (proj1 Hkey)|]. split; [exact (proj2 Hkey)|].
  split; [exact Htime|]. split; [reflexivity | exact Hstate].
Defined.

(** X21 on a trip without a primary location. *)
Lemma createTrip_sends_the_trip_as_json_witness :
  exists request,
    sent (snd (createTrip Records.runtime Records.signed_in
                 Records.new_trip (Records.api_world "TRIP" "TRIP")))
    = [request]
    /\ req_body request
       = Some ("json=%7B%22Trip%22%3A%7B%22display_name%22%3A%22Summer"
               ++ "%22%2C%22start_date%22%3A%222026-07-01%22%2C%22"
               ++ "end_date%22%3A%222026-07-10%22%7D%7D").
Proof.
  destruct (createTrip_sends_the_trip_as_json
              Records.runtime Records.signed_in Records.new_trip
              (Records.api_world "TRIP" "TRIP") "tok-1" eq_refl)
    as [request [Hsent [_ [_ [_ Hbody]]]]].
  exists request. split; [exact Hsent|].
  rewrite Hbody. vm_compute. reflexivity.
Defined.

(** X22 on two redirects before the login page, and on two redirects
    before a redirect that names no location. *)
Lemma login_page_is_taken_at_the_end_of_the_chain_witness :
  fst (followRedirects Sample.platform "https://www.tripit.com/a"
         Records.chain_world)
  = Ok (Sample.login_html, "https://www.tripit.com/account/login")
  /\ fst (followRedirects Sample.platform "https://www.tripit.com/a"
            Records.broken_chain_world)
     = Threw (Error "Redirect without location header")
  /\ map req_url
       (sent (snd (followRedirects Sample.platform
                     "https://www.tripit.com/a" Records.chain_world)))
     = [ "https://www.tripit.com/a"; "https://www.tripit.com/b";
         "https://www.tripit.com/account/login" ].
Proof.
  destruct (login_page_is_taken_at_the_end_of_the_chain
              Sample.platform 2 "https://www.tripit.com/a"
              Records.chain_world
              (Sample.answer 200 None Sample.login_html) [])
    as [_ [Hpage _]]; [lia | reflexivity | reflexivity |].
  destruct (login_page_is_taken_at_the_end_of_the_chain
              Sample.platform 2 "https://www.tripit.com/a"
              Records.broken_chain_world
              (Sample.answer 302 None "") [])
    as [_ [_ Hbroken]]; [lia | reflexivity | reflexivity |].
  destruct Hpage as [w1 [Hrun1 [Hsent1 _]]]; [discriminate..|].
  destruct Hbroken as [w2 [Hrun2 _]]; [left; reflexivity | reflexivity|].
  rewrite Hrun1, Hrun2. cbn [fst snd]. rewrite Hsent1.
  split; [vm_compute; reflexivity|]. split; reflexivity.
Defined.

(** X23 on a typical content, and on one with a quoted target. *)
Lemma meta_refresh_target_is_the_rest_after_URL_witness :
  match_meta_url "0;URL=/callback?code=XYZ" = Some "/callback?code=XYZ"
  /\ (exists before,
         "0;URL=/callback?code=XYZ" = before ++ "URL=/callback?code=XYZ")
  /\ exists extra,
       match_meta_url "0; URL='/next'" = Some (extra ++ "'/next'").
Proof.
  destruct meta_refresh_target_is_the_rest_after_URL as [Hsound Hfound].
  destruct (Hsound "0;URL=/callback?code=XYZ" "/callback?code=XYZ" eq_refl)
    as [_ [_ Hbefore]].
  split; [reflexivity|]. split; [exact Hbefore|].
  apply (Hfound "0; " "'/next'"); [discriminate | reflexivity].
Defined.

(** X27 on an assignment that opens with a single quote and closes with
    a double one. *)
Lemma script_redirect_target_is_a_quoted_assignment_witness :
  match_js_redirect
    ("window.location.href = '/next" ++ String double_quote ";")
  = Some "/next"
  /\ unquoted "/next" = true
  /\ exists before property sp1 sp2 q1 q2 after,
      "window.location.href = '/next" ++ String double_quote ";"
      = before ++ "window.location" ++ property ++ sp1 ++ "=" ++ sp2
        ++ String q1 ("/next" ++ String q2 after)
      /\ (property = "" \/ property = ".href")
      /\ blank sp1 = true /\ blank sp2 = true
      /\ is_quote q1 = true /\ is_quote q2 = true.
Proof.
  destruct (script_redirect_target_is_a_quoted_assignment
              ("window.location.href = '/next" ++ String double_quote ";")
              "/next" eq_refl)
    as [_ [Hunquoted Hshape]].
  split; [reflexivity|]. split; [exact Hunquoted | exact Hshape].
Defined.


(** X29 on a flight with an empty list of segments and a transport
    without one. *)
Lemma update_without_segment_is_refused_witness :
  fst (updateFlight Records.runtime Records.signed_in Records.touch_flight
         (Records.api_world "NO_SEGMENT" "UPDATED"))
  = Failed (Raised (Error "Flight with identifier f-4 has no segment"))
  /\ fst (updateTransport Records.runtime Records.signed_in
            Records.touch_transport
            (Records.api_world "NO_SEGMENT" "UPDATED"))
     = Failed
         (Raised (Error "Transport with identifier f-4 has no segment"))
  /\ List.length
       (sent (snd (updateFlight Records.runtime Records.signed_in
                     Records.touch_flight
                     (Records.api_world "NO_SEGMENT" "UPDATED"))))
     = 1%nat.
Proof.
  destruct (update_without_segment_is_refused
              Records.runtime Records.signed_in
              (Records.api_world "NO_SEGMENT" "UPDATED") "tok-1" "f-4"
              (Sample.answer 200 None "NO_SEGMENT")
              [Sample.answer 200 None "UPDATED"] Records.segmentless_answer
              eq_refl eq_refl eq_refl eq_refl eq_refl)
    as [Hflight [Htransport _]].
  destruct (Hflight Records.touch_flight eq_refl eq_refl eq_refl)
    as [Hrun Hsent].
  destruct (Htransport Records.touch_transport eq_refl eq_refl eq_refl)
    as [Hrun' _].
  rewrite Hrun, Hrun'. cbn [fst snd]. rewrite Hsent.
  repeat split.
Defined.

(** X30 on a transfer between two named places whose given name is
    empty, on one between no places at all, and on a flight for a trip
    named by its number. *)
Lemma created_transport_is_named_and_flight_filed_by_uuid_witness :
  transport_name Records.transfer
  = "Airport" ++ places_separator ++ "Hotel"
  /\ transport_name Records.nowhere = "Transport"
  /\ member (member (createFlight_payload Records.new_flight) "AirObject")
       "trip_uuid"
     = VStr "12345".
Proof.
  destruct created_transport_is_named_and_flight_filed_by_uuid
    as [Htransport Hflight].
  destruct (Htransport Records.transfer) as [_ [_ [_ [Hjoined _]]]].
  destruct (Htransport Records.nowhere) as [_ [_ [_ [_ [Hdefault _]]]]].
  destruct (Hflight Records.new_flight) as [Hkey _].
  split; [exact (Hjoined eq_refl "Airport" "Hotel" eq_refl eq_refl)|].
  split; [|exact Hkey].
  apply Hdefault; reflexivity.
Defined.
